(** * med-sage-guardian: the matching engine and the dataset ingestion

    A shallow embedding of the decision logic of the drug interaction
    dashboard: [checkAllergies] and the body of [analyzeInteractions]
    (DrugInteractionDashboard), and [handleFileUpload] / [exportDataset]
    (DatasetManager.tsx), followed by the properties of the specification
    that concern them.

    The components are embedded twice: on records of the declared type
    [DrugInteractionData], and, in [Module Json] and [Module Untyped], on
    the values [JSON.parse] returns, which the code stores unchecked.

    Strings are sequences of code units below 256 (the Latin-1 range), one
    [ascii] per code unit; the string builtins of the language that the
    code calls ([toLowerCase], [trim], [includes], [split], [endsWith],
    [replace]) are defined on them in [Module Js]. *)

From Stdlib Require Import Ascii String List Permutation Lia NArith ZArith Bool.
From Stdlib Require Import DecimalString DecimalN.
From stdpp Require Import gmap strings list fin_maps.

Open Scope string_scope.
Open Scope list_scope.

(** ** The string builtins the code relies on *)

Module Js.

(** The double quote character, code unit 34. *)
Definition dquote : ascii := ascii_of_nat 34.

(** [toLowerCase] on one code unit: A-Z, and the Latin-1 capitals
    U+00C0..U+00DE other than the multiplication sign U+00D7, move up
    by 32; everything else is its own lower case. *)
Definition lowerChar (c : ascii) : ascii :=
  let n := nat_of_ascii c in
  if ((65 <=? n)%nat && (n <=? 90)%nat)
     || ((192 <=? n)%nat && (n <=? 222)%nat && negb (n =? 215)%nat)
  then ascii_of_nat (n + 32) else c.

Fixpoint toLowerCase (s : string) : string :=
  match s with
  | EmptyString => EmptyString
  | String c s' => String (lowerChar c) (toLowerCase s')
  end.

(** White space and line terminators below 256: TAB, LF, VT, FF, CR,
    SPACE and NBSP. *)
Definition isWhiteSpace (c : ascii) : bool :=
  let n := nat_of_ascii c in
  ((9 <=? n)%nat && (n <=? 13)%nat) || (n =? 32)%nat || (n =? 160)%nat.

Fixpoint trimStart (s : string) : string :=
  match s with
  | EmptyString => EmptyString
  | String c s' => if isWhiteSpace c then trimStart s' else s
  end.

Fixpoint trimEnd (s : string) : string :=
  match s with
  | EmptyString => EmptyString
  | String c s' =>
      match trimEnd s' with
      | EmptyString => if isWhiteSpace c then EmptyString else String c EmptyString
      | r => String c r
      end
  end.

Definition trim (s : string) : string := trimEnd (trimStart s).

(** [s.includes(sub)]: [sub] occurs in [s] at some position. *)
Fixpoint includes (s sub : string) : bool :=
  String.prefix sub s
  || match s with
     | EmptyString => false
     | String _ s' => includes s' sub
     end.

Fixpoint endsWith (s suffix : string) : bool :=
  String.eqb s suffix
  || match s with
     | EmptyString => false
     | String _ s' => endsWith s' suffix
     end.

(** [s.split(sep)] for a one-character separator: never empty, the
    empty string splits into one empty piece. *)
Fixpoint split (sep : ascii) (s : string) : list string :=
  match s with
  | EmptyString => [EmptyString]
  | String c s' =>
      if Ascii.eqb c sep then EmptyString :: split sep s'
      else match split sep s' with
           | [] => [String c EmptyString]
           | piece :: pieces => String c piece :: pieces
           end
  end.

(** [s.replace(/c/g, '')]: every occurrence of [c] is deleted. *)
Fixpoint removeAll (c : ascii) (s : string) : string :=
  match s with
  | EmptyString => EmptyString
  | String x s' => if Ascii.eqb x c then removeAll c s' else String x (removeAll c s')
  end.

(** A string in a boolean context: the empty string is falsy. *)
Definition truthy (s : string) : bool := negb (String.eqb s "").

(** [a || b] on strings. *)
Definition orElse (a b : string) : string := if truthy a then a else b.

(** [a || b] where [a] may be [undefined] (a missing property or an
    index past the end of an array). *)
Definition orElseU (a : option string) (b : string) : string :=
  match a with
  | Some s => orElse s b
  | None => b
  end.

(** Does the character occur in the string? *)
Fixpoint occurs (c : ascii) (s : string) : bool :=
  match s with
  | EmptyString => false
  | String x s' => Ascii.eqb x c || occurs c s'
  end.

(** Containment as a proposition: [sub] is a contiguous part of [s]. *)
Definition Contains (s sub : string) : Prop :=
  exists pre post, s = pre +:+ sub +:+ post.

End Js.

Import Js.

(** ** Data model (the interfaces of the two components)

    The string-literal union types of the source are strings at run time
    (the CSV path stores whatever the severity column holds), so
    [severity] is a string throughout. *)

Module DrugEntry.
Record t := mk { id : string; name : string; dosage : string; frequency : string }.
End DrugEntry.

(** [DrugInteractionData] as DatasetManager declares it; the dashboard's
    copy of the interface adds two optional lists that no code reads. *)
Module DrugInteractionData.
Record t := mk {
  drug1 : string;
  drug2 : string;
  severity : string;
  description : string;
  recommendation : string;
  mechanism : option string;
  evidence_level : option string
}.
End DrugInteractionData.

Module InteractionResult.
Record t := mk {
  severity : string;
  drugs : list string;
  description : string;
  recommendation : string
}.
End InteractionResult.

Module AllergyAlert.
Record t := mk {
  drug : string;
  allergen : string;
  severity : string;
  symptoms : string;
  recommendation : string
}.
End AllergyAlert.

(** ** The matching engine (DrugInteractionDashboard) *)

Definition mockInteractions : list InteractionResult.t :=
  [ InteractionResult.mk "severe" ["Warfarin"; "Aspirin"]
      "Increased risk of bleeding when used together"
      "Consider alternative antiplatelet therapy or adjust warfarin dosing with frequent monitoring";
    InteractionResult.mk "moderate" ["Metformin"; "Contrast Agent"]
      "Risk of lactic acidosis with contrast procedures"
      "Discontinue metformin 48 hours before and after contrast administration" ].

(** One entry of [commonAllergicReactions]. *)
Module AllergyInfo.
Record t := mk { allergens : list string; symptoms : string; severity : string }.
End AllergyInfo.

(** The table of known allergen classes, in the order [Object.entries]
    enumerates it (insertion order of the literal). *)
Definition commonAllergicReactions : list (string * AllergyInfo.t) :=
  [ ("penicillin", AllergyInfo.mk ["penicillin"; "amoxicillin"; "ampicillin"]
                     "Rash, hives, swelling, difficulty breathing" "severe");
    ("sulfa", AllergyInfo.mk ["sulfamethoxazole"; "trimethoprim"; "sulfasalazine"]
                "Skin rash, fever, nausea" "moderate");
    ("aspirin", AllergyInfo.mk ["aspirin"; "acetylsalicylic acid"]
                  "Breathing problems, hives, stomach upset" "moderate");
    ("iodine", AllergyInfo.mk ["iodine"; "contrast dye"]
                 "Skin reactions, breathing difficulties" "severe");
    ("latex", AllergyInfo.mk ["latex"]
                "Skin irritation, respiratory symptoms" "mild") ].

(** The alert pushed by the direct match. *)
Definition directAlert (drug : DrugEntry.t) (allergy : string) : AllergyAlert.t :=
  AllergyAlert.mk (DrugEntry.name drug) allergy "severe" "Allergic reaction possible"
    ("AVOID " +:+ DrugEntry.name drug +:+ " - Patient is allergic to " +:+ allergy).

(** The alert pushed for one allergen class. *)
Definition classAlert (drug : DrugEntry.t) (allergy allergen : string)
    (info : AllergyInfo.t) : AllergyAlert.t :=
  AllergyAlert.mk (DrugEntry.name drug) allergy (AllergyInfo.severity info)
    (AllergyInfo.symptoms info)
    ("CONTRAINDICATED - " +:+ DrugEntry.name drug +:+ " contains " +:+ allergen
       +:+ " which patient is allergic to").

(** The test of the direct match: the allergy term is lowercased and
    trimmed, the drug name is lowercased only. *)
Definition directMatch (drug : DrugEntry.t) (allergy : string) : bool :=
  let allergyLower := trim (toLowerCase allergy) in
  let drugLower := toLowerCase (DrugEntry.name drug) in
  includes drugLower allergyLower || includes allergyLower drugLower.

(** The test of the class rule for the class [allergen]. *)
Definition classMatch (drug : DrugEntry.t) (allergy allergen : string)
    (info : AllergyInfo.t) : bool :=
  let allergyLower := trim (toLowerCase allergy) in
  let drugLower := toLowerCase (DrugEntry.name drug) in
  includes allergyLower allergen
  && existsb (fun a => includes drugLower a) (AllergyInfo.allergens info).

(** [checkAllergies]: the two nested [forEach] loops push onto [alerts],
    which is threaded through them as an accumulator. *)
Definition checkAllergies (drugs : list DrugEntry.t) (allergies : list string)
    : list AllergyAlert.t :=
  foldl (fun alerts drug =>
    foldl (fun alerts allergy =>
      let alerts :=
        if directMatch drug allergy then alerts ++ [directAlert drug allergy]
        else alerts in
      foldl (fun alerts '(allergen, info) =>
        if classMatch drug allergy allergen info
        then alerts ++ [classAlert drug allergy allergen info]
        else alerts)
        alerts commonAllergicReactions)
      alerts allergies)
    [] drugs.

(** The predicate handed to [activeDataset.find], with its four
    disjuncts as written. *)
Definition matchesItem (drug1 drug2 : string) (item : DrugInteractionData.t) : bool :=
  let d1 := toLowerCase (DrugInteractionData.drug1 item) in
  let d2 := toLowerCase (DrugInteractionData.drug2 item) in
  (includes d1 drug1 && includes d2 drug2)
  || (includes d1 drug2 && includes d2 drug1)
  || (String.eqb d1 drug1 && String.eqb d2 drug2)
  || (String.eqb d1 drug2 && String.eqb d2 drug1).

(** The finding pushed for a matched record. *)
Definition findingOf (di dj : DrugEntry.t) (interaction : DrugInteractionData.t)
    : InteractionResult.t :=
  InteractionResult.mk (DrugInteractionData.severity interaction)
    [DrugEntry.name di; DrugEntry.name dj]
    (DrugInteractionData.description interaction)
    (DrugInteractionData.recommendation interaction).

(** The body of the inner loop for the entries at positions [i] and [j]. *)
Definition pairStep (activeDataset : list DrugInteractionData.t)
    (found : list InteractionResult.t) (di dj : DrugEntry.t)
    : list InteractionResult.t :=
  let drug1 := toLowerCase (DrugEntry.name di) in
  let drug2 := toLowerCase (DrugEntry.name dj) in
  match find (matchesItem drug1 drug2) activeDataset with
  | Some interaction => found ++ [findingOf di dj interaction]
  | None => found
  end.

(** The double loop [for i < n; for j = i+1 < n] over the uploaded
    dataset. *)
Definition datasetInteractions (drugs : list DrugEntry.t)
    (activeDataset : list DrugInteractionData.t) : list InteractionResult.t :=
  foldl (fun found i =>
    foldl (fun found j =>
      match drugs !! i, drugs !! j with
      | Some di, Some dj => pairStep activeDataset found di dj
      | _, _ => found
      end)
      found (seq (i + 1) (length drugs - (i + 1))))
    [] (seq 0 (length drugs)).

(** The callback of [analyzeInteractions]: from the component state (the
    entered drugs, the allergy field, the active dataset or null) to the
    two lists handed to [setResults] and [setAllergyAlerts]. *)
Definition analyzeInteractions (drugs : list DrugEntry.t) (patientAllergies : string)
    (activeDataset : option (list DrugInteractionData.t))
    : list InteractionResult.t * list AllergyAlert.t :=
  let foundAllergies :=
    if truthy (trim patientAllergies) then
      let allergiesList :=
        List.filter truthy (map trim (split "," patientAllergies)) in
      checkAllergies drugs allergiesList
    else [] in
  let foundInteractions :=
    match activeDataset with
    | Some dataset =>
        if (0 <? length dataset)%nat then datasetInteractions drugs dataset
        else mockInteractions
    | None => mockInteractions
    end in
  (foundInteractions, foundAllergies).

(** ** Dataset ingestion (DatasetManager.tsx) *)

Module Dataset.
Record t := mk {
  id : string;
  name : string;
  uploadDate : string;
  rowCount : nat;
  fileSize : string;
  status : string;
  data : list DrugInteractionData.t
}.
End Dataset.

(** The uploaded [File]: its name, its text and its size in bytes. *)
Module File.
Record t := mk { name : string; text : string; size : N }.
End File.

(** The argument of a [toast] call. *)
Module Toast.
Record t := mk { title : string; description : string; variant : option string }.
End Toast.

(** What [JSON.parse] does with a text, as the declared type of
    [parsedData] has it: it returns a record list of the type
    [DrugInteractionData[]], or it throws an error with a message. The
    code assigns the parsed value to [parsedData] without a check, so an
    uploaded JSON file can store values that are no such records (a
    number, a boolean or null for a member, a member missing); the upload,
    the export and the analysis on the values as parsed are in
    [Module Untyped] below, and the definitions on this type are those on
    the values of the declared type. *)
Inductive parse_result :=
  | Parsed (parsedData : list DrugInteractionData.t)
  | Throws (message : string).

(** The state of the component, the notifications issued so far (latest
    last), and the dataset last handed to [onDatasetChange], which is the
    dashboard's [activeDataset]. *)
Module Manager.
Record t := mk {
  datasets : list Dataset.t;
  activeDataset : option string;
  uploading : bool;
  previewData : option (list DrugInteractionData.t);
  toasts : list Toast.t;
  dashboardDataset : option (list DrugInteractionData.t)
}.
End Manager.

Definition newline : ascii := ascii_of_nat 10.

Definition natToString (n : nat) : string :=
  NilEmpty.string_of_uint (Nat.to_uint n).

(** [values] of one CSV line: split on commas, each piece trimmed and
    then rid of every double quote (a global [replace] by the empty
    string). *)
Definition rowValues (line : string) : list string :=
  map (fun v => removeAll dquote (trim v)) (split "," line).

(** [obj] of one CSV line: [headers.forEach] assigns [values[index] || '']
    to the property named by each header, a later header of the same name
    overwriting an earlier one. *)
Definition rowObject (headers values : list string) : gmap string string :=
  foldl (fun obj '(index, header) => <[header := orElseU (values !! index) ""]> obj)
    ∅ (imap (fun index header => (index, header)) headers).

(** The record built from [obj]. The chains [a || b || c] are written
    nested to the right, which selects the same operand. *)
Definition rowRecord (obj : gmap string string) : DrugInteractionData.t :=
  DrugInteractionData.mk
    (orElseU (obj !! "drug1") (orElseU (obj !! "drug 1") (orElseU (obj !! "drugname1") "")))
    (orElseU (obj !! "drug2") (orElseU (obj !! "drug 2") (orElseU (obj !! "drugname2") "")))
    (toLowerCase (orElseU (obj !! "severity") "mild"))
    (orElseU (obj !! "description") (orElseU (obj !! "interaction") ""))
    (orElseU (obj !! "recommendation") (orElseU (obj !! "advice") ""))
    (Some (orElseU (obj !! "mechanism") ""))
    (Some (orElseU (obj !! "evidence_level") (orElseU (obj !! "evidence level") ""))).

(** The "simple CSV parser" of [handleFileUpload]. *)
Definition parseCSV (text : string) : list DrugInteractionData.t :=
  match split newline text with
  | [] => []
  | line0 :: rest =>
      let headers := map (fun h => toLowerCase (trim h)) (split "," line0) in
      map (fun line => rowRecord (rowObject headers (rowValues line)))
        (List.filter (fun line => truthy (trim line)) rest)
  end.

(** The filter under the comment "Validate data structure". *)
Definition isValid (item : DrugInteractionData.t) : bool :=
  truthy (DrugInteractionData.drug1 item)
  && truthy (DrugInteractionData.drug2 item)
  && truthy (DrugInteractionData.severity item)
  && truthy (DrugInteractionData.description item).

Definition validData (parsedData : list DrugInteractionData.t)
    : list DrugInteractionData.t :=
  List.filter isValid parsedData.

(** [name.replace(/\.[^/.]+$/, "")]: the last dot and what follows it are
    dropped when at least one character follows and none of them is a
    slash. *)
Fixpoint stripExtension (name : string) : string :=
  match name with
  | EmptyString => EmptyString
  | String c rest =>
      if Ascii.eqb c "." && truthy rest && negb (occurs "/" rest) && negb (occurs "." rest)
      then EmptyString
      else String c (stripExtension rest)
  end.

(** [(size / 1024).toFixed(1) + ' KB']: the quotient is exact, and
    [toFixed] rounds it to the nearest tenth, a tie going up. *)
Definition formatSize (size : N) : string :=
  let tenths := ((size * 10 + 512) / 1024)%N in
  NilEmpty.string_of_uint (N.to_uint (tenths / 10))
    +:+ "." +:+ NilEmpty.string_of_uint (N.to_uint (tenths mod 10)) +:+ " KB".

(** The file offered by [exportDataset]. *)
Module Download.
Record t := mk { download : string; content : string }.
End Download.

Section DatasetManager.

(** The two JSON builtins, on values of the declared record type. *)
Variable JSON_parse : string -> parse_result.
Variable JSON_stringify : list DrugInteractionData.t -> string.

(** The [parsedData] of an upload, by the extension of the file name. *)
Definition parseFile (file : File.t) : parse_result :=
  if endsWith (File.name file) ".json" then JSON_parse (File.text file)
  else if endsWith (File.name file) ".csv" then Parsed (parseCSV (File.text file))
  else Parsed [].

(** The body of the [try] block: the new dataset, or the message of
    the error thrown. [now] is [Date.now().toString()] and [today] the
    date part of [new Date().toISOString()]. *)
Definition ingest (file : File.t) (now today : string) : Dataset.t + string :=
  match parseFile file with
  | Throws message => inr message
  | Parsed parsedData =>
      let valid := validData parsedData in
      if (length valid =? 0)%nat then inr "No valid drug interaction data found in file"
      else inl (Dataset.mk now (stripExtension (File.name file)) today
                  (length valid) (formatSize (File.size file)) "active" valid)
  end.

(** [handleFileUpload] on the component state; [None] is an event
    without a file. *)
Definition handleFileUpload (st : Manager.t) (file : option File.t)
    (now today : string) : Manager.t :=
  match file with
  | None => st
  | Some file =>
      match ingest file now today with
      | inl newDataset =>
          Manager.mk (Manager.datasets st ++ [newDataset]) (Manager.activeDataset st)
            false (Manager.previewData st)
            (Manager.toasts st ++
               [Toast.mk "Dataset uploaded successfully"
                  (natToString (Dataset.rowCount newDataset)
                     +:+ " drug interactions loaded from " +:+ File.name file)
                  None])
            (Manager.dashboardDataset st)
      | inr message =>
          Manager.mk (Manager.datasets st) (Manager.activeDataset st)
            false (Manager.previewData st)
            (Manager.toasts st ++ [Toast.mk "Upload failed" message (Some "destructive")])
            (Manager.dashboardDataset st)
      end
  end.

Definition exportDataset (dataset : Dataset.t) : Download.t :=
  Download.mk (Dataset.name dataset +:+ "_export.json")
    (JSON_stringify (Dataset.data dataset)).

End DatasetManager.

Definition deactivateDataset (st : Manager.t) : Manager.t :=
  Manager.mk (Manager.datasets st) None (Manager.uploading st) (Manager.previewData st)
    (Manager.toasts st ++
       [Toast.mk "Dataset deactivated" "Switched back to default drug interaction data" None])
    None.

Definition activateDataset (st : Manager.t) (datasetId : string) : Manager.t :=
  match find (fun d => String.eqb (Dataset.id d) datasetId) (Manager.datasets st) with
  | Some dataset =>
      Manager.mk (Manager.datasets st) (Some datasetId) (Manager.uploading st)
        (Manager.previewData st)
        (Manager.toasts st ++
           [Toast.mk "Dataset activated"
              ("Now using " +:+ Dataset.name dataset +:+ " for drug interaction analysis")
              None])
        (Some (Dataset.data dataset))
  | None => st
  end.

Definition deleteDataset (st : Manager.t) (datasetId : string) : Manager.t :=
  let st1 :=
    Manager.mk
      (List.filter (fun d => negb (String.eqb (Dataset.id d) datasetId)) (Manager.datasets st))
      (Manager.activeDataset st) (Manager.uploading st) (Manager.previewData st)
      (Manager.toasts st) (Manager.dashboardDataset st) in
  let st2 :=
    match Manager.activeDataset st with
    | Some active => if String.eqb active datasetId then deactivateDataset st1 else st1
    | None => st1
    end in
  Manager.mk (Manager.datasets st2) (Manager.activeDataset st2) (Manager.uploading st2)
    (Manager.previewData st2)
    (Manager.toasts st2 ++
       [Toast.mk "Dataset deleted" "Dataset has been removed from the system" None])
    (Manager.dashboardDataset st2).

(** ** A JSON codec for record lists

    [stringify] prints a record list the way [JSON.stringify(data, null, 2)]
    does, and [parse] reads such a text back. The codec covers the texts
    whose value is a list of objects with string members and the members
    the declared type requires; it rejects every other text, whatever
    [JSON.parse] makes of it. The development is stated for an arbitrary
    pair of builtins; the codec is there to run it on concrete files. *)
Module JsonText.

Definition backslash : ascii := ascii_of_nat 92.

Definition hexDigit (n : nat) : ascii :=
  if (n <? 10)%nat then ascii_of_nat (48 + n) else ascii_of_nat (87 + n).

(** One character inside a JSON string literal. *)
Definition escapeChar (c : ascii) : string :=
  let n := nat_of_ascii c in
  if (n =? 34)%nat then String backslash (String dquote "")
  else if (n =? 92)%nat then String backslash (String backslash "")
  else if (n =? 8)%nat then String backslash "b"
  else if (n =? 12)%nat then String backslash "f"
  else if (n =? 10)%nat then String backslash "n"
  else if (n =? 13)%nat then String backslash "r"
  else if (n =? 9)%nat then String backslash "t"
  else if (n <? 32)%nat then
    String backslash
      (String "u" (String "0" (String "0"
         (String (hexDigit (n / 16)) (String (hexDigit (n mod 16)) "")))))
  else String c "".

Fixpoint escape (s : string) : string :=
  match s with
  | EmptyString => EmptyString
  | String c s' => escapeChar c +:+ escape s'
  end.

Definition quote (s : string) : string :=
  String dquote (escape s +:+ String dquote "").

Fixpoint join (sep : string) (pieces : list string) : string :=
  match pieces with
  | [] => ""
  | [piece] => piece
  | piece :: rest => piece +:+ sep +:+ join sep rest
  end.

Definition nl : string := String newline "".

(** The members of a record, in property order; an absent optional
    member is not printed. *)
Definition members (r : DrugInteractionData.t) : list (string * string) :=
  [ ("drug1", DrugInteractionData.drug1 r);
    ("drug2", DrugInteractionData.drug2 r);
    ("severity", DrugInteractionData.severity r);
    ("description", DrugInteractionData.description r);
    ("recommendation", DrugInteractionData.recommendation r) ]
  ++ match DrugInteractionData.mechanism r with
     | Some m => [("mechanism", m)] | None => [] end
  ++ match DrugInteractionData.evidence_level r with
     | Some e => [("evidence_level", e)] | None => [] end.

Definition objectText (r : DrugInteractionData.t) : string :=
  "  {" +:+ nl
  +:+ join ("," +:+ nl)
        (map (fun '(k, v) => "    " +:+ quote k +:+ ": " +:+ quote v) (members r))
  +:+ nl +:+ "  }".

Definition stringify (data : list DrugInteractionData.t) : string :=
  match data with
  | [] => "[]"
  | _ => "[" +:+ nl +:+ join ("," +:+ nl) (map objectText data) +:+ nl +:+ "]"
  end.

Inductive token :=
  | TLBracket | TRBracket | TLBrace | TRBrace | TComma | TColon
  | TString (s : string).

Definition hexValue (c : ascii) : option nat :=
  let n := nat_of_ascii c in
  if (48 <=? n)%nat && (n <=? 57)%nat then Some (n - 48)
  else if (97 <=? n)%nat && (n <=? 102)%nat then Some (n - 87)
  else if (65 <=? n)%nat && (n <=? 70)%nat then Some (n - 55)
  else None.

Definition snoc (s : string) (c : ascii) : string := s +:+ String c "".

(** The lexer; [lit] holds the characters read so far of the string
    literal being read, if one is open. *)
Fixpoint lex (lit : option string) (s : string) : option (list token) :=
  match s with
  | EmptyString => match lit with None => Some [] | Some _ => None end
  | String c rest =>
      let n := nat_of_ascii c in
      match lit with
      | None =>
          if (n =? 34)%nat then lex (Some "") rest
          else if (n =? 32)%nat || (n =? 9)%nat || (n =? 10)%nat || (n =? 13)%nat
          then lex None rest
          else if (n =? 91)%nat then cons TLBracket <$> lex None rest
          else if (n =? 93)%nat then cons TRBracket <$> lex None rest
          else if (n =? 123)%nat then cons TLBrace <$> lex None rest
          else if (n =? 125)%nat then cons TRBrace <$> lex None rest
          else if (n =? 44)%nat then cons TComma <$> lex None rest
          else if (n =? 58)%nat then cons TColon <$> lex None rest
          else None
      | Some acc =>
          if (n =? 34)%nat then cons (TString acc) <$> lex None rest
          else if (n =? 92)%nat then
            match rest with
            | EmptyString => None
            | String e rest' =>
                let m := nat_of_ascii e in
                if (m =? 34)%nat then lex (Some (snoc acc dquote)) rest'
                else if (m =? 92)%nat then lex (Some (snoc acc backslash)) rest'
                else if (m =? 47)%nat then lex (Some (snoc acc "/")) rest'
                else if (m =? 98)%nat then lex (Some (snoc acc (ascii_of_nat 8))) rest'
                else if (m =? 102)%nat then lex (Some (snoc acc (ascii_of_nat 12))) rest'
                else if (m =? 110)%nat then lex (Some (snoc acc (ascii_of_nat 10))) rest'
                else if (m =? 114)%nat then lex (Some (snoc acc (ascii_of_nat 13))) rest'
                else if (m =? 116)%nat then lex (Some (snoc acc (ascii_of_nat 9))) rest'
                else if (m =? 117)%nat then
                  match rest' with
                  | String h1 (String h2 (String h3 (String h4 rest''))) =>
                      match hexValue h1, hexValue h2, hexValue h3, hexValue h4 with
                      | Some 0, Some 0, Some a, Some b =>
                          lex (Some (snoc acc (ascii_of_nat (16 * a + b)))) rest''
                      | _, _, _, _ => None
                      end
                  | _ => None
                  end
                else None
            end
          else if (n <? 32)%nat then None
          else lex (Some (snoc acc c)) rest
      end
  end.

(** The members of one object, after its opening brace, and what
    follows its closing brace. *)
Fixpoint parseMembers (tokens : list token)
    : option (list (string * string) * list token) :=
  match tokens with
  | TString k :: TColon :: TString v :: TRBrace :: rest => Some ([(k, v)], rest)
  | TString k :: TColon :: TString v :: TComma :: rest =>
      match parseMembers rest with
      | Some (ms, rest') => Some ((k, v) :: ms, rest')
      | None => None
      end
  | _ => None
  end.

(** The value of a member; of two members of one name the later wins. *)
Fixpoint member (k : string) (ms : list (string * string)) : option string :=
  match ms with
  | [] => None
  | (k', v) :: rest =>
      match member k rest with
      | Some v' => Some v'
      | None => if String.eqb k' k then Some v else None
      end
  end.

Definition recordOf (ms : list (string * string)) : option DrugInteractionData.t :=
  match member "drug1" ms, member "drug2" ms, member "severity" ms,
        member "description" ms, member "recommendation" ms with
  | Some d1, Some d2, Some sev, Some desc, Some rec =>
      Some (DrugInteractionData.mk d1 d2 sev desc rec
              (member "mechanism" ms) (member "evidence_level" ms))
  | _, _, _, _, _ => None
  end.

(** The objects of the list, after its opening bracket. *)
Fixpoint parseObjects (fuel : nat) (tokens : list token)
    : option (list DrugInteractionData.t) :=
  match fuel with
  | O => None
  | S fuel =>
      match tokens with
      | TLBrace :: rest =>
          match parseMembers rest with
          | Some (ms, rest') =>
              match recordOf ms, rest' with
              | Some r, [TRBracket] => Some [r]
              | Some r, TComma :: rest'' => cons r <$> parseObjects fuel rest''
              | _, _ => None
              end
          | None => None
          end
      | _ => None
      end
  end.

(** The tokens of a printed record list. *)
Definition memberTokens (m : string * string) : list token :=
  [TString (fst m); TColon; TString (snd m)].

Fixpoint commaSep (groups : list (list token)) : list token :=
  match groups with
  | [] => []
  | [group] => group
  | group :: rest => group ++ TComma :: commaSep rest
  end.

Definition objectTokens (r : DrugInteractionData.t) : list token :=
  TLBrace :: commaSep (map memberTokens (members r)) ++ [TRBrace].

Definition dataTokens (data : list DrugInteractionData.t) : list token :=
  TLBracket :: commaSep (map objectTokens data) ++ [TRBracket].

(** A piece of text that the lexer, outside a string literal, turns into
    the tokens [ts] before going on with what follows. *)
Definition Lexes (piece : string) (ts : list token) : Prop :=
  forall rest, lex None (piece +:+ rest) = app ts <$> lex None rest.

Definition parseTokens (tokens : list token) : option (list DrugInteractionData.t) :=
  match tokens with
  | [TLBracket; TRBracket] => Some []
  | TLBracket :: rest => parseObjects (length rest) rest
  | _ => None
  end.

Definition parse (text : string) : parse_result :=
  match lex None text ≫= parseTokens with
  | Some data => Parsed data
  | None => Throws "Unexpected token in JSON"
  end.

End JsonText.

(** ** Uploads as the code receives them: untyped JSON values

    [handleFileUpload] assigns what [JSON.parse] returns to [parsedData]
    without a check, so a stored record can hold a number, a boolean,
    null or nothing where the declared type has a string. This part
    models the values themselves, the two JSON builtins on them, and the
    upload, the export and the analysis over them. The typed definitions
    above are these on the values of the declared type. *)

(** A number, as far as the code observes one (whether it counts as
    true, whether it is finite): [Finite m e] stands for the double
    nearest to m * 10^e and is kept by the decimal literal it was read
    from, [Infinite] for the infinity that a literal beyond the range of
    a double is read as. *)
Inductive JsNumber :=
  | Finite (mantissa exponent : Z)
  | Infinite (negative : bool).

(** The values [JSON.parse] returns. The members of an object are its own
    properties in enumeration order, each key once. *)
Inductive JsValue :=
  | JNull
  | JBool (b : bool)
  | JNumber (n : JsNumber)
  | JString (s : string)
  | JArray (items : list JsValue)
  | JObject (members : list (string * JsValue)).

(** The outcome of an evaluation that may throw. *)
Inductive Outcome (A : Type) :=
  | Returned (a : A)
  | Thrown.
Arguments Returned {A} a.
Arguments Thrown {A}.

Definition bind {A B : Type} (a : Outcome A) (f : A -> Outcome B) : Outcome B :=
  match a with
  | Returned x => f x
  | Thrown => Thrown
  end.

Notation "x <- a ;; b" := (bind a (fun x => b))
  (at level 100, a at next level, right associativity).

Module Json.

(** Does the double nearest to m * 10^e equal zero? Below 10^0 this is
    the case up to 2^-1075, half the least positive double. *)
Definition roundsToZero (m e : Z) : bool :=
  (m =? 0)%Z
  || ((e <? 0)%Z && (Z.abs m * 2 ^ 1075 <=? 10 ^ (- e))%Z).

(** Is m * 10^e read as an infinity? From 2^1024 - 2^970 on, half an ulp
    above the greatest double. *)
Definition overflows (m e : Z) : bool :=
  if (0 <=? e)%Z
  then (2 ^ 1024 - 2 ^ 970 <=? Z.abs m * 10 ^ e)%Z
  else ((2 ^ 1024 - 2 ^ 970) * 10 ^ (- e) <=? Z.abs m)%Z.

(** A value in a boolean context. *)
Definition truthy (v : option JsValue) : bool :=
  match v with
  | None => false
  | Some JNull => false
  | Some (JBool b) => b
  | Some (JNumber (Finite m e)) => negb (roundsToZero m e)
  | Some (JNumber (Infinite _)) => true
  | Some (JString s) => Js.truthy s
  | Some (JArray _) => true
  | Some (JObject _) => true
  end.

Fixpoint lookupMember (key : string) (members : list (string * JsValue))
    : option JsValue :=
  match members with
  | [] => None
  | (k, v) :: rest => if String.eqb k key then Some v else lookupMember key rest
  end.

(** [item.key] for one of the keys the code reads (drug1, drug2,
    severity, description, recommendation), none of which a prototype
    defines: reading a property of null throws, a primitive or an array
    has no such property, an object has it when it is its own. [None] is
    undefined. *)
Definition property (item : JsValue) (key : string) : Outcome (option JsValue) :=
  match item with
  | JNull => Thrown
  | JObject members => Returned (lookupMember key members)
  | _ => Returned None
  end.

(** [x.toLowerCase()] on the value of a property: a string has the
    method; on undefined and null the read throws, on any other value the
    method is undefined and the call throws. *)
Definition lowerCased (v : Outcome (option JsValue)) : Outcome string :=
  match v with
  | Returned (Some (JString s)) => Returned (toLowerCase s)
  | _ => Thrown
  end.

(** ** The JSON builtins on values *)

(** Is the key an array index, the decimal numeral without leading zero
    of a number below 2^32 - 1? Such keys are enumerated first, in
    ascending order. *)
Definition arrayIndex (key : string) : option N :=
  match NilEmpty.uint_of_string key with
  | Some d =>
      if Decimal.uint_beq (Decimal.unorm d) d && (N.of_uint d <? 4294967295)%N
      then Some (N.of_uint d)
      else None
  | None => None
  end.

(** A new index key goes before the first member that is no index or a
    greater one. *)
Fixpoint insertIndexed (i : N) (key : string) (v : JsValue)
    (members : list (string * JsValue)) : list (string * JsValue) :=
  match members with
  | [] => [(key, v)]
  | (k, x) :: rest =>
      match arrayIndex k with
      | Some j => if (j <? i)%N then (k, x) :: insertIndexed i key v rest
                  else (key, v) :: members
      | None => (key, v) :: members
      end
  end.

Fixpoint replaceMember (key : string) (v : JsValue)
    (members : list (string * JsValue)) : list (string * JsValue) :=
  match members with
  | [] => []
  | (k, x) :: rest =>
      if String.eqb k key then (k, v) :: rest else (k, x) :: replaceMember key v rest
  end.

(** Defining a property while an object literal is read: a key already
    there keeps its place and takes the new value; a new key is placed by
    the enumeration order. *)
Definition setProperty (members : list (string * JsValue)) (key : string) (v : JsValue)
    : list (string * JsValue) :=
  match lookupMember key members with
  | Some _ => replaceMember key v members
  | None =>
      match arrayIndex key with
      | Some i => insertIndexed i key v members
      | None => members ++ [(key, v)]
      end
  end.

Definition buildObject (written : list (string * JsValue)) : list (string * JsValue) :=
  foldl (fun members '(key, v) => setProperty members key v) [] written.

Inductive token :=
  | TLBracket | TRBracket | TLBrace | TRBrace | TComma | TColon
  | TString (s : string)
  | TNumber (n : JsNumber)
  | TNull
  | TBool (b : bool).

(** A run of decimal digits at the head of a string, and what follows. *)
Fixpoint takeDigits (s : string) : string * string :=
  match s with
  | EmptyString => (EmptyString, EmptyString)
  | String c rest =>
      let n := N_of_ascii c in
      if ((48 <=? n) && (n <=? 57))%N
      then let '(digits, after) := takeDigits rest in (String c digits, after)
      else (EmptyString, s)
  end.

Definition digitsZ (digits : string) : Z :=
  match NilEmpty.uint_of_string digits with
  | Some d => Z.of_uint d
  | None => 0%Z
  end.

(** The exponent part of a number literal, after the mantissa: empty, or
    e or E, an optional sign and at least one digit. *)
Definition exponentOf (s : string) : option Z :=
  match s with
  | EmptyString => Some 0%Z
  | String c rest =>
      if Ascii.eqb c "e" || Ascii.eqb c "E" then
        let '(negative, digitsPart) :=
          match rest with
          | String sign rest' =>
              if Ascii.eqb sign "-" then (true, rest')
              else if Ascii.eqb sign "+" then (false, rest')
              else (false, rest)
          | EmptyString => (false, rest)
          end in
        match takeDigits digitsPart with
        | (String d ds, EmptyString) =>
            Some (if negative then (- digitsZ (String d ds))%Z else digitsZ (String d ds))
        | _ => None
        end
      else None
  end.

(** The fraction and exponent of a number literal, after the integer
    part: the number of fraction digits, their value appended to the
    integer digits, and the exponent. *)
Definition numberTail (intDigits : string) (s : string) : option (Z * Z) :=
  match s with
  | String c rest =>
      if Ascii.eqb c "." then
        match takeDigits rest with
        | (String d ds, after) =>
            match exponentOf after with
            | Some e =>
                Some (digitsZ (intDigits +:+ String d ds),
                      (e - Z.of_nat (String.length (String d ds)))%Z)
            | None => None
            end
        | _ => None
        end
      else match exponentOf s with
           | Some e => Some (digitsZ intDigits, e)
           | None => None
           end
  | EmptyString => Some (digitsZ intDigits, 0%Z)
  end.

(** The number a literal denotes; [None] when the text is no JSON number
    (a leading zero, a missing digit). *)
Definition numberOfLiteral (literal : string) : option JsNumber :=
  let '(negative, unsigned) :=
    match literal with
    | String c rest => if Ascii.eqb c "-" then (true, rest) else (false, literal)
    | EmptyString => (false, literal)
    end in
  match takeDigits unsigned with
  | (String d ds, after) =>
      if Ascii.eqb d "0" && negb (String.eqb ds "") then None
      else match numberTail (String d ds) after with
           | Some (m, e) =>
               if overflows m e then Some (Infinite negative)
               else Some (Finite (if negative then (- m)%Z else m) e)
           | None => None
           end
  | _ => None
  end.

Definition wordToken (word : string) : option token :=
  if String.eqb word "null" then Some TNull
  else if String.eqb word "true" then Some (TBool true)
  else if String.eqb word "false" then Some (TBool false)
  else None.

(** What the lexer is reading. *)
Inductive mode :=
  | Outside
  | InString (acc : string)
  | InNumber (acc : string)
  | InWord (acc : string).

(** The token a character is when it stands between values. *)
Definition punctuation (n : nat) : option token :=
  if (n =? 91)%nat then Some TLBracket
  else if (n =? 93)%nat then Some TRBracket
  else if (n =? 123)%nat then Some TLBrace
  else if (n =? 125)%nat then Some TRBrace
  else if (n =? 44)%nat then Some TComma
  else if (n =? 58)%nat then Some TColon
  else None.

Definition isJsonSpace (n : nat) : bool :=
  (n =? 32)%nat || (n =? 9)%nat || (n =? 10)%nat || (n =? 13)%nat.

Definition isNumberChar (n : nat) : bool :=
  ((48 <=? n)%nat && (n <=? 57)%nat) || (n =? 45)%nat || (n =? 43)%nat
  || (n =? 46)%nat || (n =? 101)%nat || (n =? 69)%nat.

Definition isLetter (n : nat) : bool := (97 <=? n)%nat && (n <=? 122)%nat.

(** The lexer. A number or a word ends at white space, at punctuation or
    at the end of the text. An escape by code unit is read when the code
    unit is below 256; the strings modelled here hold no other. *)
Fixpoint lex (m : mode) (s : string) : option (list token) :=
  match s with
  | EmptyString =>
      match m with
      | Outside => Some []
      | InString _ => None
      | InNumber acc => (fun n => [TNumber n]) <$> numberOfLiteral acc
      | InWord acc => (fun t => [t]) <$> wordToken acc
      end
  | String c rest =>
      let n := nat_of_ascii c in
      match m with
      | Outside =>
          if (n =? 34)%nat then lex (InString "") rest
          else if isJsonSpace n then lex Outside rest
          else match punctuation n with
               | Some t => cons t <$> lex Outside rest
               | None =>
                   if ((48 <=? n)%nat && (n <=? 57)%nat) || (n =? 45)%nat
                   then lex (InNumber (String c "")) rest
                   else if isLetter n then lex (InWord (String c "")) rest
                   else None
               end
      | InNumber acc =>
          if isNumberChar n then lex (InNumber (JsonText.snoc acc c)) rest
          else match numberOfLiteral acc with
               | Some number =>
                   if isJsonSpace n then cons (TNumber number) <$> lex Outside rest
                   else match punctuation n with
                        | Some t => (fun ts => TNumber number :: t :: ts) <$> lex Outside rest
                        | None => None
                        end
               | None => None
               end
      | InWord acc =>
          if isLetter n then lex (InWord (JsonText.snoc acc c)) rest
          else match wordToken acc with
               | Some word =>
                   if isJsonSpace n then cons word <$> lex Outside rest
                   else match punctuation n with
                        | Some t => (fun ts => word :: t :: ts) <$> lex Outside rest
                        | None => None
                        end
               | None => None
               end
      | InString acc =>
          if (n =? 34)%nat then cons (TString acc) <$> lex Outside rest
          else if (n =? 92)%nat then
            match rest with
            | EmptyString => None
            | String e rest' =>
                let k := nat_of_ascii e in
                if (k =? 34)%nat then lex (InString (JsonText.snoc acc dquote)) rest'
                else if (k =? 92)%nat
                then lex (InString (JsonText.snoc acc JsonText.backslash)) rest'
                else if (k =? 47)%nat then lex (InString (JsonText.snoc acc "/")) rest'
                else if (k =? 98)%nat
                then lex (InString (JsonText.snoc acc (ascii_of_nat 8))) rest'
                else if (k =? 102)%nat
                then lex (InString (JsonText.snoc acc (ascii_of_nat 12))) rest'
                else if (k =? 110)%nat
                then lex (InString (JsonText.snoc acc (ascii_of_nat 10))) rest'
                else if (k =? 114)%nat
                then lex (InString (JsonText.snoc acc (ascii_of_nat 13))) rest'
                else if (k =? 116)%nat
                then lex (InString (JsonText.snoc acc (ascii_of_nat 9))) rest'
                else if (k =? 117)%nat then
                  match rest' with
                  | String h1 (String h2 (String h3 (String h4 rest''))) =>
                      match JsonText.hexValue h1, JsonText.hexValue h2,
                            JsonText.hexValue h3, JsonText.hexValue h4 with
                      | Some 0, Some 0, Some a, Some b =>
                          lex (InString (JsonText.snoc acc (ascii_of_nat (16 * a + b)))) rest''
                      | _, _, _, _ => None
                      end
                  | _ => None
                  end
                else None
            end
          else if (n <? 32)%nat then None
          else lex (InString (JsonText.snoc acc c)) rest
      end
  end.

(** The parser, by recursive descent; [fuel] bounds the depth of the
    calls. [parseElements] reads the elements of an array after its
    opening bracket, [parseMembers] the members of an object after its
    opening brace. *)
Fixpoint parseValue (fuel : nat) (ts : list token) : option (JsValue * list token) :=
  match fuel with
  | O => None
  | S fuel =>
      match ts with
      | TNull :: rest => Some (JNull, rest)
      | TBool b :: rest => Some (JBool b, rest)
      | TNumber n :: rest => Some (JNumber n, rest)
      | TString s :: rest => Some (JString s, rest)
      | TLBracket :: TRBracket :: rest => Some (JArray [], rest)
      | TLBracket :: rest =>
          match parseElements fuel rest with
          | Some (items, rest') => Some (JArray items, rest')
          | None => None
          end
      | TLBrace :: TRBrace :: rest => Some (JObject [], rest)
      | TLBrace :: rest =>
          match parseMembers fuel rest with
          | Some (written, rest') => Some (JObject (buildObject written), rest')
          | None => None
          end
      | _ => None
      end
  end
with parseElements (fuel : nat) (ts : list token) : option (list JsValue * list token) :=
  match fuel with
  | O => None
  | S fuel =>
      match parseValue fuel ts with
      | Some (v, TComma :: rest) =>
          match parseElements fuel rest with
          | Some (vs, rest') => Some (v :: vs, rest')
          | None => None
          end
      | Some (v, TRBracket :: rest) => Some ([v], rest)
      | _ => None
      end
  end
with parseMembers (fuel : nat) (ts : list token)
    : option (list (string * JsValue) * list token) :=
  match fuel with
  | O => None
  | S fuel =>
      match ts with
      | TString key :: TColon :: rest =>
          match parseValue fuel rest with
          | Some (v, TComma :: rest') =>
              match parseMembers fuel rest' with
              | Some (written, rest'') => Some ((key, v) :: written, rest'')
              | None => None
              end
          | Some (v, TRBrace :: rest') => Some ([(key, v)], rest')
          | _ => None
          end
      | _ => None
      end
  end.

(** [JSON.parse]: the value of the text, or a thrown SyntaxError. Every
    call of the parser consumes a token or is followed by one that does,
    so twice the number of tokens bounds the depth. *)
Definition parse (text : string) : Outcome JsValue :=
  match lex Outside text with
  | Some ts =>
      match parseValue (2 * length ts + 2) ts with
      | Some (v, []) => Returned v
      | _ => Thrown
      end
  | None => Thrown
  end.

(** [JSON.stringify(value, null, 2)] at a given indentation. An infinity
    is printed as null. The text of a finite number (the shortest decimal
    that reads back as the same double) is not modelled: a value that
    holds one has no text here, [None]. *)
Fixpoint stringifyAt (indent : string) (v : JsValue) : option string :=
  match v with
  | JNull => Some "null"
  | JBool true => Some "true"
  | JBool false => Some "false"
  | JNumber (Infinite _) => Some "null"
  | JNumber (Finite _ _) => None
  | JString s => Some (JsonText.quote s)
  | JArray [] => Some "[]"
  | JArray items =>
      let inner := indent +:+ "  " in
      match mapM (stringifyAt inner) items with
      | Some pieces =>
          Some ("[" +:+ JsonText.nl +:+ inner
                +:+ JsonText.join ("," +:+ JsonText.nl +:+ inner) pieces
                +:+ JsonText.nl +:+ indent +:+ "]")
      | None => None
      end
  | JObject [] => Some "{}"
  | JObject members =>
      let inner := indent +:+ "  " in
      match mapM (fun member =>
                    match stringifyAt inner (snd member) with
                    | Some text => Some (JsonText.quote (fst member) +:+ ": " +:+ text)
                    | None => None
                    end) members with
      | Some pieces =>
          Some ("{" +:+ JsonText.nl +:+ inner
                +:+ JsonText.join ("," +:+ JsonText.nl +:+ inner) pieces
                +:+ JsonText.nl +:+ indent +:+ "}")
      | None => None
      end
  end.

Definition stringify (v : JsValue) : option string := stringifyAt "" v.

(** A piece of text that the lexer, between two values, turns into the
    tokens [ts] before going on with what follows. *)
Definition Lexes (piece : string) (ts : list token) : Prop :=
  forall rest, lex Outside (piece +:+ rest) = app ts <$> lex Outside rest.

Fixpoint commaSep (groups : list (list token)) : list token :=
  match groups with
  | [] => []
  | [group] => group
  | group :: rest => group ++ TComma :: commaSep rest
  end.

(** Where the language keeps the members of an object: never two of one
    name, the array indices first and ascending. *)
Fixpoint indexOrdered (indices : list (option N)) : Prop :=
  match indices with
  | [] => True
  | None :: rest => Forall (fun index => index = None) rest
  | Some i :: rest => (forall j, In (Some j) rest -> (i < j)%N) /\ indexOrdered rest
  end.

Definition enumerated (members : list (string * JsValue)) : Prop :=
  NoDup (map fst members) /\ indexOrdered (map arrayIndex (map fst members)).

End Json.

(** ** The two components on untyped values *)

Module RawResult.
Record t := mk {
  severity : option JsValue;
  drugs : list string;
  description : option JsValue;
  recommendation : option JsValue
}.
End RawResult.

Module RawDataset.
Record t := mk {
  id : string;
  name : string;
  uploadDate : string;
  rowCount : nat;
  fileSize : string;
  status : string;
  data : list JsValue
}.
End RawDataset.

(** The error an upload ends with: the SyntaxError of [JSON.parse], a
    TypeError of the filter step, or the error the code throws itself. *)
Inductive UploadError :=
  | SyntaxError
  | TypeError
  | NoValidData.

Module Untyped.

(** An object whose members all hold strings, and the object the CSV
    parser builds for a record: an object literal with the seven members
    in the order written. *)
Definition stringMembers (members : list (string * string)) : JsValue :=
  JObject (map (fun member => (fst member, JString (snd member))) members).

Definition recordValue (r : DrugInteractionData.t) : JsValue :=
  stringMembers (JsonText.members r).

(** A dataset of records of the declared type, as stored. *)
Definition datasetValue (d : Dataset.t) : RawDataset.t :=
  RawDataset.mk (Dataset.id d) (Dataset.name d) (Dataset.uploadDate d)
    (Dataset.rowCount d) (Dataset.fileSize d) (Dataset.status d)
    (map recordValue (Dataset.data d)).

(** The finding of the built-in sample list as a value. *)
Definition resultValue (r : InteractionResult.t) : RawResult.t :=
  RawResult.mk (Some (JString (InteractionResult.severity r)))
    (InteractionResult.drugs r)
    (Some (JString (InteractionResult.description r)))
    (Some (JString (InteractionResult.recommendation r))).

(** [a && b] and [a || b] on conditions that may throw: the right
    operand is evaluated only when the left one does not decide. *)
Definition both (a b : Outcome bool) : Outcome bool :=
  match a with
  | Returned true => b
  | Returned false => Returned false
  | Thrown => Thrown
  end.

Definition either (a b : Outcome bool) : Outcome bool :=
  match a with
  | Returned true => Returned true
  | Returned false => b
  | Thrown => Thrown
  end.

Definition test (s : Outcome string) (p : string -> bool) : Outcome bool :=
  match s with
  | Returned s => Returned (p s)
  | Thrown => Thrown
  end.

(** The predicate handed to [activeDataset.find], on a stored value. *)
Definition matchesItem (drug1 drug2 : string) (item : JsValue) : Outcome bool :=
  let d1 := Json.lowerCased (Json.property item "drug1") in
  let d2 := Json.lowerCased (Json.property item "drug2") in
  either (either (either
    (both (test d1 (fun d => includes d drug1)) (test d2 (fun d => includes d drug2)))
    (both (test d1 (fun d => includes d drug2)) (test d2 (fun d => includes d drug1))))
    (both (test d1 (fun d => String.eqb d drug1)) (test d2 (fun d => String.eqb d drug2))))
    (both (test d1 (fun d => String.eqb d drug2)) (test d2 (fun d => String.eqb d drug1))).

(** [Array.prototype.find] with a predicate that may throw. *)
Fixpoint find (p : JsValue -> Outcome bool) (items : list JsValue)
    : Outcome (option JsValue) :=
  match items with
  | [] => Returned None
  | item :: rest =>
      match p item with
      | Returned true => Returned (Some item)
      | Returned false => find p rest
      | Thrown => Thrown
      end
  end.

(** The body of the inner loop. *)
Definition pairStep (activeDataset : list JsValue) (found : list RawResult.t)
    (di dj : DrugEntry.t) : Outcome (list RawResult.t) :=
  let drug1 := toLowerCase (DrugEntry.name di) in
  let drug2 := toLowerCase (DrugEntry.name dj) in
  interaction <- find (matchesItem drug1 drug2) activeDataset ;;
  match interaction with
  | Some item =>
      if Json.truthy interaction then
        severity <- Json.property item "severity" ;;
        description <- Json.property item "description" ;;
        recommendation <- Json.property item "recommendation" ;;
        Returned (found ++ [RawResult.mk severity [DrugEntry.name di; DrugEntry.name dj]
                              description recommendation])
      else Returned found
  | None => Returned found
  end.

(** The double loop; an error thrown in its body ends it. *)
Definition datasetInteractions (drugs : list DrugEntry.t) (activeDataset : list JsValue)
    : Outcome (list RawResult.t) :=
  foldl (fun found i =>
    foldl (fun found j =>
      found <- found ;;
      match drugs !! i, drugs !! j with
      | Some di, Some dj => pairStep activeDataset found di dj
      | _, _ => Returned found
      end)
      found (seq (i + 1) (length drugs - (i + 1))))
    (Returned []) (seq 0 (length drugs)).

(** The callback of [analyzeInteractions]. When it throws, neither
    [setResults] nor [setAllergyAlerts] is reached. *)
Definition analyzeInteractions (drugs : list DrugEntry.t) (patientAllergies : string)
    (activeDataset : option (list JsValue))
    : Outcome (list RawResult.t * list AllergyAlert.t) :=
  let foundAllergies :=
    if truthy (trim patientAllergies) then
      let allergiesList :=
        List.filter truthy (map trim (split "," patientAllergies)) in
      checkAllergies drugs allergiesList
    else [] in
  foundInteractions <-
    match activeDataset with
    | Some dataset =>
        if (0 <? length dataset)%nat then datasetInteractions drugs dataset
        else Returned (map resultValue mockInteractions)
    | None => Returned (map resultValue mockInteractions)
    end ;;
  Returned (foundInteractions, foundAllergies).

(** The [parsedData] of an upload. *)
Definition parseFile (file : File.t) : Outcome JsValue :=
  if endsWith (File.name file) ".json" then Json.parse (File.text file)
  else if endsWith (File.name file) ".csv"
  then Returned (JArray (map recordValue (parseCSV (File.text file))))
  else Returned (JArray []).

(** The condition of the filter under "Validate data structure". *)
Definition isValid (item : JsValue) : Outcome bool :=
  drug1 <- Json.property item "drug1" ;;
  if Json.truthy drug1 then
    drug2 <- Json.property item "drug2" ;;
    if Json.truthy drug2 then
      severity <- Json.property item "severity" ;;
      if Json.truthy severity then
        description <- Json.property item "description" ;;
        Returned (Json.truthy description)
      else Returned false
    else Returned false
  else Returned false.

Fixpoint filter (p : JsValue -> Outcome bool) (items : list JsValue)
    : Outcome (list JsValue) :=
  match items with
  | [] => Returned []
  | item :: rest =>
      keep <- p item ;;
      kept <- filter p rest ;;
      Returned (if keep then item :: kept else kept)
  end.

(** [parsedData.filter(...)]: only an array has the method. *)
Definition validData (parsedData : JsValue) : Outcome (list JsValue) :=
  match parsedData with
  | JArray items => filter isValid items
  | _ => Thrown
  end.

(** The body of the [try] block. *)
Definition ingest (file : File.t) (now today : string) : RawDataset.t + UploadError :=
  match parseFile file with
  | Thrown => inr SyntaxError
  | Returned parsedData =>
      match validData parsedData with
      | Thrown => inr TypeError
      | Returned valid =>
          if (length valid =? 0)%nat then inr NoValidData
          else inl (RawDataset.mk now (stripExtension (File.name file)) today
                      (length valid) (formatSize (File.size file)) "active" valid)
      end
  end.

(** The file offered by [exportDataset], where its text is modelled. *)
Definition exportDataset (dataset : RawDataset.t) : option Download.t :=
  Download.mk (RawDataset.name dataset +:+ "_export.json")
    <$> Json.stringify (JArray (RawDataset.data dataset)).

End Untyped.

(** ** Vocabulary of the specification *)

(** The containment rule of the matching engine for a record and two
    medication names: the record's two drug names, lowercased, contain the
    two lowercased medication names, in either assignment. *)
Definition containmentRule (item : DrugInteractionData.t) (nameA nameB : string) : Prop :=
  (Contains (toLowerCase (DrugInteractionData.drug1 item)) (toLowerCase nameA)
   /\ Contains (toLowerCase (DrugInteractionData.drug2 item)) (toLowerCase nameB))
  \/ (Contains (toLowerCase (DrugInteractionData.drug1 item)) (toLowerCase nameB)
      /\ Contains (toLowerCase (DrugInteractionData.drug2 item)) (toLowerCase nameA)).

(** The record the engine uses for a pair of entries, if any. *)
Definition matchedRecord (table : list DrugInteractionData.t) (di dj : DrugEntry.t)
    : option DrugInteractionData.t :=
  find (matchesItem (toLowerCase (DrugEntry.name di)) (toLowerCase (DrugEntry.name dj))) table.

(** What one pass of the inner loop body adds. *)
Definition pairFindings (table : list DrugInteractionData.t) (di dj : DrugEntry.t)
    : list InteractionResult.t :=
  pairStep table [] di dj.

(** The findings of the double loop, entry by entry: every entry against
    the entries after it. *)
Fixpoint interactionsOf (table : list DrugInteractionData.t) (drugs : list DrugEntry.t)
    : list InteractionResult.t :=
  match drugs with
  | [] => []
  | d :: rest => flat_map (pairFindings table d) rest ++ interactionsOf table rest
  end.

(** What the body of the two [forEach] loops adds for one drug and one
    allergy term. *)
Definition pairAlerts (drug : DrugEntry.t) (allergy : string) : list AllergyAlert.t :=
  (if directMatch drug allergy then [directAlert drug allergy] else [])
  ++ flat_map (fun '(allergen, info) =>
       if classMatch drug allergy allergen info
       then [classAlert drug allergy allergen info] else [])
     commonAllergicReactions.

(** Two findings that carry the same record data and the same two drug
    names, the names possibly in the other order. *)
Definition sameFinding (f g : InteractionResult.t) : Prop :=
  InteractionResult.severity f = InteractionResult.severity g
  /\ InteractionResult.description f = InteractionResult.description g
  /\ InteractionResult.recommendation f = InteractionResult.recommendation g
  /\ (InteractionResult.drugs f = InteractionResult.drugs g
      \/ InteractionResult.drugs f = rev (InteractionResult.drugs g)).

(** Two result lists with the same findings up to their order in the
    list and the order of the two names in each. *)
Definition sameFindings (out out' : list InteractionResult.t) : Prop :=
  exists mid, Permutation out mid /\ Forall2 sameFinding mid out'.

(** The medication list with the entries at positions [p] and [q]
    exchanged. *)
Definition swapEntries (p q : nat) (drugs : list DrugEntry.t) : list DrugEntry.t :=
  match drugs !! p, drugs !! q with
  | Some a, Some b => <[p := b]> (<[q := a]> drugs)
  | _, _ => drugs
  end.

(** Every stored dataset holds at least one record, and so does the
    table handed to the dashboard, if any. *)
Definition populated (st : Manager.t) : Prop :=
  (forall d, In d (Manager.datasets st) -> Dataset.data d <> [])
  /\ (forall table, Manager.dashboardDataset st = Some table -> table <> []).

(** A value of a CSV line as the parser reads it: a piece between two
    commas, trimmed and then rid of every double quote. *)
Definition cellOf (line v : string) : Prop :=
  exists raw, In raw (split "," line) /\ v = removeAll dquote (trim raw).

(** What a field of a CSV record holds: a value of its line, or the
    empty string that stands for a missing or an empty one. *)
Definition cellOrEmpty (line v : string) : Prop :=
  v = "" \/ cellOf line v.

(** The member of a stored value under a key, when it is a string. *)
Definition stringMember (item : JsValue) (key : string) : option string :=
  match Json.property item key with
  | Returned (Some (JString s)) => Some s
  | _ => None
  end.

(** A stored value whose [drug1] and [drug2] are strings, as the
    declared type [DrugInteractionData] has them. *)
Definition hasStringNames (item : JsValue) : bool :=
  match stringMember item "drug1", stringMember item "drug2" with
  | Some _, Some _ => true
  | _, _ => false
  end.

(** The containment rule for a stored value: its two drug names are
    strings that, lowercased, contain the two lowercased medication names,
    in either assignment. *)
Definition storedContainmentRule (item : JsValue) (nameA nameB : string) : Prop :=
  exists d1 d2,
    stringMember item "drug1" = Some d1 /\ stringMember item "drug2" = Some d2
    /\ ((Contains (toLowerCase d1) (toLowerCase nameA)
         /\ Contains (toLowerCase d2) (toLowerCase nameB))
        \/ (Contains (toLowerCase d1) (toLowerCase nameB)
            /\ Contains (toLowerCase d2) (toLowerCase nameA))).

(** The predicate of the engine on a stored value with string names. *)
Definition namesMatch (drug1 drug2 : string) (item : JsValue) : bool :=
  match stringMember item "drug1", stringMember item "drug2" with
  | Some d1, Some d2 =>
      (includes (toLowerCase d1) drug1 && includes (toLowerCase d2) drug2)
      || (includes (toLowerCase d1) drug2 && includes (toLowerCase d2) drug1)
      || (String.eqb (toLowerCase d1) drug1 && String.eqb (toLowerCase d2) drug2)
      || (String.eqb (toLowerCase d1) drug2 && String.eqb (toLowerCase d2) drug1)
  | _, _ => false
  end.

(** The members of an object, [None] where it has none of the name. *)
Definition memberOf (item : JsValue) (key : string) : option JsValue :=
  match item with
  | JObject members => Json.lookupMember key members
  | _ => None
  end.

(** The finding made from a stored value. *)
Definition storedFinding (di dj : DrugEntry.t) (item : JsValue) : RawResult.t :=
  RawResult.mk (memberOf item "severity") [DrugEntry.name di; DrugEntry.name dj]
    (memberOf item "description") (memberOf item "recommendation").

Definition storedPairFindings (table : list JsValue) (di dj : DrugEntry.t)
    : list RawResult.t :=
  match find (namesMatch (toLowerCase (DrugEntry.name di)) (toLowerCase (DrugEntry.name dj)))
          table with
  | Some item => [storedFinding di dj item]
  | None => []
  end.

Fixpoint storedInteractionsOf (table : list JsValue) (drugs : list DrugEntry.t)
    : list RawResult.t :=
  match drugs with
  | [] => []
  | d :: rest => flat_map (storedPairFindings table d) rest ++ storedInteractionsOf table rest
  end.

(** A stored value that is an object whose members all hold strings. *)
Definition stringRecord (item : JsValue) : bool :=
  match item with
  | JObject members =>
      forallb (fun member => match snd member with JString _ => true | _ => false end) members
  | _ => false
  end.

(** The names and strings of the members of such an object. *)
Definition stringsOf (item : JsValue) : list (string * string) :=
  match item with
  | JObject members =>
      map (fun member =>
             (fst member, match snd member with JString s => s | _ => "" end)) members
  | _ => []
  end.

(** The text and the tokens of a list of objects with string members, as
    [JSON.stringify(data, null, 2)] prints it. *)
Definition memberText (member : string * string) : string :=
  JsonText.quote (fst member) +:+ ": " +:+ JsonText.quote (snd member).

Definition recordText (members : list (string * string)) : string :=
  match members with
  | [] => "{}"
  | _ =>
      "{" +:+ JsonText.nl +:+ "    "
      +:+ JsonText.join ("," +:+ JsonText.nl +:+ "    ") (map memberText members)
      +:+ JsonText.nl +:+ "  " +:+ "}"
  end.

Definition recordsText (records : list (list (string * string))) : string :=
  "[" +:+ JsonText.nl +:+ "  "
  +:+ JsonText.join ("," +:+ JsonText.nl +:+ "  ") (map recordText records)
  +:+ JsonText.nl +:+ "" +:+ "]".

Definition memberTokens (member : string * string) : list Json.token :=
  [Json.TString (fst member); Json.TColon; Json.TString (snd member)].

Definition recordTokens (members : list (string * string)) : list Json.token :=
  Json.TLBrace :: Json.commaSep (map memberTokens members) ++ [Json.TRBrace].

Definition recordsTokens (records : list (list (string * string))) : list Json.token :=
  Json.TLBracket :: Json.commaSep (map recordTokens records) ++ [Json.TRBracket].

(** ** Sample data *)

Definition aspirinEntry : DrugEntry.t := DrugEntry.mk "1700000000001" "Aspirin" "81mg" "Daily".
Definition warfarinEntry : DrugEntry.t := DrugEntry.mk "1700000000002" "Warfarin" "5mg" "Daily".

(** The one-record table of the first scenario of the specification. *)
Definition scenarioTable : list DrugInteractionData.t :=
  [ DrugInteractionData.mk "Aspirin" "Warfarin" "severe" "bleeding risk" ""
      (Some "") (Some "") ].

(** A table in which the second and the third record both match Aspirin
    with Warfarin. *)
Definition rankedTable : list DrugInteractionData.t :=
  [ DrugInteractionData.mk "Metformin" "Contrast Agent" "moderate" "lactic acidosis"
      "pause metformin" None None;
    DrugInteractionData.mk "ASPIRIN" "WARFARIN sodium" "mild" "first match"
      "monitor" None None;
    DrugInteractionData.mk "warfarin" "aspirin" "severe" "second match"
      "avoid" None None ].

Definition amoxicillinEntry : DrugEntry.t :=
  DrugEntry.mk "1700000000003" "Amoxicillin" "500mg" "Twice daily".
Definition penicillinEntry : DrugEntry.t :=
  DrugEntry.mk "1700000000004" "Penicillin" "250mg" "Daily".

(** A medication typed with a space after the name; [addDrug] stores the
    name as typed. *)
Definition amoxicillinSpaceEntry : DrugEntry.t :=
  DrugEntry.mk "1700000000005" "Amoxicillin " "500mg" "Twice daily".

Definition emptyManager : Manager.t := Manager.mk [] None false None [] None.

Definition csvHeader : string := "drug1,drug2,severity,description".

(** The CSV file of the first scenario of the specification. *)
Definition scenarioCsv : File.t :=
  File.mk "interactions.csv"
    (csvHeader +:+ JsonText.nl +:+ "Aspirin,Warfarin,severe,bleeding risk") 70.



(** A data row whose first value has quotes inside it and none around
    it. *)
Definition interiorQuoteRow : string :=
  "Warfarin " +:+ String dquote ("Coumadin" +:+ String dquote " tabs,Aspirin,severe,bleeding risk").

Definition interiorQuoteCsv : File.t :=
  File.mk "quoted.csv" (csvHeader +:+ JsonText.nl +:+ interiorQuoteRow) 87.

(** A JSON file whose one record has, for its first drug name, a number
    beyond the range of a double. *)
Definition overflowJson : File.t :=
  File.mk "big.json"
    ("[{" +:+ JsonText.quote "drug1" +:+ ":1e400,"
       +:+ JsonText.quote "drug2" +:+ ":" +:+ JsonText.quote "Warfarin" +:+ ","
       +:+ JsonText.quote "severity" +:+ ":" +:+ JsonText.quote "severe" +:+ ","
       +:+ JsonText.quote "description" +:+ ":" +:+ JsonText.quote "bleeding risk"
       +:+ "}]")
    86.

Definition overflowRecord : JsValue :=
  JObject [ ("drug1", JNumber (Infinite false)); ("drug2", JString "Warfarin");
            ("severity", JString "severe"); ("description", JString "bleeding risk") ].

(** A JSON file whose first record has a boolean for its first drug
    name, and whose second record is the one of the first scenario. *)
Definition booleanNameJson : File.t :=
  File.mk "flags.json"
    ("[{" +:+ JsonText.quote "drug1" +:+ ":true,"
       +:+ JsonText.quote "drug2" +:+ ":" +:+ JsonText.quote "Warfarin" +:+ ","
       +:+ JsonText.quote "severity" +:+ ":" +:+ JsonText.quote "severe" +:+ ","
       +:+ JsonText.quote "description" +:+ ":" +:+ JsonText.quote "flagged"
       +:+ "},{" +:+ JsonText.quote "drug1" +:+ ":" +:+ JsonText.quote "Aspirin" +:+ ","
       +:+ JsonText.quote "drug2" +:+ ":" +:+ JsonText.quote "Warfarin" +:+ ","
       +:+ JsonText.quote "severity" +:+ ":" +:+ JsonText.quote "severe" +:+ ","
       +:+ JsonText.quote "description" +:+ ":" +:+ JsonText.quote "bleeding risk"
       +:+ "}]")
    168.

Definition booleanNameTable : list JsValue :=
  [ JObject [ ("drug1", JBool true); ("drug2", JString "Warfarin");
              ("severity", JString "severe"); ("description", JString "flagged") ];
    JObject [ ("drug1", JString "Aspirin"); ("drug2", JString "Warfarin");
              ("severity", JString "severe"); ("description", JString "bleeding risk") ] ].

(** The table of the first scenario as the dashboard holds it. *)
Definition scenarioValues : list JsValue := map Untyped.recordValue scenarioTable.

(** ** The rest of the dashboard: the medication form *)

(** The [currentDrug] state: the three fields of the add-medication form. *)
Module DrugForm.
Record t := mk { name : string; dosage : string; frequency : string }.
End DrugForm.

(** The state of the dashboard component (its [useState] cells). *)
Module Dashboard.
Record t := mk {
  drugs : list DrugEntry.t;
  patientAge : string;
  patientAllergies : string;
  currentDrug : DrugForm.t;
  analyzing : bool;
  results : list InteractionResult.t;
  allergyAlerts : list AllergyAlert.t;
  activeDataset : option (list DrugInteractionData.t)
}.
End Dashboard.

(** [addDrug]; [now] is [Date.now().toString()]. The entry takes the
    three fields as typed, and the form is cleared. *)
Definition addDrug (st : Dashboard.t) (now : string) : Dashboard.t :=
  if truthy (trim (DrugForm.name (Dashboard.currentDrug st))) then
    Dashboard.mk
      (Dashboard.drugs st ++
         [DrugEntry.mk now (DrugForm.name (Dashboard.currentDrug st))
            (DrugForm.dosage (Dashboard.currentDrug st))
            (DrugForm.frequency (Dashboard.currentDrug st))])
      (Dashboard.patientAge st) (Dashboard.patientAllergies st)
      (DrugForm.mk "" "" "")
      (Dashboard.analyzing st) (Dashboard.results st) (Dashboard.allergyAlerts st)
      (Dashboard.activeDataset st)
  else st.

(** [removeDrug]. *)
Definition removeDrug (st : Dashboard.t) (id : string) : Dashboard.t :=
  Dashboard.mk
    (List.filter (fun drug => negb (String.eqb (DrugEntry.id drug) id)) (Dashboard.drugs st))
    (Dashboard.patientAge st) (Dashboard.patientAllergies st)
    (Dashboard.currentDrug st)
    (Dashboard.analyzing st) (Dashboard.results st) (Dashboard.allergyAlerts st)
    (Dashboard.activeDataset st).

(** The [onChange] handler of the drug name input. *)
Definition typeDrugName (st : Dashboard.t) (value : string) : Dashboard.t :=
  Dashboard.mk (Dashboard.drugs st) (Dashboard.patientAge st) (Dashboard.patientAllergies st)
    (DrugForm.mk value (DrugForm.dosage (Dashboard.currentDrug st))
       (DrugForm.frequency (Dashboard.currentDrug st)))
    (Dashboard.analyzing st) (Dashboard.results st) (Dashboard.allergyAlerts st)
    (Dashboard.activeDataset st).

(** [getSeverityColor], the badge class of a finding in the results. *)
Definition getSeverityColor (severity : string) : string :=
  if String.eqb severity "severe" then "bg-severe text-white"
  else if String.eqb severity "moderate" then "bg-moderate text-white"
  else if String.eqb severity "mild" then "bg-mild text-white"
  else if String.eqb severity "safe" then "bg-safe text-white"
  else "bg-muted".

(** The badge class of a record in the dataset preview (the chain of
    conditionals in the preview tab of DatasetManager). *)
Definition previewSeverityClass (severity : string) : string :=
  if String.eqb severity "severe" then "bg-severe text-white"
  else if String.eqb severity "moderate" then "bg-moderate text-white"
  else if String.eqb severity "mild" then "bg-mild text-white"
  else "bg-safe text-white".

(** ** The rest of the dataset manager *)

(** [previewDataset]: the first ten rows. *)
Definition previewDataset (st : Manager.t) (dataset : Dataset.t) : Manager.t :=
  Manager.mk (Manager.datasets st) (Manager.activeDataset st) (Manager.uploading st)
    (Some (take 10 (Dataset.data dataset)))
    (Manager.toasts st) (Manager.dashboardDataset st).

(** The user actions on the dataset tab. The preview button belongs to a
    row of the dataset list, named here by its position. *)
Inductive ManagerEvent :=
  | Upload (file : option File.t) (now today : string)
  | Activate (datasetId : string)
  | Deactivate
  | Delete (datasetId : string)
  | Preview (row : nat).

Definition managerStep (JSON_parse : string -> parse_result)
    (st : Manager.t) (ev : ManagerEvent) : Manager.t :=
  match ev with
  | Upload file now today => handleFileUpload JSON_parse st file now today
  | Activate datasetId => activateDataset st datasetId
  | Deactivate => deactivateDataset st
  | Delete datasetId => deleteDataset st datasetId
  | Preview row =>
      match Manager.datasets st !! row with
      | Some dataset => previewDataset st dataset
      | None => st
      end
  end.

(** The component after a sequence of actions, from its initial state. *)
Definition managerRun (JSON_parse : string -> parse_result)
    (events : list ManagerEvent) : Manager.t :=
  foldl (managerStep JSON_parse) emptyManager events.

(** A stored dataset as [handleFileUpload] builds it: its row count is
    the number of its records, it has at least one, each passes the
    validity filter, and its status reads active. *)
Definition wellFormedDataset (d : Dataset.t) : Prop :=
  Dataset.rowCount d = length (Dataset.data d)
  /\ Dataset.data d <> []
  /\ (forall item, In item (Dataset.data d) -> isValid item = true)
  /\ Dataset.status d = "active".

(** The table the dashboard holds is the data of a stored dataset that
    carries the active id; none is held when no dataset is active. *)
Definition activeConsistent (st : Manager.t) : Prop :=
  match Manager.activeDataset st with
  | Some datasetId =>
      exists d, In d (Manager.datasets st)
                /\ Dataset.id d = datasetId
                /\ Manager.dashboardDataset st = Some (Dataset.data d)
  | None => Manager.dashboardDataset st = None
  end.

(** What every action on the dataset tab preserves. *)
Definition managerInvariant (st : Manager.t) : Prop :=
  (forall d, In d (Manager.datasets st) -> wellFormedDataset d)
  /\ activeConsistent st
  /\ (forall rows, Manager.previewData st = Some rows ->
        length rows <= 10 /\ forall item, In item rows -> isValid item = true).

(** The text with a carriage return put before every line feed. *)
Fixpoint withCarriageReturns (text : string) : string :=
  match text with
  | EmptyString => EmptyString
  | String c rest =>
      if Ascii.eqb c newline
      then String (ascii_of_nat 13) (String c (withCarriageReturns rest))
      else String c (withCarriageReturns rest)
  end.

(** A CSV cell that needs no quoting: no comma, no line feed, no double
    quote, no white space at either end. *)
Definition cleanCell (s : string) : Prop :=
  occurs "," s = false /\ occurs newline s = false /\ occurs dquote s = false
  /\ trim s = s.

(** A record that a CSV file with all seven columns can hold as it is:
    clean cells, a lowercase non-empty severity, both optional members
    present. *)
Definition cleanRecord (r : DrugInteractionData.t) : Prop :=
  cleanCell (DrugInteractionData.drug1 r)
  /\ cleanCell (DrugInteractionData.drug2 r)
  /\ cleanCell (DrugInteractionData.severity r)
  /\ cleanCell (DrugInteractionData.description r)
  /\ cleanCell (DrugInteractionData.recommendation r)
  /\ DrugInteractionData.severity r <> ""
  /\ toLowerCase (DrugInteractionData.severity r) = DrugInteractionData.severity r
  /\ exists m e,
       DrugInteractionData.mechanism r = Some m
       /\ DrugInteractionData.evidence_level r = Some e
       /\ cleanCell m /\ cleanCell e.

Definition csvFullHeader : string :=
  "drug1,drug2,severity,description,recommendation,mechanism,evidence_level".

(** The cells of a record, in the order of [csvFullHeader]. *)
Definition csvCells (r : DrugInteractionData.t) : list string :=
  [ DrugInteractionData.drug1 r; DrugInteractionData.drug2 r;
    DrugInteractionData.severity r; DrugInteractionData.description r;
    DrugInteractionData.recommendation r;
    default "" (DrugInteractionData.mechanism r);
    default "" (DrugInteractionData.evidence_level r) ].

(** The plain CSV text of a record list: the header line, then one line
    of comma-separated cells for each record. *)
Definition csvText (data : list DrugInteractionData.t) : string :=
  JsonText.join JsonText.nl
    (csvFullHeader :: map (fun r => JsonText.join "," (csvCells r)) data).

(** A decimal digit as a one-character string. *)
Definition digitString (d : N) : string :=
  String (ascii_of_nat (48 + N.to_nat d)) "".

(** * Properties *)

(** ** Strings *)

Section StringFacts.

Lemma append_nil_l (s : string) : "" +:+ s = s.
Proof. reflexivity. Qed.

Lemma append_cons (c : ascii) (s t : string) :
  String c s +:+ t = String c (s +:+ t).
Proof. reflexivity. Qed.

Lemma append_nil_r (s : string) : s +:+ "" = s.
Proof. induction s as [|c s IH]; [reflexivity|]. now rewrite append_cons, IH. Qed.

Lemma append_assoc (a b c : string) : (a +:+ b) +:+ c = a +:+ (b +:+ c).
Proof. induction a as [|x a IH]; [reflexivity|]. now rewrite !append_cons, IH. Qed.

Lemma prefix_app (p s : string) :
  String.prefix p s = true <-> exists post, s = p +:+ post.
Proof.
  revert s. induction p as [|a p IH]; intros s.
  - split; [intros _; now exists s | intros _; now destruct s].
  - destruct s as [|b s]; simpl.
    + split; [discriminate | intros [post H]; discriminate].
    + destruct (ascii_dec a b) as [->|Hne].
      * rewrite IH. split; intros [post H]; exists post;
          rewrite append_cons in *; congruence.
      * split; [discriminate | intros [post H]; rewrite append_cons in H; congruence].
Qed.

Lemma includes_unfold (s sub : string) :
  includes s sub =
    String.prefix sub s
    || match s with EmptyString => false | String _ s' => includes s' sub end.
Proof. destruct s; reflexivity. Qed.

(** [includes] decides containment. *)
Lemma includes_Contains (s sub : string) :
  includes s sub = true <-> Contains s sub.
Proof.
  split.
  - induction s as [|c s IH]; rewrite includes_unfold; intros H;
      apply orb_true_iff in H as [H|H]; try discriminate.
    + apply prefix_app in H as [post ->]. now exists "", post.
    + apply prefix_app in H as [post ->]. now exists "", post.
    + destruct (IH H) as (pre & post & ->). now exists (String c pre), post.
  - intros (pre & post & ->). induction pre as [|c pre IH]; rewrite includes_unfold.
    + apply orb_true_iff. left. apply prefix_app. now exists post.
    + apply orb_true_iff. right. exact IH.
Qed.

Lemma not_includes_Contains (s sub : string) :
  includes s sub = false -> ~ Contains s sub.
Proof. intros H HC. apply includes_Contains in HC. congruence. Qed.

Lemma includes_refl (s : string) : includes s s = true.
Proof.
  apply includes_Contains. exists "", "".
  now rewrite append_nil_l, append_nil_r.
Qed.

Lemma endsWith_unfold (s suffix : string) :
  endsWith s suffix =
    String.eqb s suffix
    || match s with EmptyString => false | String _ s' => endsWith s' suffix end.
Proof. destruct s; reflexivity. Qed.

Lemma endsWith_app (pre suffix : string) : endsWith (pre +:+ suffix) suffix = true.
Proof.
  induction pre as [|c pre IH]; rewrite endsWith_unfold.
  - now rewrite append_nil_l, String.eqb_refl.
  - rewrite append_cons, IH. apply orb_true_r.
Qed.

Lemma truthy_true (s : string) : truthy s = true <-> s <> "".
Proof.
  unfold truthy. rewrite negb_true_iff. split.
  - intros H ->. discriminate.
  - intros H. apply String.eqb_neq. exact H.
Qed.

Lemma occurs_removeAll (c : ascii) (s : string) : occurs c (removeAll c s) = false.
Proof.
  induction s as [|x s IH]; simpl; [reflexivity|].
  destruct (Ascii.eqb x c) eqn:E; simpl; [exact IH | now rewrite E].
Qed.

Lemma lowerChar_dquote (c : ascii) :
  Ascii.eqb (lowerChar c) dquote = Ascii.eqb c dquote.
Proof. destruct c as [[] [] [] [] [] [] [] []]; reflexivity. Qed.

Lemma occurs_toLowerCase (s : string) :
  occurs dquote (toLowerCase s) = occurs dquote s.
Proof.
  induction s as [|x s IH]; simpl; [reflexivity|].
  now rewrite lowerChar_dquote, IH.
Qed.

Lemma occurs_orElse (c : ascii) (a b : string) :
  occurs c a = false -> occurs c b = false -> occurs c (orElse a b) = false.
Proof. unfold orElse. now destruct (truthy a). Qed.

End StringFacts.

(** ** Loops that push onto an accumulator *)

Section Loops.

Context {A B : Type}.

(** A fold whose step appends to the accumulator is a [flat_map]. *)
Lemma foldl_push (step : list B -> A -> list B) (f : A -> list B) :
  (forall acc x, step acc x = acc ++ f x) ->
  forall l acc, foldl step acc l = acc ++ flat_map f l.
Proof.
  intros Hstep l. induction l as [|x l IH]; intros acc; simpl.
  - now rewrite app_nil_r.
  - rewrite IH, Hstep. now rewrite <- app_assoc.
Qed.

Lemma flat_map_eq (f g : A -> list B) (l : list A) :
  (forall x, f x = g x) -> flat_map f l = flat_map g l.
Proof. intros H. induction l; simpl; congruence. Qed.

(** Reading the elements of [l] by index from [a] on is walking
    [drop a l]. *)
Lemma flat_map_index_drop (f : A -> list B) (l : list A) (a : nat) :
  flat_map (fun j => match l !! j with Some x => f x | None => [] end)
    (seq a (length l - a))
  = flat_map f (drop a l).
Proof.
  revert a. induction l as [|x l IH]; intros a.
  - now destruct a.
  - destruct a as [|a].
    + specialize (IH 0). rewrite drop_0 in *. simpl.
      rewrite Nat.sub_0_r in IH. rewrite <- IH, <- seq_shift.
      f_equal. clear IH. induction (seq 0 (length l)); simpl; congruence.
    + simpl. rewrite <- IH, <- seq_shift. clear IH.
      induction (seq a (length l - a)); simpl; congruence.
Qed.

(** The outer loop by index is a walk along the list. *)
Lemma flat_map_index_tails (h : A -> list A -> list B) (walk : list A -> list B) :
  walk [] = [] ->
  (forall x rest, walk (x :: rest) = h x rest ++ walk rest) ->
  forall l,
    flat_map (fun i => match l !! i with Some x => h x (drop (i + 1) l) | None => [] end)
      (seq 0 (length l))
    = walk l.
Proof.
  intros Hnil Hcons l. induction l as [|x l IH]; [now rewrite Hnil|].
  rewrite Hcons. simpl. rewrite drop_0. f_equal. rewrite <- IH, <- seq_shift. clear IH.
  induction (seq 0 (length l)) as [|i rest IH']; simpl; [reflexivity|].
  now rewrite IH'.
Qed.

End Loops.

(** ** The matching engine *)

Section Engine.

Variable table : list DrugInteractionData.t.

Lemma pairStep_push (found : list InteractionResult.t) (di dj : DrugEntry.t) :
  pairStep table found di dj = found ++ pairFindings table di dj.
Proof.
  unfold pairFindings, pairStep.
  destruct (find _ table); [reflexivity | now rewrite app_nil_r].
Qed.

(** The double loop by index produces the findings entry by entry. *)
Lemma datasetInteractions_walk (drugs : list DrugEntry.t) :
  datasetInteractions drugs table = interactionsOf table drugs.
Proof.
  unfold datasetInteractions.
  rewrite (foldl_push _ (fun i =>
    match drugs !! i with
    | Some di => flat_map (pairFindings table di) (drop (i + 1) drugs)
    | None => []
    end)).
  - rewrite app_nil_l.
    now apply (flat_map_index_tails (fun d rest => flat_map (pairFindings table d) rest)).
  - intros acc i. destruct (drugs !! i) as [di|] eqn:Hi.
    + rewrite <- flat_map_index_drop. apply foldl_push.
      intros found j. destruct (drugs !! j); [apply pairStep_push | now rewrite app_nil_r].
    + rewrite app_nil_r. generalize (seq (i + 1) (length drugs - (i + 1))).
      intros l. induction l; simpl; congruence.
Qed.

Lemma in_pairFindings (f : InteractionResult.t) (di dj : DrugEntry.t) :
  In f (pairFindings table di dj) <->
  exists r, matchedRecord table di dj = Some r /\ f = findingOf di dj r.
Proof.
  unfold pairFindings, pairStep, matchedRecord.
  destruct (find _ table) as [r|]; simpl.
  - split; [intros [<-|[]]; now exists r | intros (r' & [= <-] & ->); now left].
  - split; [intros [] | intros (r' & [=] & _)].
Qed.

Lemma in_interactionsOf (f : InteractionResult.t) (drugs : list DrugEntry.t) :
  In f (interactionsOf table drugs) <->
  exists i j di dj, i < j /\ drugs !! i = Some di /\ drugs !! j = Some dj
                    /\ In f (pairFindings table di dj).
Proof.
  induction drugs as [|d rest IH]; simpl.
  - split; [intros [] | intros (i & j & di & dj & _ & H & _); discriminate].
  - rewrite in_app_iff, in_flat_map, IH. split.
    + intros [(dj & Hdj & Hf) | (i & j & di & dj & Hlt & Hi & Hj & Hf)].
      * apply list_elem_of_In, list_elem_of_lookup in Hdj as [j Hj].
        exists 0, (S j), d, dj. repeat split; [lia | assumption..].
      * exists (S i), (S j), di, dj. repeat split; [lia | assumption..].
    + intros (i & j & di & dj & Hlt & Hi & Hj & Hf).
      destruct j as [|j]; [lia|]. destruct i as [|i].
      * left. injection Hi as <-. exists dj. split; [|assumption].
        apply list_elem_of_In, list_elem_of_lookup. now exists j.
      * right. exists i, j, di, dj. repeat split; [lia | assumption..].
Qed.

End Engine.

(** The third and fourth disjuncts of the predicate (exact equality) are
    cases of the first two: the predicate is the containment rule. *)
Lemma matchesItem_rule (item : DrugInteractionData.t) (nameA nameB : string) :
  matchesItem (toLowerCase nameA) (toLowerCase nameB) item = true
  <-> containmentRule item nameA nameB.
Proof.
  unfold matchesItem, containmentRule. cbv zeta.
  rewrite !orb_true_iff, !andb_true_iff, !includes_Contains, !String.eqb_eq.
  split.
  - intros [[[H|H]|[H1 H2]]|[H1 H2]]; [now left | now right | left | right];
      rewrite H1, H2; split; apply includes_Contains, includes_refl.
  - intros [H|H]; [left; left; now left | left; left; now right].
Qed.

Lemma matchesItem_sym (a b : string) (item : DrugInteractionData.t) :
  matchesItem a b item = matchesItem b a item.
Proof.
  unfold matchesItem. cbv zeta.
  destruct (includes _ a), (includes _ b), (includes _ a), (includes _ b),
    (String.eqb _ a), (String.eqb _ b), (String.eqb _ a), (String.eqb _ b);
    reflexivity.
Qed.

Lemma find_ext {A : Type} (p q : A -> bool) (l : list A) :
  (forall x, p x = q x) -> find p l = find q l.
Proof. intros H. induction l as [|x l IH]; simpl; [reflexivity|]. now rewrite H, IH. Qed.

(** [find] returns the first element, in list order, that passes. *)
Lemma find_first {A : Type} (p : A -> bool) (l : list A) (r : A) :
  find p l = Some r <->
  exists pre post, l = pre ++ r :: post /\ p r = true /\ forall x, In x pre -> p x = false.
Proof.
  induction l as [|x l IH]; simpl.
  - split; [discriminate | intros (pre & post & H & _); now destruct pre].
  - destruct (p x) eqn:Hx.
    + split.
      * intros [= <-]. exists [], l. repeat split; [assumption | intros ? []].
      * intros (pre & post & H & Hr & Hpre). destruct pre as [|y pre].
        -- injection H as -> _. reflexivity.
        -- injection H as <- _. rewrite Hpre in Hx; [discriminate | now left].
    + rewrite IH. split.
      * intros (pre & post & -> & Hr & Hpre). exists (x :: pre), post.
        repeat split; [assumption|]. intros y [<-|Hy]; auto.
      * intros (pre & post & H & Hr & Hpre). destruct pre as [|y pre].
        -- injection H as -> _. congruence.
        -- injection H as <- ->. exists pre, post. repeat split; [assumption|].
           intros z Hz. apply Hpre. now right.
Qed.

Lemma find_is_Some {A : Type} (p : A -> bool) (l : list A) :
  (exists r, find p l = Some r) <-> exists r, In r l /\ p r = true.
Proof.
  split.
  - intros [r H]. exists r. now apply find_some in H.
  - intros (r & Hin & Hr). destruct (find p l) as [r'|] eqn:E; [now exists r'|].
    rewrite (find_none _ _ E r Hin) in Hr. discriminate.
Qed.

(** With a dataset in place the findings are those of the double loop. *)
Lemma analyzeInteractions_dataset (drugs : list DrugEntry.t) (patientAllergies : string)
    (table : list DrugInteractionData.t) :
  table <> [] ->
  fst (analyzeInteractions drugs patientAllergies (Some table)) = interactionsOf table drugs.
Proof.
  intros Hne. unfold analyzeInteractions. cbn [fst].
  destruct table as [|r table]; [congruence|]. cbn [length Nat.ltb Nat.leb].
  apply datasetInteractions_walk.
Qed.

(** *** Interaction findings against an uploaded table *)

(** A fold over outcomes whose step returns whenever its accumulator
    did is a fold over the values returned. *)
Lemma foldl_returned {A B : Type} (step : Outcome B -> A -> Outcome B) (pure : B -> A -> B) :
  (forall acc x, step (Returned acc) x = Returned (pure acc x)) ->
  forall l acc, foldl step (Returned acc) l = Returned (foldl pure acc l).
Proof.
  intros Hstep l. induction l as [|x l IH]; intros acc; simpl; [reflexivity|].
  now rewrite Hstep, IH.
Qed.

Lemma hasStringNames_object (item : JsValue) :
  hasStringNames item = true -> exists members, item = JObject members.
Proof. destruct item; try discriminate. intros _. now eexists. Qed.

(** On a stored value whose drug names are strings the predicate of
    the engine returns, and returns what [namesMatch] computes. *)
Lemma matchesItem_names (drug1 drug2 : string) (item : JsValue) :
  hasStringNames item = true ->
  Untyped.matchesItem drug1 drug2 item = Returned (namesMatch drug1 drug2 item).
Proof.
  intros H. destruct (hasStringNames_object item H) as [members ->].
  unfold hasStringNames, namesMatch, Untyped.matchesItem, stringMember in *.
  cbn [Json.property Json.lowerCased] in *.
  destruct (Json.lookupMember "drug1" members) as [[| | |d1| |]|]; try discriminate H.
  destruct (Json.lookupMember "drug2" members) as [[| | |d2| |]|]; try discriminate H.
  cbn [Untyped.test].
  destruct (includes (toLowerCase d1) drug1), (includes (toLowerCase d2) drug2),
    (includes (toLowerCase d1) drug2), (includes (toLowerCase d2) drug1),
    (String.eqb (toLowerCase d1) drug1), (String.eqb (toLowerCase d2) drug2),
    (String.eqb (toLowerCase d1) drug2), (String.eqb (toLowerCase d2) drug1);
    reflexivity.
Qed.

Lemma find_names (drug1 drug2 : string) (items : list JsValue) :
  forallb hasStringNames items = true ->
  Untyped.find (Untyped.matchesItem drug1 drug2) items
  = Returned (find (namesMatch drug1 drug2) items).
Proof.
  induction items as [|item items IH]; [reflexivity|].
  cbn [forallb]. intros [Hitem Hitems]%andb_true_iff.
  cbn [Untyped.find find]. rewrite matchesItem_names by assumption.
  destruct (namesMatch drug1 drug2 item); [reflexivity | now apply IH].
Qed.

(** The containment rule is what the predicate computes. *)
Lemma namesMatch_rule (item : JsValue) (nameA nameB : string) :
  namesMatch (toLowerCase nameA) (toLowerCase nameB) item = true
  <-> storedContainmentRule item nameA nameB.
Proof.
  unfold namesMatch, storedContainmentRule.
  destruct (stringMember item "drug1") as [d1|];
    [|split; [discriminate | intros (? & ? & [=] & _)]].
  destruct (stringMember item "drug2") as [d2|];
    [|split; [discriminate | intros (? & ? & _ & [=] & _)]].
  rewrite !orb_true_iff, !andb_true_iff, !includes_Contains, !String.eqb_eq.
  split.
  - intros H. exists d1, d2. split; [reflexivity|]. split; [reflexivity|].
    destruct H as [[[H|H]|[H1 H2]]|[H1 H2]]; [now left | now right | left | right];
      rewrite H1, H2; split; apply includes_Contains, includes_refl.
  - intros (e1 & e2 & [= <-] & [= <-] & [H|H]); [left; left; now left | left; left; now right].
Qed.

Section UntypedEngine.

Variable table : list JsValue.

Hypothesis table_names : forallb hasStringNames table = true.

Lemma pairStep_names (found : list RawResult.t) (di dj : DrugEntry.t) :
  Untyped.pairStep table found di dj = Returned (found ++ storedPairFindings table di dj).
Proof.
  unfold Untyped.pairStep, storedPairFindings. cbv zeta.
  rewrite find_names by exact table_names. cbn [bind].
  destruct (find _ table) as [item|] eqn:E; [|now rewrite app_nil_r].
  apply find_some in E as [Hin _].
  assert (H : hasStringNames item = true).
  { pose proof table_names as Hall. rewrite forallb_forall in Hall. now apply Hall. }
  destruct (hasStringNames_object item H) as [members ->]. reflexivity.
Qed.

(** The double loop returns, with the findings entry by entry. *)
Lemma datasetInteractions_names (drugs : list DrugEntry.t) :
  Untyped.datasetInteractions drugs table = Returned (storedInteractionsOf table drugs).
Proof.
  unfold Untyped.datasetInteractions.
  rewrite (foldl_returned _ (fun found i =>
    foldl (fun found j =>
      match drugs !! i, drugs !! j with
      | Some di, Some dj => found ++ storedPairFindings table di dj
      | _, _ => found
      end) found (seq (i + 1) (length drugs - (i + 1))))).
  - f_equal.
    rewrite (foldl_push _ (fun i =>
      match drugs !! i with
      | Some di => flat_map (storedPairFindings table di) (drop (i + 1) drugs)
      | None => []
      end)).
    + rewrite app_nil_l.
      now apply (flat_map_index_tails (fun d rest => flat_map (storedPairFindings table d) rest)).
    + intros acc i. destruct (drugs !! i) as [di|] eqn:Hi.
      * rewrite <- flat_map_index_drop. apply foldl_push.
        intros found j. destruct (drugs !! j); [reflexivity | now rewrite app_nil_r].
      * rewrite app_nil_r. generalize (seq (i + 1) (length drugs - (i + 1))).
        intros l. induction l; simpl; congruence.
  - intros acc i. apply foldl_returned. intros found j. cbn [bind].
    destruct (drugs !! i), (drugs !! j); try reflexivity. apply pairStep_names.
Qed.

Lemma in_storedPairFindings (f : RawResult.t) (di dj : DrugEntry.t) :
  In f (storedPairFindings table di dj) <->
  exists item,
    find (namesMatch (toLowerCase (DrugEntry.name di)) (toLowerCase (DrugEntry.name dj)))
      table = Some item
    /\ f = storedFinding di dj item.
Proof.
  unfold storedPairFindings.
  destruct (find _ table) as [item|]; simpl.
  - split; [intros [<-|[]]; now exists item | intros (item' & [= <-] & ->); now left].
  - split; [intros [] | intros (item' & [=] & _)].
Qed.

Lemma in_storedInteractionsOf (f : RawResult.t) (drugs : list DrugEntry.t) :
  In f (storedInteractionsOf table drugs) <->
  exists i j di dj, i < j /\ drugs !! i = Some di /\ drugs !! j = Some dj
                    /\ In f (storedPairFindings table di dj).
Proof.
  induction drugs as [|d rest IH]; simpl.
  - split; [intros [] | intros (i & j & di & dj & _ & H & _); discriminate].
  - rewrite in_app_iff, in_flat_map, IH. split.
    + intros [(dj & Hdj & Hf) | (i & j & di & dj & Hlt & Hi & Hj & Hf)].
      * apply list_elem_of_In, list_elem_of_lookup in Hdj as [j Hj].
        exists 0, (S j), d, dj. repeat split; [lia | assumption..].
      * exists (S i), (S j), di, dj. repeat split; [lia | assumption..].
    + intros (i & j & di & dj & Hlt & Hi & Hj & Hf).
      destruct j as [|j]; [lia|]. destruct i as [|i].
      * left. injection Hi as <-. exists dj. split; [|assumption].
        apply list_elem_of_In, list_elem_of_lookup. now exists j.
      * right. exists i, j, di, dj. repeat split; [lia | assumption..].
Qed.

(** With such a table in place the analysis returns, and its findings
    are those of the double loop. *)
Lemma analyzeInteractions_names (drugs : list DrugEntry.t) (patientAllergies : string) :
  table <> [] ->
  exists alerts,
    Untyped.analyzeInteractions drugs patientAllergies (Some table)
    = Returned (storedInteractionsOf table drugs, alerts).
Proof.
  intros Hne. unfold Untyped.analyzeInteractions. cbv zeta.
  assert (Hlen : (0 <? length table)%nat = true).
  { clear table_names. destruct table; [congruence | reflexivity]. }
  rewrite Hlen, datasetInteractions_names. cbn [bind]. now eexists.
Qed.

End UntypedEngine.

(** The findings for two entries against a table whose records have
    strings for their drug names. *)
Lemma stored_finding_iff_containment
    (drugs : list DrugEntry.t) (patientAllergies : string)
    (table : list JsValue) (i j : nat) (A B : DrugEntry.t) :
  table <> [] -> forallb hasStringNames table = true ->
  i < j -> drugs !! i = Some A -> drugs !! j = Some B ->
  exists found alerts,
    Untyped.analyzeInteractions drugs patientAllergies (Some table)
    = Returned (found, alerts)
    /\ ((exists f, In f found
                   /\ RawResult.drugs f = [DrugEntry.name A; DrugEntry.name B])
        <-> (exists item, In item table
                          /\ storedContainmentRule item (DrugEntry.name A) (DrugEntry.name B))).
Proof.
  intros Hne Hnames Hlt Hi Hj.
  destruct (analyzeInteractions_names table Hnames drugs patientAllergies Hne)
    as [alerts Hrun].
  exists (storedInteractionsOf table drugs), alerts. split; [exact Hrun|]. split.
  - intros (f & Hin & Hd).
    apply in_storedInteractionsOf in Hin as (i' & j' & di & dj & _ & _ & _ & Hf).
    apply in_storedPairFindings in Hf as (item & Hm & ->).
    injection Hd as Hdi Hdj. rewrite Hdi, Hdj in Hm.
    apply find_some in Hm as [Hin Hp]. exists item. split; [assumption|].
    now apply namesMatch_rule.
  - intros (item & Hin & Hrule). apply namesMatch_rule in Hrule.
    destruct (proj2 (find_is_Some _ table) (ex_intro _ item (conj Hin Hrule))) as [item' Hr'].
    exists (storedFinding A B item'). split; [|reflexivity].
    apply in_storedInteractionsOf. exists i, j, A, B. repeat split; try assumption.
    apply in_storedPairFindings. now exists item'.
Qed.

(** C1, as the specification words it, fails on a table the manager can
    hold: an uploaded JSON file is stored as parsed, and the file
    [flags.json] yields a table whose first record has the boolean true
    for [drug1] (it passes the filter) and whose second record is Aspirin
    with Warfarin. The second record satisfies the containment rule for
    the entries Aspirin and Warfarin, yet no finding is reported: reading
    the first record, [item.drug1.toLowerCase()] throws and the analysis
    ends without a result. *)
Lemma C1_ill_typed_record_counterexample :
  (exists d, Untyped.ingest booleanNameJson "1700000000000" "2023-11-14" = inl d
             /\ RawDataset.data d = booleanNameTable)
  /\ Untyped.analyzeInteractions [aspirinEntry; warfarinEntry] "" (Some booleanNameTable)
     = Thrown
  /\ (exists item, In item booleanNameTable
                   /\ storedContainmentRule item "Aspirin" "Warfarin").
Proof.
  split; [eexists; split; vm_compute; reflexivity|].
  split; [vm_compute; reflexivity|].
  eexists. split; [right; left; reflexivity|].
  exists "Aspirin", "Warfarin". split; [reflexivity|]. split; [reflexivity|].
  left. split; apply includes_Contains; reflexivity.
Qed.

(** C1 (amended): with an uploaded table active whose records all have
    strings for [drug1] and [drug2], as the declared record type has
    them, the analysis returns, and it reports a finding for the entries
    A and B (A entered before B) if and only if some record of the table
    satisfies the containment rule: the record's drug names, lowercased,
    contain the lowercased names of A and B, in either assignment. Exact
    equality is a case of containment. *)
Theorem C1_finding_iff_containment
    (drugs : list DrugEntry.t) (patientAllergies : string)
    (table : list JsValue) (i j : nat) (A B : DrugEntry.t) :
  table <> [] -> forallb hasStringNames table = true ->
  i < j -> drugs !! i = Some A -> drugs !! j = Some B ->
  exists found alerts,
    Untyped.analyzeInteractions drugs patientAllergies (Some table)
    = Returned (found, alerts)
    /\ ((exists f, In f found
                   /\ RawResult.drugs f = [DrugEntry.name A; DrugEntry.name B])
        <-> (exists item, In item table
                          /\ storedContainmentRule item (DrugEntry.name A) (DrugEntry.name B))).
Proof. apply stored_finding_iff_containment. Qed.

Lemma C1_finding_iff_containment_witness :
  exists found alerts,
    Untyped.analyzeInteractions [aspirinEntry; warfarinEntry] "" (Some scenarioValues)
    = Returned (found, alerts)
    /\ ((exists f, In f found /\ RawResult.drugs f = ["Aspirin"; "Warfarin"])
        <-> (exists item, In item scenarioValues
                          /\ storedContainmentRule item "Aspirin" "Warfarin")).
Proof.
  apply (C1_finding_iff_containment [aspirinEntry; warfarinEntry] "" scenarioValues
           0 1 aspirinEntry warfarinEntry);
    [discriminate | reflexivity | lia | reflexivity | reflexivity].
Defined.

(** On a table of the declared record type, as the typed engine takes
    it: a finding for the entries A and B is reported if and only if some
    record satisfies the containment rule. *)
Lemma typed_finding_iff_containment
    (drugs : list DrugEntry.t) (patientAllergies : string)
    (table : list DrugInteractionData.t) (i j : nat) (A B : DrugEntry.t) :
  table <> [] -> i < j -> drugs !! i = Some A -> drugs !! j = Some B ->
  (exists f,
      In f (fst (analyzeInteractions drugs patientAllergies (Some table)))
      /\ InteractionResult.drugs f = [DrugEntry.name A; DrugEntry.name B])
  <-> (exists r, In r table /\ containmentRule r (DrugEntry.name A) (DrugEntry.name B)).
Proof.
  intros Hne Hlt Hi Hj. rewrite analyzeInteractions_dataset by assumption. split.
  - intros (f & Hin & Hd).
    apply in_interactionsOf in Hin as (i' & j' & di & dj & _ & _ & _ & Hf).
    apply in_pairFindings in Hf as (r & Hm & ->).
    injection Hd as Hdi Hdj. unfold matchedRecord in Hm. rewrite Hdi, Hdj in Hm.
    apply find_some in Hm as [Hin Hp]. exists r. split; [assumption|].
    now apply matchesItem_rule.
  - intros (r & Hin & Hrule). apply matchesItem_rule in Hrule.
    destruct (proj2 (find_is_Some _ table) (ex_intro _ r (conj Hin Hrule))) as [r' Hr'].
    exists (findingOf A B r'). split; [|reflexivity].
    apply in_interactionsOf. exists i, j, A, B. repeat split; try assumption.
    apply in_pairFindings. now exists r'.
Qed.

(** C2: with no dataset active (the dashboard holds null, or an empty
    list), the interaction findings are the two built-in samples, whatever
    medications were entered. *)
Theorem C2_no_dataset_returns_samples
    (drugs : list DrugEntry.t) (patientAllergies : string) :
  fst (analyzeInteractions drugs patientAllergies None)
  = [ InteractionResult.mk "severe" ["Warfarin"; "Aspirin"]
        "Increased risk of bleeding when used together"
        "Consider alternative antiplatelet therapy or adjust warfarin dosing with frequent monitoring";
      InteractionResult.mk "moderate" ["Metformin"; "Contrast Agent"]
        "Risk of lactic acidosis with contrast procedures"
        "Discontinue metformin 48 hours before and after contrast administration" ]
  /\ fst (analyzeInteractions drugs patientAllergies (Some []))
     = fst (analyzeInteractions drugs patientAllergies None).
Proof. split; reflexivity. Qed.

(** C5: for two entries A and B (A entered before B) and an uploaded
    table whose first record, in table order, satisfying the containment
    rule (on lowercased names, as the engine applies it) is [r], the
    engine uses [r]: the finding with the severity,
    description and recommendation of [r] and the names of A and B in
    entry order is reported, and every finding reported for these two
    names carries the data of [r]. *)
Theorem C5_first_match_preserved
    (drugs : list DrugEntry.t) (patientAllergies : string)
    (pre post : list DrugInteractionData.t) (r : DrugInteractionData.t)
    (i j : nat) (A B : DrugEntry.t) :
  i < j -> drugs !! i = Some A -> drugs !! j = Some B ->
  containmentRule r (DrugEntry.name A) (DrugEntry.name B) ->
  (forall x, In x pre -> ~ containmentRule x (DrugEntry.name A) (DrugEntry.name B)) ->
  let out := fst (analyzeInteractions drugs patientAllergies (Some (pre ++ r :: post))) in
  matchedRecord (pre ++ r :: post) A B = Some r
  /\ In (InteractionResult.mk (DrugInteractionData.severity r)
           [DrugEntry.name A; DrugEntry.name B]
           (DrugInteractionData.description r)
           (DrugInteractionData.recommendation r)) out
  /\ (forall f, In f out ->
        InteractionResult.drugs f = [DrugEntry.name A; DrugEntry.name B] ->
        InteractionResult.severity f = DrugInteractionData.severity r
        /\ InteractionResult.description f = DrugInteractionData.description r
        /\ InteractionResult.recommendation f = DrugInteractionData.recommendation r).
Proof.
  intros Hlt Hi Hj Hr Hpre out.
  assert (Hm : matchedRecord (pre ++ r :: post) A B = Some r).
  { apply find_first. exists pre, post. repeat split.
    - now apply matchesItem_rule.
    - intros x Hx. specialize (Hpre x Hx).
      destruct (matchesItem _ _ x) eqn:E; [|reflexivity].
      apply matchesItem_rule in E. contradiction. }
  assert (Hout : out = interactionsOf (pre ++ r :: post) drugs).
  { apply analyzeInteractions_dataset. now destruct pre. }
  split; [exact Hm|]. rewrite Hout. split.
  - apply in_interactionsOf. exists i, j, A, B. repeat split; try assumption.
    apply in_pairFindings. now exists r.
  - intros f Hin Hd.
    apply in_interactionsOf in Hin as (i' & j' & di & dj & _ & _ & _ & Hf).
    apply in_pairFindings in Hf as (r' & Hm' & ->).
    injection Hd as Hdi Hdj. unfold matchedRecord in Hm, Hm'.
    rewrite Hdi, Hdj, Hm in Hm'. injection Hm' as <-. now repeat split.
Qed.

Lemma C5_first_match_preserved_witness :
  matchedRecord rankedTable aspirinEntry warfarinEntry
  = Some (DrugInteractionData.mk "ASPIRIN" "WARFARIN sodium" "mild" "first match"
            "monitor" None None)
  /\ In (InteractionResult.mk "mild" ["Aspirin"; "Warfarin"] "first match" "monitor")
        (fst (analyzeInteractions [aspirinEntry; warfarinEntry] "" (Some rankedTable)))
  /\ (forall f,
        In f (fst (analyzeInteractions [aspirinEntry; warfarinEntry] "" (Some rankedTable))) ->
        InteractionResult.drugs f = ["Aspirin"; "Warfarin"] ->
        InteractionResult.severity f = "mild"
        /\ InteractionResult.description f = "first match"
        /\ InteractionResult.recommendation f = "monitor").
Proof.
  apply (C5_first_match_preserved [aspirinEntry; warfarinEntry] ""
           [DrugInteractionData.mk "Metformin" "Contrast Agent" "moderate" "lactic acidosis"
              "pause metformin" None None]
           [DrugInteractionData.mk "warfarin" "aspirin" "severe" "second match"
              "avoid" None None]
           (DrugInteractionData.mk "ASPIRIN" "WARFARIN sodium" "mild" "first match"
              "monitor" None None)
           0 1 aspirinEntry warfarinEntry).
  - lia.
  - reflexivity.
  - reflexivity.
  - apply matchesItem_rule. vm_compute. reflexivity.
  - intros x [<-|[]] H. apply matchesItem_rule in H. vm_compute in H. discriminate.
Defined.

(** *** Symmetry of the matching *)

Section Symmetry.

Variable table : list DrugInteractionData.t.

Lemma matchedRecord_sym (A B : DrugEntry.t) :
  matchedRecord table A B = matchedRecord table B A.
Proof. apply find_ext. intros x. apply matchesItem_sym. Qed.

Lemma sameFinding_refl (f : InteractionResult.t) : sameFinding f f.
Proof. repeat split. now left. Qed.

Lemma sameFinding_trans (f g h : InteractionResult.t) :
  sameFinding f g -> sameFinding g h -> sameFinding f h.
Proof.
  intros (S1 & D1 & R1 & N1) (S2 & D2 & R2 & N2).
  repeat split; try congruence.
  destruct N1 as [N1|N1], N2 as [N2|N2]; rewrite N1, N2;
    [now left | now right | now right | left; apply rev_involutive].
Qed.

Lemma Forall2_sameFinding_refl (l : list InteractionResult.t) :
  Forall2 sameFinding l l.
Proof. induction l; constructor; [apply sameFinding_refl | assumption]. Qed.

Lemma Forall2_sameFinding_trans (l k m : list InteractionResult.t) :
  Forall2 sameFinding l k -> Forall2 sameFinding k m -> Forall2 sameFinding l m.
Proof.
  intros H. revert m. induction H as [|x y l k Hxy _ IH]; intros m Hm.
  - inversion Hm. constructor.
  - inversion Hm as [|? z ? m' Hyz Hkm]; subst. constructor.
    + eapply sameFinding_trans; eassumption.
    + now apply IH.
Qed.

Lemma sameFindings_perm (l k : list InteractionResult.t) :
  Permutation l k -> sameFindings l k.
Proof. intros H. exists k. split; [assumption | apply Forall2_sameFinding_refl]. Qed.

Lemma sameFindings_Forall2 (l k : list InteractionResult.t) :
  Forall2 sameFinding l k -> sameFindings l k.
Proof. intros H. exists l. split; [reflexivity | assumption]. Qed.

Lemma sameFindings_app (l l' k k' : list InteractionResult.t) :
  sameFindings l l' -> sameFindings k k' -> sameFindings (l ++ k) (l' ++ k').
Proof.
  intros (m1 & P1 & F1) (m2 & P2 & F2). exists (m1 ++ m2). split.
  - now apply Permutation_app.
  - now apply Forall2_app.
Qed.

Lemma sameFindings_trans (l k m : list InteractionResult.t) :
  sameFindings l k -> sameFindings k m -> sameFindings l m.
Proof.
  intros (m1 & P1 & F1) (m2 & P2 & F2).
  apply Forall2_flip in F1.
  destruct (Permutation_Forall2 P2 F1) as (m1' & P1' & F1').
  apply Forall2_flip in F1'. exists m1'. split.
  - now transitivity m1.
  - eapply Forall2_sameFinding_trans; eassumption.
Qed.

Lemma pairFindings_swap (A B : DrugEntry.t) :
  Forall2 sameFinding (pairFindings table B A) (pairFindings table A B).
Proof.
  unfold pairFindings, pairStep.
  fold (matchedRecord table B A). fold (matchedRecord table A B).
  rewrite (matchedRecord_sym B A).
  destruct (matchedRecord table A B); [|constructor].
  rewrite !app_nil_l. constructor; [|constructor].
  unfold sameFinding, findingOf. cbn. repeat split. now right.
Qed.

(** Reordering the medication list leaves the findings the same, up to
    their order and the order of the two names in each. *)
Lemma interactionsOf_perm (drugs drugs' : list DrugEntry.t) :
  Permutation drugs drugs' ->
  sameFindings (interactionsOf table drugs) (interactionsOf table drugs').
Proof.
  induction 1 as [|x l l' Hp IH|x y l|l l' l'' _ IH1 _ IH2].
  - apply sameFindings_perm. constructor.
  - simpl. apply sameFindings_app; [|assumption].
    apply sameFindings_perm. now apply Permutation_flat_map.
  - cbn [interactionsOf flat_map].
    eapply sameFindings_trans.
    + apply sameFindings_perm.
      instantiate (1 := pairFindings table y x
                        ++ (flat_map (pairFindings table x) l
                            ++ (flat_map (pairFindings table y) l
                                ++ interactionsOf table l))).
      rewrite <- !app_assoc. apply Permutation_app_head.
      rewrite !app_assoc. apply Permutation_app_tail. apply Permutation_app_comm.
    + rewrite <- !app_assoc. apply sameFindings_app.
      * apply sameFindings_Forall2, pairFindings_swap.
      * apply sameFindings_perm. reflexivity.
  - eapply sameFindings_trans; eassumption.
Qed.

End Symmetry.

(** C8: matching is symmetric. The record matched for two entries does
    not depend on which of them comes first, and exchanging two entries
    of the medication list leaves the reported findings the same, record
    for record (severity, description, recommendation), up to the order
    of the findings and the order of the two displayed names. *)
Theorem C8_swap_same_records
    (drugs : list DrugEntry.t) (patientAllergies : string)
    (activeDataset : option (list DrugInteractionData.t)) (p q : nat) :
  (forall table A B, matchedRecord table A B = matchedRecord table B A)
  /\ sameFindings
       (fst (analyzeInteractions (swapEntries p q drugs) patientAllergies activeDataset))
       (fst (analyzeInteractions drugs patientAllergies activeDataset)).
Proof.
  split; [intros table A B; apply matchedRecord_sym|].
  destruct activeDataset as [[|r table]|];
    try (apply sameFindings_perm; reflexivity).
  rewrite !analyzeInteractions_dataset by discriminate.
  apply interactionsOf_perm. unfold swapEntries.
  destruct (drugs !! p) as [a|] eqn:Hp; [|reflexivity].
  destruct (drugs !! q) as [b|] eqn:Hq; [|reflexivity].
  now apply Permutation_insert_swap.
Qed.

(** ** Allergy findings *)

Lemma checkAllergies_flat (drugs : list DrugEntry.t) (allergies : list string) :
  checkAllergies drugs allergies
  = flat_map (fun drug => flat_map (pairAlerts drug) allergies) drugs.
Proof.
  unfold checkAllergies. rewrite (foldl_push _ (fun drug => flat_map (pairAlerts drug) allergies)).
  - apply app_nil_l.
  - intros acc drug. apply foldl_push. clear acc. intros acc allergy.
    unfold pairAlerts. rewrite app_assoc.
    rewrite (foldl_push _ (fun '(allergen, info) =>
               if classMatch drug allergy allergen info
               then [classAlert drug allergy allergen info] else [])).
    + f_equal. destruct (directMatch drug allergy); [reflexivity | now rewrite app_nil_r].
    + intros found [allergen info].
      destruct (classMatch drug allergy allergen info); [reflexivity | now rewrite app_nil_r].
Qed.

Lemma in_checkAllergies (a : AllergyAlert.t) (drugs : list DrugEntry.t)
    (allergies : list string) :
  In a (checkAllergies drugs allergies) <->
  exists drug allergy, In drug drugs /\ In allergy allergies /\ In a (pairAlerts drug allergy).
Proof.
  rewrite checkAllergies_flat, in_flat_map. split.
  - intros (drug & Hd & H). apply in_flat_map in H as (allergy & Ha & H).
    now exists drug, allergy.
  - intros (drug & allergy & Hd & Ha & H). exists drug. split; [assumption|].
    apply in_flat_map. now exists allergy.
Qed.

(** C4, as the specification words it, fails: the medication name is
    lowercased but not trimmed. "Amoxicillin " (typed with a space after
    it) is, once trimmed, contained in the allergy term
    "Amoxicillin/Clavulanate", and no finding at all is reported. *)
Lemma C4_untrimmed_name_counterexample :
  Contains (trim (toLowerCase "Amoxicillin/Clavulanate"))
           (trim (toLowerCase (DrugEntry.name amoxicillinSpaceEntry)))
  /\ checkAllergies [amoxicillinSpaceEntry] ["Amoxicillin/Clavulanate"] = [].
Proof.
  split; [|reflexivity]. exists "", "/clavulanate". reflexivity.
Qed.

(** C4 (amended): for a medication entry and an allergy term, with the
    allergy term lowercased and trimmed and the medication name lowercased
    (and not trimmed), if the name contains the term or the term contains
    the name, [checkAllergies] reports for that pair a finding with
    severity severe and the recommendation "AVOID <drug> - Patient is
    allergic to <allergy term>". *)
Theorem C4_direct_match_alert
    (drugs : list DrugEntry.t) (allergies : list string)
    (drug : DrugEntry.t) (allergy : string) :
  In drug drugs -> In allergy allergies ->
  Contains (toLowerCase (DrugEntry.name drug)) (trim (toLowerCase allergy))
  \/ Contains (trim (toLowerCase allergy)) (toLowerCase (DrugEntry.name drug)) ->
  In (AllergyAlert.mk (DrugEntry.name drug) allergy "severe" "Allergic reaction possible"
        ("AVOID " +:+ DrugEntry.name drug +:+ " - Patient is allergic to " +:+ allergy))
     (checkAllergies drugs allergies).
Proof.
  intros Hd Ha Hc. apply in_checkAllergies. exists drug, allergy.
  repeat split; try assumption. unfold pairAlerts. apply in_or_app. left.
  assert (Hm : directMatch drug allergy = true).
  { unfold directMatch. cbv zeta. apply orb_true_iff.
    destruct Hc as [H|H]; [left | right]; now apply includes_Contains. }
  rewrite Hm. now left.
Qed.

Lemma C4_direct_match_alert_witness :
  In (AllergyAlert.mk "Amoxicillin" " Amoxicillin/Clavulanate " "severe"
        "Allergic reaction possible"
        "AVOID Amoxicillin - Patient is allergic to  Amoxicillin/Clavulanate ")
     (checkAllergies [aspirinEntry; amoxicillinEntry]
        ["latex"; " Amoxicillin/Clavulanate "]).
Proof.
  apply (C4_direct_match_alert [aspirinEntry; amoxicillinEntry]
           ["latex"; " Amoxicillin/Clavulanate "] amoxicillinEntry
           " Amoxicillin/Clavulanate ").
  - right. left. reflexivity.
  - right. left. reflexivity.
  - right. apply includes_Contains. vm_compute. reflexivity.
Defined.

(** C9, as the specification words it, fails at its example: for the
    medication "Amoxicillin" and the allergy term "amoxicillin" the class
    rule does not fire (the term does not contain the class key
    "penicillin"), and the severe AVOID finding is the only one. *)
Lemma C9_amoxicillin_counterexample :
  checkAllergies [amoxicillinEntry] ["amoxicillin"]
  = [ AllergyAlert.mk "Amoxicillin" "amoxicillin" "severe" "Allergic reaction possible"
        "AVOID Amoxicillin - Patient is allergic to amoxicillin" ]
  /\ forall allergen info, In (allergen, info) commonAllergicReactions ->
       classMatch amoxicillinEntry "amoxicillin" allergen info = false.
Proof.
  split; [reflexivity|].
  intros allergen info H. simpl in H.
  repeat (destruct H as [[= <- <-]|H]; [reflexivity|]). destruct H.
Qed.

(** C9 (amended): for some pair both rules fire and both findings are
    returned, without deduplication: the medication "Penicillin" with the
    allergy term "penicillin" produces the severe AVOID finding followed
    by the CONTRAINDICATED finding of the penicillin class. *)
Theorem C9_both_rules_fire :
  directMatch penicillinEntry "penicillin" = true
  /\ (exists info, In ("penicillin", info) commonAllergicReactions
                   /\ classMatch penicillinEntry "penicillin" "penicillin" info = true)
  /\ checkAllergies [penicillinEntry] ["penicillin"]
     = [ AllergyAlert.mk "Penicillin" "penicillin" "severe" "Allergic reaction possible"
           "AVOID Penicillin - Patient is allergic to penicillin";
         AllergyAlert.mk "Penicillin" "penicillin" "severe"
           "Rash, hives, swelling, difficulty breathing"
           "CONTRAINDICATED - Penicillin contains penicillin which patient is allergic to" ].
Proof.
  split; [reflexivity|]. split; [|reflexivity].
  eexists. split; [left; reflexivity | reflexivity].
Qed.

(** C10: every finding of [checkAllergies] has severity severe, moderate
    or mild, and never safe. *)
Theorem C10_allergy_severity_range
    (drugs : list DrugEntry.t) (allergies : list string) (a : AllergyAlert.t) :
  In a (checkAllergies drugs allergies) ->
  (AllergyAlert.severity a = "severe"
   \/ AllergyAlert.severity a = "moderate"
   \/ AllergyAlert.severity a = "mild")
  /\ AllergyAlert.severity a <> "safe".
Proof.
  intros H. apply in_checkAllergies in H as (drug & allergy & _ & _ & H).
  unfold pairAlerts in H. apply in_app_or in H as [H|H].
  - destruct (directMatch drug allergy); [|destruct H].
    destruct H as [<-|[]]. split; [now left | discriminate].
  - apply in_flat_map in H as ([allergen info] & Hin & H).
    destruct (classMatch drug allergy allergen info); [|destruct H].
    destruct H as [<-|[]]. simpl in Hin.
    repeat (destruct Hin as [[= <- <-]|Hin];
            [split; [auto|discriminate]|]).
    destruct Hin.
Qed.

Lemma C10_allergy_severity_range_witness :
  ("moderate" = "severe" \/ "moderate" = "moderate" \/ "moderate" = "mild")
  /\ "moderate" <> "safe".
Proof.
  apply (C10_allergy_severity_range [aspirinEntry] ["Aspirin"]
           (AllergyAlert.mk "Aspirin" "Aspirin" "moderate"
              "Breathing problems, hives, stomach upset"
              "CONTRAINDICATED - Aspirin contains aspirin which patient is allergic to")).
  vm_compute. right. left. reflexivity.
Defined.

(** *** The JSON codec reads back what it prints *)

Section JsonCodec.

Import JsonText.

Lemma lex_escapeChar (c : ascii) (acc tail : string) :
  lex (Some acc) (escapeChar c +:+ tail) = lex (Some (snoc acc c)) tail.
Proof. destruct c as [[] [] [] [] [] [] [] []]; reflexivity. Qed.

Lemma lex_escape (s acc rest : string) :
  lex (Some acc) (escape s +:+ String dquote rest)
  = cons (TString (acc +:+ s)) <$> lex None rest.
Proof.
  revert acc. induction s as [|c s IH]; intros acc.
  - now rewrite append_nil_r.
  - cbn [escape]. rewrite append_assoc, lex_escapeChar, IH.
    unfold snoc. now rewrite append_assoc.
Qed.

Lemma Lexes_quote (s : string) : Lexes (quote s) [TString s].
Proof.
  intros rest. unfold quote.
  rewrite append_cons, append_assoc, append_cons, append_nil_l.
  change (lex None (String dquote ?x)) with (lex (Some "") x).
  apply lex_escape.
Qed.

Lemma Lexes_nil : Lexes "" [].
Proof. intros rest. rewrite append_nil_l. now destruct (lex None rest). Qed.

Lemma Lexes_app (a b : string) (ta tb : list token) :
  Lexes a ta -> Lexes b tb -> Lexes (a +:+ b) (ta ++ tb).
Proof.
  intros Ha Hb rest. rewrite append_assoc, Ha, Hb.
  destruct (lex None rest); cbn; [now rewrite app_assoc | reflexivity].
Qed.

Lemma Lexes_literals :
  Lexes "    " [] /\ Lexes ": " [TColon] /\ Lexes ("," +:+ nl) [TComma]
  /\ Lexes ("  {" +:+ nl) [TLBrace] /\ Lexes (nl +:+ "  }") [TRBrace]
  /\ Lexes ("[" +:+ nl) [TLBracket] /\ Lexes (nl +:+ "]") [TRBracket].
Proof.
  assert (Hblank : Lexes "    " []).
  { intros rest. transitivity (lex None rest); [reflexivity|].
    now destruct (lex None rest). }
  split; [exact Hblank|]. repeat split; intros rest; reflexivity.
Qed.

Lemma Lexes_join {A : Type} (f : A -> string) (g : A -> list token) (l : list A) :
  (forall x, Lexes (f x) (g x)) ->
  Lexes (join ("," +:+ nl) (map f l)) (commaSep (map g l)).
Proof.
  intros Hfg. induction l as [|x l IH]; [apply Lexes_nil|].
  destruct l as [|y l]; [apply Hfg|].
  change (join ("," +:+ nl) (map f (x :: y :: l)))
    with (f x +:+ ("," +:+ nl) +:+ join ("," +:+ nl) (map f (y :: l))).
  change (commaSep (map g (x :: y :: l)))
    with (g x ++ [TComma] ++ commaSep (map g (y :: l))).
  apply Lexes_app; [apply Hfg|]. apply Lexes_app; [apply Lexes_literals | exact IH].
Qed.

Lemma Lexes_object (r : DrugInteractionData.t) : Lexes (objectText r) (objectTokens r).
Proof.
  unfold objectText, objectTokens.
  change (TLBrace :: ?x ++ [TRBrace]) with ([TLBrace] ++ x ++ [TRBrace]).
  destruct Lexes_literals as (Hind & Hcolon & _ & Hopen & Hclose & _).
  rewrite <- (append_assoc "  {" nl).
  apply Lexes_app; [exact Hopen|]. apply Lexes_app; [|exact Hclose].
  apply Lexes_join. intros [k v]. unfold memberTokens. cbn [fst snd].
  change [TString k; TColon; TString v] with ([] ++ [TString k] ++ [TColon] ++ [TString v]).
  repeat (apply Lexes_app); auto using Lexes_quote.
Qed.

Lemma lex_stringify (data : list DrugInteractionData.t) :
  lex None (stringify data) = Some (dataTokens data).
Proof.
  destruct data as [|r data]; [reflexivity|].
  set (l := r :: data).
  change (stringify l)
    with ("[" +:+ nl +:+ join ("," +:+ nl) (map objectText l) +:+ nl +:+ "]").
  destruct Lexes_literals as (_ & _ & _ & _ & _ & Hopen & Hclose).
  assert (H : Lexes ("[" +:+ nl +:+ join ("," +:+ nl) (map objectText l) +:+ nl +:+ "]")
                ([TLBracket] ++ commaSep (map objectTokens l) ++ [TRBracket])).
  { rewrite <- (append_assoc "[" nl). apply Lexes_app; [exact Hopen|].
    apply Lexes_app; [|exact Hclose]. apply Lexes_join, Lexes_object. }
  specialize (H ""). rewrite append_nil_r in H. rewrite H.
  change (lex None "") with (Some (@nil token)).
  cbn [fmap option_fmap option_map]. now rewrite app_nil_r.
Qed.

Lemma parseMembers_print (ms : list (string * string)) (rest : list token) :
  ms <> [] ->
  parseMembers (commaSep (map memberTokens ms) ++ TRBrace :: rest) = Some (ms, rest).
Proof.
  induction ms as [|[k v] ms IH]; [congruence|]. intros _.
  destruct ms as [|m ms]; [reflexivity|].
  change (commaSep (map memberTokens ((k, v) :: m :: ms)) ++ TRBrace :: rest)
    with (TString k :: TColon :: TString v :: TComma
            :: (commaSep (map memberTokens (m :: ms)) ++ TRBrace :: rest)).
  cbn [parseMembers]. now rewrite IH.
Qed.

Lemma recordOf_members (r : DrugInteractionData.t) : recordOf (members r) = Some r.
Proof. destruct r as [d1 d2 sev desc rec [m|] [e|]]; reflexivity. Qed.

Lemma members_nonempty (r : DrugInteractionData.t) : members r <> [].
Proof. destruct r; discriminate. Qed.

Lemma parseObjects_print (data : list DrugInteractionData.t) (fuel : nat) :
  data <> [] -> length data <= fuel ->
  parseObjects fuel (commaSep (map objectTokens data) ++ [TRBracket]) = Some data.
Proof.
  revert fuel. induction data as [|r data IH]; [congruence|]. intros fuel _ Hfuel.
  destruct fuel as [|fuel]; [cbn in Hfuel; lia|].
  destruct data as [|r' data].
  - change (commaSep (map objectTokens [r]) ++ [TRBracket])
      with (TLBrace :: (commaSep (map memberTokens (members r)) ++ [TRBrace]) ++ [TRBracket]).
    rewrite <- app_assoc. cbn [parseObjects app].
    rewrite parseMembers_print by apply members_nonempty.
    now rewrite recordOf_members.
  - change (commaSep (map objectTokens (r :: r' :: data)) ++ [TRBracket])
      with ((TLBrace :: (commaSep (map memberTokens (members r)) ++ [TRBrace])
             ++ TComma :: commaSep (map objectTokens (r' :: data))) ++ [TRBracket]).
    cbn [app]. rewrite <- !app_assoc. cbn [parseObjects app].
    rewrite parseMembers_print by apply members_nonempty.
    rewrite recordOf_members, IH; [reflexivity | discriminate | cbn in *; lia].
Qed.

Lemma commaSep_length (data : list DrugInteractionData.t) :
  length data <= length (commaSep (map objectTokens data)).
Proof.
  induction data as [|r data IH]; [reflexivity|].
  destruct data as [|r' data]; [cbn; lia|].
  change (commaSep (map objectTokens (r :: r' :: data)))
    with (objectTokens r ++ TComma :: commaSep (map objectTokens (r' :: data))).
  rewrite length_app. cbn [length] in *. lia.
Qed.

(** The codec reads back every record list it prints. *)
Lemma parse_stringify (data : list DrugInteractionData.t) :
  parse (stringify data) = Parsed data.
Proof.
  unfold parse. rewrite lex_stringify. cbn [mbind option_bind].
  destruct data as [|r data]; [reflexivity|].
  unfold dataTokens, parseTokens.
  remember (r :: data) as l.
  assert (Hl : l <> []) by (subst; discriminate). clear Heql.
  assert (Hrest : parseObjects (length (commaSep (map objectTokens l) ++ [TRBracket]))
                    (commaSep (map objectTokens l) ++ [TRBracket]) = Some l).
  { apply parseObjects_print; [assumption|]. rewrite length_app.
    pose proof (commaSep_length l). lia. }
  destruct l as [|x l]; [congruence|].
  destruct (commaSep (map objectTokens (x :: l)) ++ [TRBracket]) as [|t ts] eqn:E.
  - destruct l; discriminate.
  - destruct t; try (destruct l; discriminate E). now rewrite Hrest.
Qed.

End JsonCodec.

(** ** Dataset ingestion *)


Lemma validData_idem (parsedData : list DrugInteractionData.t) :
  validData (validData parsedData) = validData parsedData.
Proof.
  unfold validData. induction parsedData as [|x l IH]; simpl; [reflexivity|].
  destruct (isValid x) eqn:E; simpl; [now rewrite E, IH | exact IH].
Qed.

Section Ingestion.

Variable JSON_parse : string -> parse_result.
Variable JSON_stringify : list DrugInteractionData.t -> string.

(** A successful ingestion, read backwards. *)
Lemma ingest_inl (file : File.t) (now today : string) (d : Dataset.t) :
  ingest JSON_parse file now today = inl d ->
  exists parsedData,
    parseFile JSON_parse file = Parsed parsedData
    /\ validData parsedData <> []
    /\ d = Dataset.mk now (stripExtension (File.name file)) today
             (length (validData parsedData)) (formatSize (File.size file)) "active"
             (validData parsedData).
Proof.
  unfold ingest. destruct (parseFile JSON_parse file) as [parsedData|m]; [|discriminate].
  destruct (validData parsedData) as [|x l] eqn:E; simpl; [discriminate|].
  intros [= <-]. exists parsedData. rewrite E.
  split; [reflexivity|]. split; [discriminate | reflexivity].
Qed.

Lemma parseFile_export (name text : string) (size : N) :
  parseFile JSON_parse (File.mk (name +:+ "_export.json") text size) = JSON_parse text.
Proof.
  unfold parseFile. cbn [File.name File.text].
  change "_export.json" with ("_export" +:+ ".json").
  now rewrite <- append_assoc, endsWith_app.
Qed.

End Ingestion.

(** The dataset an upload stores is never empty, so a table activated
    from the dataset list always has a record: the dashboard takes its
    dataset branch exactly when a dataset is active. *)
Lemma handleFileUpload_populated (JSON_parse : string -> parse_result)
    (st : Manager.t) (file : option File.t) (now today : string) :
  populated st -> populated (handleFileUpload JSON_parse st file now today).
Proof.
  intros [Hd Ht]. destruct file as [file|]; [|now split]. unfold handleFileUpload.
  destruct (ingest JSON_parse file now today) as [d|m] eqn:E; split; cbn; try assumption.
  intros d' Hin. apply in_app_or in Hin as [Hin|[<-|[]]]; [now apply Hd|].
  apply ingest_inl in E as (parsedData & _ & Hne & ->). exact Hne.
Qed.

Lemma activateDataset_populated (st : Manager.t) (datasetId : string) :
  populated st -> populated (activateDataset st datasetId).
Proof.
  intros [Hd Ht]. unfold activateDataset.
  destruct (find _ (Manager.datasets st)) as [d|] eqn:E; [|now split].
  split; cbn; [assumption|]. intros table [= <-].
  apply find_some in E as [Hin _]. now apply Hd.
Qed.

Lemma deactivateDataset_populated (st : Manager.t) :
  populated st -> populated (deactivateDataset st).
Proof. intros [Hd Ht]. split; cbn; [assumption | discriminate]. Qed.

Lemma deleteDataset_populated (st : Manager.t) (datasetId : string) :
  populated st -> populated (deleteDataset st datasetId).
Proof.
  intros [Hd Ht]. unfold deleteDataset.
  assert (Hf : forall d,
             In d (List.filter (fun d => negb (String.eqb (Dataset.id d) datasetId))
                     (Manager.datasets st)) -> Dataset.data d <> []).
  { intros d Hin. apply filter_In in Hin as [Hin _]. now apply Hd. }
  destruct (Manager.activeDataset st) as [active|]; [|now split].
  destruct (String.eqb active datasetId); split; cbn; try assumption. discriminate.
Qed.




(** *** CSV values and quotes *)

(** C6, as the specification words it, fails: a quote inside a value is
    deleted along with the surrounding ones. The row value
    [Warfarin "Coumadin" tabs] has its quotes inside, and is ingested as
    [Warfarin Coumadin tabs]. *)
Lemma C6_interior_quote_counterexample :
  hd_error (split "," interiorQuoteRow)
  = Some ("Warfarin " +:+ String dquote ("Coumadin" +:+ String dquote " tabs"))
  /\ map DrugInteractionData.drug1 (parseCSV (File.text interiorQuoteCsv))
     = ["Warfarin Coumadin tabs"].
Proof. split; reflexivity. Qed.

(** Every property of [obj] holds a value of the line or the empty
    string. *)
Lemma rowObject_values (P : string -> Prop) (headers values : list string) (k v : string) :
  P "" -> (forall x, In x values -> P x) ->
  rowObject headers values !! k = Some v -> P v.
Proof.
  intros Hempty Hvalues. unfold rowObject.
  generalize (imap (fun index header => (index, header)) headers) as l.
  assert (Hobj : forall k v, (∅ : gmap string string) !! k = Some v -> P v).
  { intros k' v' H. rewrite lookup_empty in H. discriminate. }
  revert Hobj k v. generalize (∅ : gmap string string) as obj.
  intros obj Hobj k v l. revert obj Hobj k v.
  induction l as [|[index header] l IH]; intros obj Hobj k v; simpl.
  - apply Hobj.
  - apply IH. intros k' v' H.
    apply lookup_insert_Some in H as [[_ <-]|[_ H]]; [|now apply (Hobj k')].
    destruct (values !! index) as [x|] eqn:Hx; simpl; [|assumption].
    unfold orElse. destruct (truthy x); [|assumption].
    apply Hvalues, list_elem_of_In, list_elem_of_lookup. now exists index.
Qed.

Lemma orElseU_cases (P : string -> Prop) (a : option string) (b : string) :
  (forall v, a = Some v -> P v) -> P b -> P (orElseU a b).
Proof.
  intros Ha Hb. destruct a as [v|]; simpl; [|assumption].
  unfold orElse. destruct (truthy v); [now apply Ha | assumption].
Qed.

(** The seven fields of the record built from [obj]: each is a property
    of [obj] or the empty string, the severity a lowercased property or
    the default. *)
Lemma rowRecord_fields (P : string -> Prop) (obj : gmap string string) :
  P "" -> (forall k v, obj !! k = Some v -> P v) ->
  let r := rowRecord obj in
  P (DrugInteractionData.drug1 r)
  /\ P (DrugInteractionData.drug2 r)
  /\ (DrugInteractionData.severity r = "mild"
      \/ exists v, P v /\ truthy v = true
                   /\ DrugInteractionData.severity r = toLowerCase v)
  /\ P (DrugInteractionData.description r)
  /\ P (DrugInteractionData.recommendation r)
  /\ (exists m, DrugInteractionData.mechanism r = Some m /\ P m)
  /\ (exists e, DrugInteractionData.evidence_level r = Some e /\ P e).
Proof.
  intros Hempty Hobj r. subst r. unfold rowRecord.
  cbn [DrugInteractionData.drug1 DrugInteractionData.drug2 DrugInteractionData.severity
       DrugInteractionData.description DrugInteractionData.recommendation
       DrugInteractionData.mechanism DrugInteractionData.evidence_level].
  split; [repeat (apply orElseU_cases; [apply Hobj|]); exact Hempty|].
  split; [repeat (apply orElseU_cases; [apply Hobj|]); exact Hempty|].
  split.
  { destruct (obj !! "severity") as [v|] eqn:Hv; simpl; [|now left].
    unfold orElse. destruct (truthy v) eqn:Ht; [|now left].
    right. exists v. split; [now apply (Hobj "severity") | now split]. }
  split; [repeat (apply orElseU_cases; [apply Hobj|]); exact Hempty|].
  split; [repeat (apply orElseU_cases; [apply Hobj|]); exact Hempty|].
  split; eexists; (split; [reflexivity|]);
    repeat (apply orElseU_cases; [apply Hobj|]); exact Hempty.
Qed.

(** The fields of a record read from CSV text, traced to the cells of
    one data line of the text. *)
Lemma parseCSV_fields (text : string) (r : DrugInteractionData.t) :
  In r (parseCSV text) ->
  exists line,
    In line (tl (split newline text))
    /\ truthy (trim line) = true
    /\ cellOrEmpty line (DrugInteractionData.drug1 r)
    /\ cellOrEmpty line (DrugInteractionData.drug2 r)
    /\ (DrugInteractionData.severity r = "mild"
        \/ exists v, cellOrEmpty line v /\ truthy v = true
                     /\ DrugInteractionData.severity r = toLowerCase v)
    /\ cellOrEmpty line (DrugInteractionData.description r)
    /\ cellOrEmpty line (DrugInteractionData.recommendation r)
    /\ (exists m, DrugInteractionData.mechanism r = Some m /\ cellOrEmpty line m)
    /\ (exists e, DrugInteractionData.evidence_level r = Some e /\ cellOrEmpty line e).
Proof.
  unfold parseCSV. destruct (split newline text) as [|line0 rest]; [intros []|].
  intros Hr. apply in_map_iff in Hr as (line & <- & Hline).
  apply filter_In in Hline as [Hline Hblank].
  exists line. split; [exact Hline|]. split; [exact Hblank|].
  apply (rowRecord_fields (cellOrEmpty line)); [now left|].
  intros k v Hv. revert Hv. apply rowObject_values; [now left|].
  intros x Hx. right. unfold rowValues in Hx.
  apply in_map_iff in Hx as (raw & <- & Hraw). now exists raw.
Qed.

Lemma cellOrEmpty_no_quote (line v : string) :
  cellOrEmpty line v -> occurs dquote v = false.
Proof.
  intros [->|(raw & _ & ->)]; [reflexivity | apply occurs_removeAll].
Qed.

(** C6 (amended): in CSV ingestion every data-row value is trimmed and
    then loses every double quote it holds, the surrounding ones and the
    ones inside alike; no field of an ingested record holds a quote.
    Each of the seven fields of a record read from CSV text is such a
    value of one non-blank data line of the text (a piece between two
    commas, trimmed, every quote removed), or the empty string; the
    severity is such a value lowercased, or the default [mild]. Hence
    none of the seven fields holds a double quote. *)
Theorem C6_csv_values_lose_every_quote
    (text : string) (r : DrugInteractionData.t) :
  In r (parseCSV text) ->
  (exists line,
      In line (tl (split newline text))
      /\ truthy (trim line) = true
      /\ cellOrEmpty line (DrugInteractionData.drug1 r)
      /\ cellOrEmpty line (DrugInteractionData.drug2 r)
      /\ (DrugInteractionData.severity r = "mild"
          \/ exists v, cellOf line v /\ DrugInteractionData.severity r = toLowerCase v)
      /\ cellOrEmpty line (DrugInteractionData.description r)
      /\ cellOrEmpty line (DrugInteractionData.recommendation r)
      /\ (exists m, DrugInteractionData.mechanism r = Some m /\ cellOrEmpty line m)
      /\ (exists e, DrugInteractionData.evidence_level r = Some e /\ cellOrEmpty line e))
  /\ occurs dquote (DrugInteractionData.drug1 r) = false
  /\ occurs dquote (DrugInteractionData.drug2 r) = false
  /\ occurs dquote (DrugInteractionData.severity r) = false
  /\ occurs dquote (DrugInteractionData.description r) = false
  /\ occurs dquote (DrugInteractionData.recommendation r) = false
  /\ (forall m, DrugInteractionData.mechanism r = Some m -> occurs dquote m = false)
  /\ (forall e, DrugInteractionData.evidence_level r = Some e -> occurs dquote e = false).
Proof.
  intros Hr.
  destruct (parseCSV_fields text r Hr)
    as (line & Hline & Hblank & H1 & H2 & Hs & Hd & Hrec & (m & Hm & Hm') & (e & He & He')).
  assert (Hs' : DrugInteractionData.severity r = "mild"
                \/ exists v, cellOf line v /\ DrugInteractionData.severity r = toLowerCase v).
  { destruct Hs as [Hs|(v & [->|Hv] & Ht & Hs)];
      [now left | discriminate | right; now exists v]. }
  split.
  - exists line. repeat (split; [assumption|]). split; [now exists m | now exists e].
  - repeat (split; [now apply (cellOrEmpty_no_quote line)|]).
    split.
    { destruct Hs' as [->|(v & Hv & ->)]; [reflexivity|].
      rewrite occurs_toLowerCase. apply (cellOrEmpty_no_quote line). now right. }
    repeat (split; [now apply (cellOrEmpty_no_quote line)|]).
    split; [intros m' Hm0 | intros e' He0].
    + rewrite Hm in Hm0. injection Hm0 as <-. now apply (cellOrEmpty_no_quote line).
    + rewrite He in He0. injection He0 as <-. now apply (cellOrEmpty_no_quote line).
Qed.

Lemma C6_csv_values_lose_every_quote_witness :
  (exists line,
      In line (tl (split newline (File.text interiorQuoteCsv)))
      /\ truthy (trim line) = true
      /\ cellOrEmpty line "Warfarin Coumadin tabs"
      /\ cellOrEmpty line "Aspirin"
      /\ ("severe" = "mild" \/ exists v, cellOf line v /\ "severe" = toLowerCase v)
      /\ cellOrEmpty line "bleeding risk"
      /\ cellOrEmpty line ""
      /\ (exists m, Some "" = Some m /\ cellOrEmpty line m)
      /\ (exists e, Some "" = Some e /\ cellOrEmpty line e))
  /\ occurs dquote "Warfarin Coumadin tabs" = false
  /\ occurs dquote "Aspirin" = false
  /\ occurs dquote "severe" = false
  /\ occurs dquote "bleeding risk" = false
  /\ occurs dquote "" = false
  /\ (forall m, Some "" = Some m -> occurs dquote m = false)
  /\ (forall e, Some "" = Some e -> occurs dquote e = false).
Proof.
  apply (C6_csv_values_lose_every_quote (File.text interiorQuoteCsv)
           (DrugInteractionData.mk "Warfarin Coumadin tabs" "Aspirin" "severe"
              "bleeding risk" "" (Some "") (Some ""))).
  vm_compute. left. reflexivity.
Defined.

(** *** Export and re-ingestion *)

(** **** The lexer on a printed list of records *)

Section JsonValues.

Import Json.

Lemma lex_string_escapeChar (c : ascii) (acc tail : string) :
  lex (InString acc) (JsonText.escapeChar c +:+ tail)
  = lex (InString (JsonText.snoc acc c)) tail.
Proof. destruct c as [[] [] [] [] [] [] [] []]; reflexivity. Qed.

Lemma lex_string_escape (s acc rest : string) :
  lex (InString acc) (JsonText.escape s +:+ String dquote rest)
  = cons (TString (acc +:+ s)) <$> lex Outside rest.
Proof.
  revert acc. induction s as [|c s IH]; intros acc.
  - now rewrite append_nil_r.
  - cbn [JsonText.escape]. rewrite append_assoc, lex_string_escapeChar, IH.
    unfold JsonText.snoc. now rewrite append_assoc.
Qed.

Lemma Lexes_string (s : string) : Lexes (JsonText.quote s) [TString s].
Proof.
  intros rest. unfold JsonText.quote.
  rewrite append_cons, append_assoc, append_cons, append_nil_l.
  change (lex Outside (String dquote ?x)) with (lex (InString "") x).
  apply lex_string_escape.
Qed.

Lemma Lexes_empty : Lexes "" [].
Proof. intros rest. rewrite append_nil_l. now destruct (lex Outside rest). Qed.

Lemma Lexes_append (a b : string) (ta tb : list token) :
  Lexes a ta -> Lexes b tb -> Lexes (a +:+ b) (ta ++ tb).
Proof.
  intros Ha Hb rest. rewrite append_assoc, Ha, Hb.
  destruct (lex Outside rest); cbn; [now rewrite app_assoc | reflexivity].
Qed.

Lemma Lexes_punctuation :
  Lexes ": " [TColon]
  /\ Lexes ("," +:+ JsonText.nl +:+ "    ") [TComma]
  /\ Lexes ("," +:+ JsonText.nl +:+ "  ") [TComma]
  /\ Lexes ("{" +:+ JsonText.nl +:+ "    ") [TLBrace]
  /\ Lexes (JsonText.nl +:+ "  " +:+ "}") [TRBrace]
  /\ Lexes "{}" [TLBrace; TRBrace]
  /\ Lexes ("[" +:+ JsonText.nl +:+ "  ") [TLBracket]
  /\ Lexes (JsonText.nl +:+ "" +:+ "]") [TRBracket].
Proof.
  split; [intros rest; reflexivity|].
  split; [intros rest; reflexivity|].
  split; [intros rest; reflexivity|].
  split; [intros rest; reflexivity|].
  split; [intros rest; reflexivity|].
  split; [intros rest|].
  { transitivity (cons TLBrace <$> (cons TRBrace <$> lex Outside rest)); [reflexivity|].
    now destruct (lex Outside rest). }
  split; intros rest; reflexivity.
Qed.

Lemma Lexes_joined {A : Type} (sep : string) (f : A -> string) (g : A -> list token)
    (l : list A) :
  Lexes sep [TComma] -> (forall x, Lexes (f x) (g x)) ->
  Lexes (JsonText.join sep (map f l)) (commaSep (map g l)).
Proof.
  intros Hsep Hfg. induction l as [|x l IH]; [apply Lexes_empty|].
  destruct l as [|y l]; [apply Hfg|].
  change (JsonText.join sep (map f (x :: y :: l)))
    with (f x +:+ sep +:+ JsonText.join sep (map f (y :: l))).
  change (commaSep (map g (x :: y :: l)))
    with (g x ++ [TComma] ++ commaSep (map g (y :: l))).
  apply Lexes_append; [apply Hfg|]. apply Lexes_append; [exact Hsep | exact IH].
Qed.

Lemma Lexes_member (member : string * string) :
  Lexes (memberText member) (memberTokens member).
Proof.
  unfold memberText, memberTokens. destruct Lexes_punctuation as (Hcolon & _).
  change [TString (fst member); TColon; TString (snd member)]
    with ([TString (fst member)] ++ [TColon] ++ [TString (snd member)]).
  apply Lexes_append; [apply Lexes_string|].
  apply Lexes_append; [exact Hcolon | apply Lexes_string].
Qed.

Lemma Lexes_record (members : list (string * string)) :
  Lexes (recordText members) (recordTokens members).
Proof.
  destruct Lexes_punctuation as (_ & Hsep & _ & Hopen & Hclose & Hnone & _).
  destruct members as [|member members]; [exact Hnone|].
  set (ms := member :: members).
  change (recordText ms)
    with ("{" +:+ JsonText.nl +:+ "    "
          +:+ JsonText.join ("," +:+ JsonText.nl +:+ "    ") (map memberText ms)
          +:+ JsonText.nl +:+ "  " +:+ "}").
  unfold recordTokens.
  change (TLBrace :: ?x ++ [TRBrace]) with ([TLBrace] ++ x ++ [TRBrace]).
  rewrite <- (append_assoc "{" JsonText.nl), <- (append_assoc ("{" +:+ JsonText.nl) "    ").
  apply Lexes_append; [rewrite (append_assoc "{" JsonText.nl); exact Hopen|].
  apply Lexes_append; [|exact Hclose].
  apply Lexes_joined; [exact Hsep | apply Lexes_member].
Qed.

Lemma lex_recordsText (records : list (list (string * string))) :
  lex Outside (recordsText records) = Some (recordsTokens records).
Proof.
  destruct Lexes_punctuation as (_ & _ & Hsep & _ & _ & _ & Hopen & Hclose).
  assert (H : Lexes (recordsText records)
                ([TLBracket] ++ commaSep (map recordTokens records) ++ [TRBracket])).
  { unfold recordsText.
    rewrite <- (append_assoc "[" JsonText.nl), <- (append_assoc ("[" +:+ JsonText.nl) "  ").
    apply Lexes_append; [rewrite (append_assoc "[" JsonText.nl); exact Hopen|].
    apply Lexes_append; [|exact Hclose].
    apply Lexes_joined; [exact Hsep | apply Lexes_record]. }
  specialize (H ""). rewrite append_nil_r in H. rewrite H.
  change (lex Outside "") with (Some (@nil token)).
  cbn [fmap option_fmap option_map]. now rewrite app_nil_r.
Qed.

(** **** The printer on a list of records with string members *)

Lemma mapM_map {A B : Type} (f : A -> option B) (g : A -> B) (l : list A) :
  (forall x, In x l -> f x = Some (g x)) -> mapM f l = Some (map g l).
Proof.
  induction l as [|x l IH]; intros H; [reflexivity|].
  cbn [mapM]. rewrite (H x) by now left. cbn.
  rewrite IH by (intros y Hy; apply H; now right). reflexivity.
Qed.

Lemma stringifyAt_record (members : list (string * string)) :
  stringifyAt "  " (Untyped.stringMembers members) = Some (recordText members).
Proof.
  destruct members as [|member members]; [reflexivity|].
  set (ms := member :: members).
  transitivity
    (match mapM (fun m : string * JsValue =>
                   match stringifyAt "    " (snd m) with
                   | Some text => Some (JsonText.quote (fst m) +:+ ": " +:+ text)
                   | None => None
                   end)
             (map (fun m : string * string => (fst m, JString (snd m))) ms) with
     | Some pieces =>
         Some ("{" +:+ JsonText.nl +:+ "    "
               +:+ JsonText.join ("," +:+ JsonText.nl +:+ "    ") pieces
               +:+ JsonText.nl +:+ "  " +:+ "}")
     | None => None
     end); [reflexivity|].
  rewrite (mapM_map _ (fun m => JsonText.quote (fst m) +:+ ": " +:+ JsonText.quote
                                  (match snd m with JString s => s | _ => "" end))).
  - rewrite map_map. reflexivity.
  - intros m Hm. apply in_map_iff in Hm as (m0 & <- & _). reflexivity.
Qed.

Lemma stringsOf_stringMembers (members : list (string * string)) :
  stringsOf (Untyped.stringMembers members) = members.
Proof.
  unfold stringsOf, Untyped.stringMembers. rewrite map_map.
  rewrite <- (map_id members) at 2. apply map_ext. now intros [k v].
Qed.

Lemma stringify_records (records : list (list (string * string))) :
  records <> [] ->
  stringify (JArray (map Untyped.stringMembers records)) = Some (recordsText records).
Proof.
  destruct records as [|members records]; [congruence|]. intros _.
  set (rs := members :: records).
  transitivity
    (match mapM (stringifyAt "  ") (map Untyped.stringMembers rs) with
     | Some pieces =>
         Some ("[" +:+ JsonText.nl +:+ "  "
               +:+ JsonText.join ("," +:+ JsonText.nl +:+ "  ") pieces
               +:+ JsonText.nl +:+ "" +:+ "]")
     | None => None
     end); [reflexivity|].
  rewrite (mapM_map _ (fun v => recordText (stringsOf v))).
  - rewrite map_map.
    replace (map (fun ms => recordText (stringsOf (Untyped.stringMembers ms))) rs)
      with (map recordText rs); [reflexivity|].
    apply map_ext. intros ms. now rewrite stringsOf_stringMembers.
  - intros v Hv. apply in_map_iff in Hv as (ms & <- & _).
    now rewrite stringifyAt_record, stringsOf_stringMembers.
Qed.


(** **** The parser on the tokens of a list of records *)

Lemma parseValue_string (fuel : nat) (s : string) (rest : list token) :
  parseValue (S fuel) (TString s :: rest) = Some (JString s, rest).
Proof. reflexivity. Qed.

Lemma parseMembers_step (fuel : nat) (key : string) (rest : list token) :
  parseMembers (S fuel) (TString key :: TColon :: rest)
  = match parseValue fuel rest with
    | Some (v, TComma :: rest') =>
        match parseMembers fuel rest' with
        | Some (written, rest'') => Some ((key, v) :: written, rest'')
        | None => None
        end
    | Some (v, TRBrace :: rest') => Some ([(key, v)], rest')
    | _ => None
    end.
Proof. reflexivity. Qed.

Lemma parseValue_members (fuel : nat) (key : string) (rest : list token) :
  parseValue (S fuel) (TLBrace :: TString key :: rest)
  = match parseMembers fuel (TString key :: rest) with
    | Some (written, rest') => Some (JObject (buildObject written), rest')
    | None => None
    end.
Proof. reflexivity. Qed.

Lemma parseValue_elements (fuel : nat) (rest : list token) :
  parseValue (S fuel) (TLBracket :: TLBrace :: rest)
  = match parseElements fuel (TLBrace :: rest) with
    | Some (items, rest') => Some (JArray items, rest')
    | None => None
    end.
Proof. reflexivity. Qed.

Lemma parseElements_step (fuel : nat) (ts : list token) :
  parseElements (S fuel) ts
  = match parseValue fuel ts with
    | Some (v, TComma :: rest) =>
        match parseElements fuel rest with
        | Some (vs, rest') => Some (v :: vs, rest')
        | None => None
        end
    | Some (v, TRBracket :: rest) => Some ([v], rest)
    | _ => None
    end.
Proof. reflexivity. Qed.

Lemma parseMembers_record (members : list (string * string)) (rest : list token)
    (fuel : nat) :
  members <> [] -> length members < fuel ->
  parseMembers fuel (commaSep (map memberTokens members) ++ TRBrace :: rest)
  = Some (map (fun member => (fst member, JString (snd member))) members, rest).
Proof.
  revert fuel. induction members as [|[k v] members IH]; [congruence|].
  intros fuel _ Hfuel. cbn [length] in Hfuel.
  destruct fuel as [|[|fuel]]; [lia | lia |].
  destruct members as [|m members].
  - change (commaSep (map memberTokens [(k, v)]) ++ TRBrace :: rest)
      with (TString k :: TColon :: TString v :: TRBrace :: rest).
    now rewrite parseMembers_step, parseValue_string.
  - change (commaSep (map memberTokens ((k, v) :: m :: members)) ++ TRBrace :: rest)
      with (TString k :: TColon :: TString v :: TComma
              :: (commaSep (map memberTokens (m :: members)) ++ TRBrace :: rest)).
    rewrite parseMembers_step, parseValue_string, IH;
      [reflexivity | discriminate | cbn [length] in *; lia].
Qed.

Lemma parseValue_record (members : list (string * string)) (rest : list token)
    (fuel : nat) :
  length members + 1 < fuel ->
  parseValue fuel (recordTokens members ++ rest)
  = Some (JObject (buildObject (map (fun member => (fst member, JString (snd member)))
                                  members)), rest).
Proof.
  intros Hfuel. destruct fuel as [|fuel]; [lia|].
  destruct members as [|[k v] members]; [reflexivity|].
  set (ms := (k, v) :: members).
  assert (Hms : ms <> []) by discriminate.
  assert (Hlen : length ms < fuel) by (subst ms; cbn [length] in *; lia).
  pose proof (parseMembers_record ms rest fuel Hms Hlen) as H.
  unfold recordTokens. rewrite <- app_comm_cons, <- app_assoc.
  change ([TRBrace] ++ rest) with (TRBrace :: rest).
  assert (Hhead : exists tail,
             commaSep (map memberTokens ms) ++ TRBrace :: rest = TString k :: tail).
  { subst ms. destruct members; eexists; reflexivity. }
  destruct Hhead as [tail Htail]. rewrite Htail in *.
  now rewrite parseValue_members, H.
Qed.

Lemma parseElements_records (records : list (list (string * string))) (rest : list token)
    (fuel : nat) :
  records <> [] -> length records + length (concat records) + 2 < fuel ->
  parseElements fuel (commaSep (map recordTokens records) ++ TRBracket :: rest)
  = Some (map (fun members =>
                 JObject (buildObject (map (fun member => (fst member, JString (snd member)))
                                         members))) records, rest).
Proof.
  revert fuel. induction records as [|members records IH]; [congruence|].
  intros fuel _ Hfuel. cbn [length concat] in Hfuel. rewrite length_app in Hfuel.
  destruct fuel as [|fuel]; [lia|]. rewrite parseElements_step.
  destruct records as [|members' records].
  - change (commaSep (map recordTokens [members]) ++ TRBracket :: rest)
      with (recordTokens members ++ TRBracket :: rest).
    rewrite parseValue_record by lia. reflexivity.
  - change (commaSep (map recordTokens (members :: members' :: records))
              ++ TRBracket :: rest)
      with ((recordTokens members
               ++ TComma :: commaSep (map recordTokens (members' :: records)))
              ++ TRBracket :: rest).
    rewrite <- app_assoc, <- app_comm_cons.
    rewrite parseValue_record by lia.
    rewrite IH; [reflexivity | discriminate | cbn [length concat] in *; lia].
Qed.

Lemma commaSep_concat_length (groups : list (list token)) :
  length (concat groups) <= length (commaSep groups).
Proof.
  induction groups as [|group groups IH]; [reflexivity|].
  destruct groups as [|group' groups].
  - cbn [concat commaSep]. rewrite app_nil_r. lia.
  - change (commaSep (group :: group' :: groups))
      with (group ++ TComma :: commaSep (group' :: groups)).
    change (concat (group :: group' :: groups))
      with (group ++ concat (group' :: groups)).
    rewrite !length_app. cbn [length]. lia.
Qed.

Lemma recordsTokens_length (records : list (list (string * string))) :
  length records + length (concat records)
  <= length (commaSep (map recordTokens records)).
Proof.
  etransitivity; [|apply commaSep_concat_length].
  induction records as [|members records IH]; [reflexivity|].
  cbn [map concat length]. rewrite !length_app.
  assert (H : length members + 1 <= length (recordTokens members)).
  { unfold recordTokens. cbn [length]. rewrite length_app. cbn [length].
    pose proof (commaSep_concat_length (map memberTokens members)) as H.
    assert (Hc : length members <= length (concat (map memberTokens members))).
    { clear. induction members as [|m members IH]; [reflexivity|].
      cbn [map concat length app memberTokens]. lia. }
    lia. }
  lia.
Qed.

(** Parsing the printed text of a non-empty list of records gives the
    records back, their members defined one after another. *)
Lemma parse_recordsText (records : list (list (string * string))) :
  records <> [] ->
  parse (recordsText records)
  = Returned (JArray (map (fun members =>
       JObject (buildObject (map (fun member => (fst member, JString (snd member)))
                               members))) records)).
Proof.
  intros Hne. unfold parse. rewrite lex_recordsText.
  pose proof (recordsTokens_length records) as Hlen.
  unfold recordsTokens.
  set (body := commaSep (map recordTokens records)) in *.
  assert (Hhead : exists tail, body ++ [TRBracket] = TLBrace :: tail).
  { subst body. destruct records as [|members [|members' records]]; [congruence| |];
      eexists; reflexivity. }
  destruct Hhead as [tail Htail].
  cbn [length]. rewrite length_app. cbn [length].
  replace (2 * S (length body + 1) + 2) with (S (2 * length body + 5)) by lia.
  rewrite Htail, parseValue_elements, <- Htail.
  rewrite (parseElements_records records [] _ Hne) by (fold body; lia).
  reflexivity.
Qed.

(** **** The order of the members of an object *)

Lemma arrayIndex_inj (key key' : string) (i : N) :
  arrayIndex key = Some i -> arrayIndex key' = Some i -> key = key'.
Proof.
  unfold arrayIndex.
  destruct (NilEmpty.uint_of_string key) as [d|] eqn:Hd; [|discriminate].
  destruct (NilEmpty.uint_of_string key') as [d'|] eqn:Hd'; [|discriminate].
  destruct (Decimal.uint_beq (Decimal.unorm d) d && (N.of_uint d <? 4294967295)%N)
    eqn:E; [|discriminate].
  destruct (Decimal.uint_beq (Decimal.unorm d') d' && (N.of_uint d' <? 4294967295)%N)
    eqn:E'; [|discriminate].
  apply andb_true_iff in E as [E _]. apply andb_true_iff in E' as [E' _].
  apply Decimal.internal_uint_dec_bl in E, E'.
  intros [= <-] [= H]. apply DecimalN.Unsigned.of_inj in H. rewrite E, E' in H.
  apply NilEmpty.sus in Hd, Hd'. congruence.
Qed.

Lemma lookupMember_None (key : string) (members : list (string * JsValue)) :
  lookupMember key members = None <-> ~ In key (map fst members).
Proof.
  induction members as [|[k v] members IH]; cbn [lookupMember map fst In]; [tauto|].
  destruct (String.eqb k key) eqn:E.
  - apply String.eqb_eq in E. split; [discriminate | intros H; exfalso; apply H; now left].
  - apply String.eqb_neq in E. rewrite IH. tauto.
Qed.

Lemma replaceMember_keys (key : string) (v : JsValue) (members : list (string * JsValue)) :
  map fst (replaceMember key v members) = map fst members.
Proof.
  induction members as [|[k x] members IH]; [reflexivity|].
  cbn [replaceMember]. destruct (String.eqb k key); cbn [map fst]; congruence.
Qed.

Lemma insertIndexed_keys (i : N) (key : string) (v : JsValue)
    (members : list (string * JsValue)) :
  Permutation (map fst (insertIndexed i key v members)) (key :: map fst members).
Proof.
  induction members as [|[k x] members IH]; [reflexivity|].
  cbn [insertIndexed]. destruct (arrayIndex k) as [j|]; [|reflexivity].
  destruct (j <? i)%N; [|reflexivity].
  cbn [map fst]. rewrite IH. apply perm_swap.
Qed.

Lemma indexOrdered_snoc_None (indices : list (option N)) :
  indexOrdered indices -> indexOrdered (indices ++ [None]).
Proof.
  induction indices as [|[i|] indices IH]; cbn [indexOrdered app].
  - intros _. constructor.
  - intros [Hlt Hrest]. split; [|now apply IH].
    intros j [Hj|[Hj|[]]]%in_app_or; [now apply Hlt | discriminate].
  - intros H. apply Forall_app. split; [exact H | now constructor].
Qed.

Lemma indexOrdered_prefix (indices indices' : list (option N)) :
  indexOrdered (indices ++ indices') -> indexOrdered indices.
Proof.
  induction indices as [|[i|] indices IH]; cbn [indexOrdered app].
  - intros _. exact I.
  - intros [Hlt Hrest]. split; [|now apply IH].
    intros j Hj. apply Hlt, in_or_app. now left.
  - intros H. now apply Forall_app in H as [H _].
Qed.

Lemma insertIndexed_ordered (i : N) (key : string) (v : JsValue)
    (members : list (string * JsValue)) :
  arrayIndex key = Some i -> ~ In key (map fst members) ->
  indexOrdered (map arrayIndex (map fst members)) ->
  indexOrdered (map arrayIndex (map fst (insertIndexed i key v members))).
Proof.
  intros Hkey. induction members as [|[k x] members IH]; intros Hnew Hord.
  - cbn. rewrite Hkey. cbn. split; [intros j []|exact I].
  - cbn [insertIndexed]. cbn [map fst] in Hnew, Hord.
    destruct (arrayIndex k) as [j|] eqn:Hk.
    + cbn [indexOrdered] in Hord. destruct Hord as [Hlt Hord].
      destruct (j <? i)%N eqn:Hji.
      * cbn [map fst]. rewrite Hk. cbn [indexOrdered]. split.
        -- intros j' Hj'.
           apply (Permutation_in _ (Permutation_map arrayIndex
                    (insertIndexed_keys i key v members))) in Hj'.
           cbn [map] in Hj'. rewrite Hkey in Hj'. destruct Hj' as [[= <-]|Hj'].
           ++ now apply N.ltb_lt.
           ++ now apply Hlt.
        -- apply IH; [|exact Hord]. intros H. apply Hnew. now right.
      * cbn [map fst]. rewrite Hkey, Hk. cbn [indexOrdered].
        assert (Hij : (i < j)%N).
        { apply N.ltb_ge in Hji. destruct (N.eq_dec i j) as [->|Hne]; [|lia].
          exfalso. apply Hnew. left. now apply (arrayIndex_inj k key j). }
        split; [|now split].
        intros j' [[= <-]|Hj']; [exact Hij|]. specialize (Hlt j' Hj'). lia.
    + cbn [map fst]. rewrite Hkey, Hk. cbn [indexOrdered] in *. split; [|exact Hord].
      intros j' [Hj'|Hj']; [discriminate|].
      rewrite Forall_forall in Hord. apply list_elem_of_In in Hj'.
      now specialize (Hord _ Hj').
Qed.

Lemma setProperty_enumerated (members : list (string * JsValue)) (key : string)
    (v : JsValue) :
  enumerated members -> enumerated (setProperty members key v).
Proof.
  intros [Hnodup Hord]. unfold setProperty, enumerated.
  destruct (lookupMember key members) as [x|] eqn:Hlook.
  - rewrite replaceMember_keys. now split.
  - apply lookupMember_None in Hlook.
    destruct (arrayIndex key) as [i|] eqn:Hkey.
    + split; [|now apply insertIndexed_ordered].
      rewrite insertIndexed_keys. apply NoDup_cons. split; [|exact Hnodup].
      intros H. now apply list_elem_of_In in H.
    + rewrite !map_app. cbn [map fst]. rewrite Hkey. split.
      * apply NoDup_app. split; [exact Hnodup|]. split; [|apply NoDup_singleton].
        intros k Hk Hin. apply list_elem_of_In in Hin. destruct Hin as [<-|[]].
        apply Hlook. now apply list_elem_of_In.
      * now apply indexOrdered_snoc_None.
Qed.

Lemma buildObject_enumerated (written : list (string * JsValue)) :
  enumerated (buildObject written).
Proof.
  unfold buildObject.
  assert (H : enumerated []) by (split; [constructor | exact I]).
  revert H. generalize (@nil (string * JsValue)) as members.
  induction written as [|[key v] written IH]; intros members H; [exact H|].
  cbn [foldl]. apply IH. now apply setProperty_enumerated.
Qed.

Lemma insertIndexed_last (i : N) (key : string) (v : JsValue)
    (members : list (string * JsValue)) :
  indexOrdered (map arrayIndex (map fst members) ++ [Some i]) ->
  insertIndexed i key v members = members ++ [(key, v)].
Proof.
  induction members as [|[k x] members IH]; [reflexivity|].
  cbn [map fst app insertIndexed]. destruct (arrayIndex k) as [j|]; cbn [indexOrdered].
  - intros [Hlt Hord].
    assert (Hji : (j <? i)%N = true).
    { apply N.ltb_lt, Hlt, in_or_app. right. now left. }
    rewrite Hji. now rewrite IH.
  - intros H. apply Forall_app in H as [_ H]. inversion H as [|? ? Hi _]. discriminate Hi.
Qed.

Lemma setProperty_last (members : list (string * JsValue)) (key : string) (v : JsValue) :
  enumerated (members ++ [(key, v)]) ->
  setProperty members key v = members ++ [(key, v)].
Proof.
  intros [Hnodup Hord]. rewrite !map_app in *. cbn [map fst] in *.
  unfold setProperty.
  assert (Hnew : lookupMember key members = None).
  { apply lookupMember_None. apply NoDup_app in Hnodup as (_ & Hdisj & _).
    intros Hin. apply (Hdisj key); [now apply list_elem_of_In|].
    apply list_elem_of_In. now left. }
  rewrite Hnew. destruct (arrayIndex key) as [i|] eqn:Hkey; [|reflexivity].
  now apply insertIndexed_last.
Qed.

Lemma enumerated_prefix (members members' : list (string * JsValue)) :
  enumerated (members ++ members') -> enumerated members.
Proof.
  intros [Hnodup Hord]. rewrite !map_app in *. split.
  - now apply NoDup_app in Hnodup as (H & _).
  - now apply indexOrdered_prefix in Hord.
Qed.

(** Members already in the order of the language are left as they are. *)
Lemma buildObject_fixed (members : list (string * JsValue)) :
  enumerated members -> buildObject members = members.
Proof.
  unfold buildObject. change members with ([] ++ members) at 1 3.
  generalize (@nil (string * JsValue)) as done.
  induction members as [|[key v] members IH]; intros done H.
  - now rewrite app_nil_r.
  - cbn [foldl].
    replace (done ++ (key, v) :: members) with ((done ++ [(key, v)]) ++ members) in *
      by now rewrite <- app_assoc.
    rewrite setProperty_last by now apply enumerated_prefix in H.
    now apply IH.
Qed.

Lemma parseValue_enumerated (fuel : nat) (ts rest : list token)
    (members : list (string * JsValue)) :
  parseValue fuel ts = Some (JObject members, rest) -> enumerated members.
Proof.
  destruct fuel as [|fuel]; [discriminate|].
  destruct ts as [|t ts]; [discriminate|].
  destruct t; try discriminate.
  - destruct ts as [|[] ts]; try discriminate;
      cbn; destruct (parseElements fuel _) as [[? ?]|]; discriminate.
  - assert (Hbuilt : forall ts',
               match parseMembers fuel ts' with
               | Some (written, rest') => Some (JObject (buildObject written), rest')
               | None => None
               end = Some (JObject members, rest) -> enumerated members).
    { intros ts'. destruct (parseMembers fuel ts') as [[written rest']|]; [|discriminate].
      intros [= <- _]. apply buildObject_enumerated. }
    destruct ts as [|[] ts]; try apply Hbuilt.
    intros [= <- _]. split; [constructor | exact I].
Qed.

Lemma parseElements_enumerated (fuel : nat) (ts rest : list token) (items : list JsValue) :
  parseElements fuel ts = Some (items, rest) ->
  forall members, In (JObject members) items -> enumerated members.
Proof.
  revert ts rest items. induction fuel as [|fuel IH]; [discriminate|].
  intros ts rest items. rewrite parseElements_step.
  destruct (parseValue fuel ts) as [[v [|t after]]|] eqn:Hv; try discriminate.
  destruct t; try discriminate.
  - intros [= <- <-] members [->|[]]. now apply parseValue_enumerated in Hv.
  - destruct (parseElements fuel after) as [[vs rest']|] eqn:Hvs; [|discriminate].
    intros [= <- <-] members [->|Hin].
    + now apply parseValue_enumerated in Hv.
    + now apply (IH _ _ _ Hvs).
Qed.

(** The objects of a parsed list have their members in the order of
    the language. *)
Lemma parse_enumerated (text : string) (items : list JsValue) :
  parse text = Returned (JArray items) ->
  forall members, In (JObject members) items -> enumerated members.
Proof.
  unfold parse. destruct (lex Outside text) as [ts|]; [|discriminate].
  generalize (2 * length ts + 2). intros fuel.
  destruct (parseValue fuel ts) as [[v [|t rest]]|] eqn:Hv; try discriminate.
  intros [= ->]. destruct fuel as [|fuel]; [discriminate|].
  destruct ts as [|t ts]; [discriminate|].
  destruct t; try discriminate Hv.
  - assert (Hitems : forall ts',
               match parseElements fuel ts' with
               | Some (items', rest') => Some (JArray items', rest')
               | None => None
               end = Some (JArray items, []) ->
               forall members, In (JObject members) items -> enumerated members).
    { intros ts'. destruct (parseElements fuel ts') as [[items' rest']|] eqn:E;
        [|discriminate].
      intros [= <- ->]. now apply (parseElements_enumerated _ _ _ _ E). }
    destruct ts as [|[] ts];
      try (match type of Hv with
           | parseValue _ (TLBracket :: ?ts') = _ => apply (Hitems ts'); exact Hv
           end).
    injection Hv as <- _. intros members [].
  - destruct ts as [|[] ts]; cbn in Hv;
      try (destruct (parseMembers fuel _) as [[? ?]|]; discriminate Hv);
      discriminate Hv.
Qed.

End JsonValues.

(** **** The upload and the export on untyped values *)

Lemma filter_Returned (p : JsValue -> Outcome bool) (items kept : list JsValue) :
  Untyped.filter p items = Returned kept ->
  forall item, In item kept -> In item items /\ p item = Returned true.
Proof.
  revert kept. induction items as [|x items IH]; intros kept.
  - intros [= <-] item [].
  - cbn [Untyped.filter]. destruct (p x) as [keep|] eqn:Hx; [|discriminate].
    cbn [bind]. destruct (Untyped.filter p items) as [kept'|]; [|discriminate].
    cbn [bind]. intros [= <-] item Hitem.
    destruct keep.
    + destruct Hitem as [<-|Hitem]; [split; [now left | exact Hx]|].
      destruct (IH kept' eq_refl item Hitem) as [Hin Hp]. split; [now right | exact Hp].
    + destruct (IH kept' eq_refl item Hitem) as [Hin Hp]. split; [now right | exact Hp].
Qed.

Lemma filter_kept (p : JsValue -> Outcome bool) (items : list JsValue) :
  (forall item, In item items -> p item = Returned true) ->
  Untyped.filter p items = Returned items.
Proof.
  induction items as [|x items IH]; intros H; [reflexivity|].
  cbn [Untyped.filter]. rewrite (H x) by now left. cbn [bind].
  rewrite IH by (intros item Hitem; apply H; now right). reflexivity.
Qed.

Lemma untyped_ingest_inl (file : File.t) (now today : string) (d : RawDataset.t) :
  Untyped.ingest file now today = inl d ->
  exists items,
    Untyped.parseFile file = Returned (JArray items)
    /\ Untyped.filter Untyped.isValid items = Returned (RawDataset.data d)
    /\ RawDataset.data d <> []
    /\ d = RawDataset.mk now (stripExtension (File.name file)) today
             (length (RawDataset.data d)) (formatSize (File.size file)) "active"
             (RawDataset.data d).
Proof.
  unfold Untyped.ingest.
  destruct (Untyped.parseFile file) as [parsedData|]; [|discriminate].
  destruct (Untyped.validData parsedData) as [valid|] eqn:Hvalid; [|discriminate].
  destruct valid as [|x valid]; [discriminate|]. cbn [length Nat.eqb].
  intros [= <-]. cbn [RawDataset.data].
  destruct parsedData as [| | | |items|]; try discriminate Hvalid.
  exists items. split; [reflexivity|]. split; [exact Hvalid|].
  split; [discriminate | reflexivity].
Qed.

Lemma untyped_parseFile_export (name text : string) (size : N) :
  Untyped.parseFile (File.mk (name +:+ "_export.json") text size) = Json.parse text.
Proof.
  unfold Untyped.parseFile. cbn [File.name File.text].
  change "_export.json" with ("_export" +:+ ".json").
  now rewrite <- append_assoc, endsWith_app.
Qed.

Lemma recordValue_enumerated (r : DrugInteractionData.t) (members : list (string * JsValue)) :
  Untyped.recordValue r = JObject members -> Json.enumerated members.
Proof.
  intros [= <-]. destruct r as [d1 d2 sev desc rec [m|] [e|]];
    (split;
     [ repeat (apply NoDup_cons_2;
               [rewrite list_elem_of_In; cbn; intuition discriminate|]);
       apply NoDup_nil_2
     | vm_compute; repeat constructor ]).
Qed.

(** The objects of a parsed upload have their members in the order of
    the language. *)
Lemma parseFile_enumerated (file : File.t) (items : list JsValue) :
  Untyped.parseFile file = Returned (JArray items) ->
  forall members, In (JObject members) items -> Json.enumerated members.
Proof.
  unfold Untyped.parseFile.
  destruct (endsWith (File.name file) ".json"); [apply parse_enumerated|].
  destruct (endsWith (File.name file) ".csv").
  - intros [= <-] members Hin. apply in_map_iff in Hin as (r & Hr & _).
    now apply (recordValue_enumerated r).
  - intros [= <-] members [].
Qed.

Lemma stringRecord_stringMembers (item : JsValue) :
  stringRecord item = true -> item = Untyped.stringMembers (stringsOf item).
Proof.
  destruct item as [| | | | |members]; try discriminate.
  unfold stringRecord, stringsOf, Untyped.stringMembers. intros H. f_equal.
  induction members as [|[k v] members IH]; [reflexivity|].
  cbn [forallb snd] in H. apply andb_true_iff in H as [Hv H].
  cbn [map fst snd]. rewrite <- IH by exact H.
  destruct v; try discriminate Hv. reflexivity.
Qed.

(** Re-ingesting the export of a dataset whose records are objects with
    string members. *)
Lemma untyped_reingest_export
    (file : File.t) (now today : string) (d : RawDataset.t)
    (size : N) (now' today' : string) :
  Untyped.ingest file now today = inl d ->
  forallb stringRecord (RawDataset.data d) = true ->
  exists exported d',
    Untyped.exportDataset d = Some exported
    /\ Download.download exported = RawDataset.name d +:+ "_export.json"
    /\ Untyped.ingest
         (File.mk (Download.download exported) (Download.content exported) size)
         now' today' = inl d'
    /\ RawDataset.data d' = RawDataset.data d
    /\ RawDataset.rowCount d' = RawDataset.rowCount d.
Proof.
  intros Hd Hstrings.
  apply untyped_ingest_inl in Hd as (items & Hparse & Hfilter & Hne & Hd).
  set (valid := RawDataset.data d) in *.
  set (records := map stringsOf valid).
  rewrite forallb_forall in Hstrings.
  assert (Hvalues : map Untyped.stringMembers records = valid).
  { subst records. rewrite map_map. rewrite <- (map_id valid) at 2.
    apply map_ext_in. intros item Hitem. symmetry.
    now apply stringRecord_stringMembers, Hstrings. }
  assert (Hrecords : records <> []).
  { subst records. destruct valid; [congruence | discriminate]. }
  assert (Hread : Json.parse (recordsText records) = Returned (JArray valid)).
  { rewrite parse_recordsText by exact Hrecords. do 2 f_equal.
    etransitivity; [|exact Hvalues]. subst records. rewrite !map_map.
    apply map_ext_in. intros item Hitem.
    pose proof (stringRecord_stringMembers item (Hstrings item Hitem)) as Hitem'.
    unfold Untyped.stringMembers in Hitem' |- *. f_equal.
    apply buildObject_fixed.
    destruct (filter_Returned _ _ _ Hfilter item Hitem) as [Hin _].
    rewrite Hitem' in Hin. now apply (parseFile_enumerated file items Hparse). }
  assert (Hkept : Untyped.filter Untyped.isValid valid = Returned valid).
  { apply filter_kept. intros item Hitem.
    now destruct (filter_Returned _ _ _ Hfilter item Hitem). }
  exists (Download.mk (RawDataset.name d +:+ "_export.json") (recordsText records)).
  exists (RawDataset.mk now' (stripExtension (RawDataset.name d +:+ "_export.json")) today'
            (length valid) (formatSize size) "active" valid).
  split.
  { unfold Untyped.exportDataset. fold valid. rewrite <- Hvalues.
    now rewrite stringify_records by exact Hrecords. }
  split; [reflexivity|]. cbn [Download.download Download.content].
  split.
  { unfold Untyped.ingest. rewrite untyped_parseFile_export, Hread.
    cbn [Untyped.validData]. rewrite Hkept. cbn [File.name File.size].
    destruct valid; [congruence | reflexivity]. }
  split; [reflexivity|]. cbn [RawDataset.rowCount]. rewrite Hd. reflexivity.
Qed.

(** C7, as the specification words it, fails on a file the upload
    accepts. In [big.json] the first drug name of the one record is the
    number 1e400, which [JSON.parse] reads as Infinity; the record passes
    the filter and is stored. [JSON.stringify] prints Infinity as null, so
    the exported file has null for [drug1], and re-ingesting it finds no
    valid record: the upload is rejected. *)
Lemma C7_overflowing_number_counterexample :
  Untyped.ingest overflowJson "1700000000000" "2023-11-14"
  = inl (RawDataset.mk "1700000000000" "big" "2023-11-14" 1 "0.1 KB" "active"
           [overflowRecord])
  /\ (exists exported,
        Untyped.exportDataset
          (RawDataset.mk "1700000000000" "big" "2023-11-14" 1 "0.1 KB" "active"
             [overflowRecord]) = Some exported
        /\ Download.download exported = "big_export.json"
        /\ Json.parse (Download.content exported)
           = Returned (JArray [JObject [ ("drug1", JNull); ("drug2", JString "Warfarin");
                                         ("severity", JString "severe");
                                         ("description", JString "bleeding risk") ]])
        /\ Untyped.ingest
             (File.mk (Download.download exported) (Download.content exported) 110)
             "1700000360000" "2023-11-15" = inr NoValidData).
Proof.
  split; [vm_compute; reflexivity|].
  eexists. split; [vm_compute; reflexivity|].
  split; [reflexivity|]. split; vm_compute; reflexivity.
Qed.

(** C7 (amended): for every successfully ingested dataset whose records
    are objects with string members, as the declared record type has
    them and as every CSV upload yields them, the export has a text, and
    re-ingesting the exported file (it is named after the dataset, with
    [_export.json] appended, so it takes the JSON path) succeeds and
    yields the same records, member by member, and the same row count.
    [JSON.stringify] and [JSON.parse] are the builtins of [Module Json];
    nothing is assumed of them. *)
Theorem C7_export_reingest_roundtrip
    (file : File.t) (now today : string) (d : RawDataset.t)
    (size : N) (now' today' : string) :
  Untyped.ingest file now today = inl d ->
  forallb stringRecord (RawDataset.data d) = true ->
  exists exported d',
    Untyped.exportDataset d = Some exported
    /\ Download.download exported = RawDataset.name d +:+ "_export.json"
    /\ Untyped.ingest
         (File.mk (Download.download exported) (Download.content exported) size)
         now' today' = inl d'
    /\ RawDataset.data d' = RawDataset.data d
    /\ RawDataset.rowCount d' = RawDataset.rowCount d.
Proof. apply untyped_reingest_export. Qed.

Lemma C7_export_reingest_roundtrip_witness :
  exists exported d',
    Untyped.exportDataset
      (RawDataset.mk "1700000000000" "interactions" "2023-11-14" 1 "0.1 KB" "active"
         scenarioValues) = Some exported
    /\ Download.download exported = "interactions" +:+ "_export.json"
    /\ Untyped.ingest
         (File.mk (Download.download exported) (Download.content exported) 223)
         "1700000360000" "2023-11-15" = inl d'
    /\ RawDataset.data d' = scenarioValues
    /\ RawDataset.rowCount d' = 1.
Proof.
  apply (C7_export_reingest_roundtrip scenarioCsv "1700000000000" "2023-11-14"
           (RawDataset.mk "1700000000000" "interactions" "2023-11-14" 1 "0.1 KB" "active"
              scenarioValues)
           223 "1700000360000" "2023-11-15").
  - vm_compute. reflexivity.
  - reflexivity.
Defined.

(** *** The typed components are the untyped ones on the declared type

    Where the uploaded values have the declared type
    [DrugInteractionData[]] (every member a string), the components on
    untyped values compute the values of what the typed components
    compute. Every CSV upload is such an upload. *)

Lemma isValid_recordValue (r : DrugInteractionData.t) :
  Untyped.isValid (Untyped.recordValue r) = Returned (isValid r).
Proof.
  destruct r as [d1 d2 sev desc rec [m|] [e|]];
    unfold isValid; cbn;
    destruct (truthy d1), (truthy d2), (truthy sev), (truthy desc); reflexivity.
Qed.

Lemma filter_recordValue (records : list DrugInteractionData.t) :
  Untyped.filter Untyped.isValid (map Untyped.recordValue records)
  = Returned (map Untyped.recordValue (validData records)).
Proof.
  induction records as [|r records IH]; [reflexivity|].
  cbn [map Untyped.filter]. rewrite isValid_recordValue, IH. cbn [bind].
  unfold validData. cbn [List.filter]. now destruct (isValid r).
Qed.

(** An upload whose parsed value is a list of records of the declared
    type is stored, or rejected, as the typed upload is. *)
Lemma untyped_ingest_typed
    (JSON_parse : string -> parse_result) (file : File.t) (now today : string)
    (records : list DrugInteractionData.t) :
  parseFile JSON_parse file = Parsed records ->
  Untyped.parseFile file = Returned (JArray (map Untyped.recordValue records)) ->
  Untyped.ingest file now today
  = match ingest JSON_parse file now today with
    | inl d => inl (Untyped.datasetValue d)
    | inr _ => inr NoValidData
    end.
Proof.
  intros Htyped Huntyped. unfold Untyped.ingest, ingest.
  rewrite Htyped, Huntyped. cbn [Untyped.validData].
  rewrite filter_recordValue. cbv beta iota. rewrite length_map.
  destruct (length (validData records) =? 0)%nat; reflexivity.
Qed.

Lemma untyped_ingest_csv
    (JSON_parse : string -> parse_result) (file : File.t) (now today : string) :
  endsWith (File.name file) ".json" = false ->
  endsWith (File.name file) ".csv" = true ->
  Untyped.ingest file now today
  = match ingest JSON_parse file now today with
    | inl d => inl (Untyped.datasetValue d)
    | inr _ => inr NoValidData
    end.
Proof.
  intros Hjson Hcsv.
  apply (untyped_ingest_typed JSON_parse file now today (parseCSV (File.text file))).
  - unfold parseFile. now rewrite Hjson, Hcsv.
  - unfold Untyped.parseFile. now rewrite Hjson, Hcsv.
Qed.

Lemma namesMatch_recordValue (drug1 drug2 : string) (r : DrugInteractionData.t) :
  namesMatch drug1 drug2 (Untyped.recordValue r) = matchesItem drug1 drug2 r.
Proof. destruct r as [d1 d2 sev desc rec [m|] [e|]]; reflexivity. Qed.

Lemma storedFinding_recordValue (di dj : DrugEntry.t) (r : DrugInteractionData.t) :
  storedFinding di dj (Untyped.recordValue r) = Untyped.resultValue (findingOf di dj r).
Proof. destruct r as [d1 d2 sev desc rec [m|] [e|]]; reflexivity. Qed.

Lemma hasStringNames_recordValue (table : list DrugInteractionData.t) :
  forallb hasStringNames (map Untyped.recordValue table) = true.
Proof.
  induction table as [|r table IH]; [reflexivity|].
  cbn [map forallb]. rewrite IH.
  now destruct r as [d1 d2 sev desc rec [m|] [e|]].
Qed.

Lemma find_recordValue (drug1 drug2 : string) (table : list DrugInteractionData.t) :
  find (namesMatch drug1 drug2) (map Untyped.recordValue table)
  = Untyped.recordValue <$> find (matchesItem drug1 drug2) table.
Proof.
  induction table as [|r table IH]; [reflexivity|].
  cbn [map find]. rewrite namesMatch_recordValue.
  destruct (matchesItem drug1 drug2 r); [reflexivity | exact IH].
Qed.

Lemma storedPairFindings_recordValue (table : list DrugInteractionData.t)
    (di dj : DrugEntry.t) :
  storedPairFindings (map Untyped.recordValue table) di dj
  = map Untyped.resultValue (pairFindings table di dj).
Proof.
  unfold storedPairFindings, pairFindings, pairStep. cbv zeta.
  rewrite find_recordValue. destruct (find _ table) as [r|]; [|reflexivity].
  cbn. now rewrite storedFinding_recordValue.
Qed.

Lemma storedInteractionsOf_recordValue (table : list DrugInteractionData.t)
    (drugs : list DrugEntry.t) :
  storedInteractionsOf (map Untyped.recordValue table) drugs
  = map Untyped.resultValue (interactionsOf table drugs).
Proof.
  induction drugs as [|d rest IH]; [reflexivity|].
  cbn [storedInteractionsOf interactionsOf]. rewrite map_app, IH. f_equal.
  clear IH. induction rest as [|d' rest IH]; [reflexivity|].
  cbn [flat_map]. now rewrite map_app, storedPairFindings_recordValue, IH.
Qed.

(** The analysis against a table of the declared type returns the
    values of the findings of the typed engine, and the same alerts. *)
Lemma untyped_analyze_typed
    (drugs : list DrugEntry.t) (patientAllergies : string)
    (table : option (list DrugInteractionData.t)) :
  Untyped.analyzeInteractions drugs patientAllergies (map Untyped.recordValue <$> table)
  = Returned
      (map Untyped.resultValue (fst (analyzeInteractions drugs patientAllergies table)),
       snd (analyzeInteractions drugs patientAllergies table)).
Proof.
  destruct table as [table|]; [|reflexivity].
  destruct table as [|r table]; [reflexivity|].
  set (t := r :: table).
  assert (Hne : map Untyped.recordValue t <> []) by discriminate.
  destruct (analyzeInteractions_names _ (hasStringNames_recordValue t) drugs
              patientAllergies Hne) as [alerts Hrun].
  cbn [fmap option_fmap option_map]. rewrite Hrun.
  rewrite storedInteractionsOf_recordValue, analyzeInteractions_dataset by discriminate.
  f_equal. f_equal.
  unfold Untyped.analyzeInteractions in Hrun. cbv zeta in Hrun.
  destruct (if (0 <? length (map Untyped.recordValue t))%nat
            then Untyped.datasetInteractions drugs (map Untyped.recordValue t)
            else Returned (map Untyped.resultValue mockInteractions)) as [found|];
    [|discriminate Hrun].
  cbn [bind] in Hrun. now injection Hrun as _ <-.
Qed.

(** ** The scenarios of the specification, run end to end *)

(** Scenario 1: the CSV file is ingested as a one-record dataset;
    once it is activated, Aspirin with Warfarin gives exactly one finding,
    of severity severe. *)
Example scenario_csv_upload_then_analyze :
  let st1 := handleFileUpload JsonText.parse emptyManager (Some scenarioCsv)
               "1700000000000" "2023-11-14" in
  let st2 := activateDataset st1 "1700000000000" in
  map Dataset.data (Manager.datasets st1) = [scenarioTable]
  /\ fst (analyzeInteractions [aspirinEntry; warfarinEntry] ""
            (Manager.dashboardDataset st2))
     = [InteractionResult.mk "severe" ["Aspirin"; "Warfarin"] "bleeding risk" ""].
Proof. split; reflexivity. Qed.

(** Scenario 3: the allergy field holds "penicillin" and Amoxicillin is
    entered: one finding, of the penicillin class. *)
Example scenario_penicillin_class :
  snd (analyzeInteractions [amoxicillinEntry] "penicillin" None)
  = [AllergyAlert.mk "Amoxicillin" "penicillin" "severe"
       "Rash, hives, swelling, difficulty breathing"
       "CONTRAINDICATED - Amoxicillin contains penicillin which patient is allergic to"].
Proof. reflexivity. Qed.

(** * Further properties of the two components *)

(** ** Allergy findings: exactly the two rules *)

Lemma in_pairAlerts (a : AllergyAlert.t) (drug : DrugEntry.t) (allergy : string) :
  In a (pairAlerts drug allergy) <->
  (directMatch drug allergy = true /\ a = directAlert drug allergy)
  \/ (exists allergen info,
        In (allergen, info) commonAllergicReactions
        /\ classMatch drug allergy allergen info = true
        /\ a = classAlert drug allergy allergen info).
Proof.
  unfold pairAlerts. rewrite in_app_iff, in_flat_map. split.
  - intros [H|([allergen info] & Hin & H)].
    + left. destruct (directMatch drug allergy); [|destruct H].
      destruct H as [<-|[]]. now split.
    + right. exists allergen, info.
      destruct (classMatch drug allergy allergen info); [|destruct H].
      destruct H as [<-|[]]. now repeat split.
  - intros [[Hm ->]|(allergen & info & Hin & Hm & ->)].
    + left. rewrite Hm. now left.
    + right. exists (allergen, info). split; [assumption|]. rewrite Hm. now left.
Qed.

Lemma directMatch_Contains (drug : DrugEntry.t) (allergy : string) :
  directMatch drug allergy = true <->
  Contains (toLowerCase (DrugEntry.name drug)) (trim (toLowerCase allergy))
  \/ Contains (trim (toLowerCase allergy)) (toLowerCase (DrugEntry.name drug)).
Proof.
  unfold directMatch. cbv zeta. now rewrite orb_true_iff, !includes_Contains.
Qed.

Lemma classMatch_Contains (drug : DrugEntry.t) (allergy allergen : string)
    (info : AllergyInfo.t) :
  classMatch drug allergy allergen info = true <->
  Contains (trim (toLowerCase allergy)) allergen
  /\ exists representative,
       In representative (AllergyInfo.allergens info)
       /\ Contains (toLowerCase (DrugEntry.name drug)) representative.
Proof.
  unfold classMatch. cbv zeta.
  rewrite andb_true_iff, includes_Contains, existsb_exists.
  split; intros [H (x & Hin & Hx)]; (split; [assumption|]); exists x;
    (split; [assumption|]); now apply includes_Contains.
Qed.

(** X1: [checkAllergies] reports exactly the findings of its two rules.
    An alert is in the result if and only if it is, for some entered drug
    and some allergy term, either the AVOID alert of a direct match (one
    of the two lowercased strings contains the other, the term trimmed) or
    the CONTRAINDICATED alert of a class whose key the term contains and
    one of whose representative names the drug name contains. *)
Theorem X1_checkAllergies_exact
    (drugs : list DrugEntry.t) (allergies : list string) (a : AllergyAlert.t) :
  In a (checkAllergies drugs allergies) <->
  exists drug allergy,
    In drug drugs /\ In allergy allergies
    /\ (((Contains (toLowerCase (DrugEntry.name drug)) (trim (toLowerCase allergy))
          \/ Contains (trim (toLowerCase allergy)) (toLowerCase (DrugEntry.name drug)))
         /\ a = directAlert drug allergy)
        \/ (exists allergen info,
              In (allergen, info) commonAllergicReactions
              /\ Contains (trim (toLowerCase allergy)) allergen
              /\ (exists representative,
                    In representative (AllergyInfo.allergens info)
                    /\ Contains (toLowerCase (DrugEntry.name drug)) representative)
              /\ a = classAlert drug allergy allergen info)).
Proof.
  rewrite in_checkAllergies. split.
  - intros (drug & allergy & Hd & Ha & H). exists drug, allergy.
    split; [assumption|]. split; [assumption|].
    apply in_pairAlerts in H as [[Hm ->]|(allergen & info & Hin & Hm & ->)].
    + left. split; [now apply directMatch_Contains | reflexivity].
    + right. exists allergen, info. apply classMatch_Contains in Hm as [H1 H2].
      now repeat split.
  - intros (drug & allergy & Hd & Ha & H). exists drug, allergy.
    split; [assumption|]. split; [assumption|]. apply in_pairAlerts.
    destruct H as [[Hm ->]|(allergen & info & Hin & H1 & H2 & ->)].
    + left. split; [now apply directMatch_Contains | reflexivity].
    + right. exists allergen, info. split; [assumption|]. split; [|reflexivity].
      apply classMatch_Contains. now split.
Qed.

Lemma flat_map_length_le {A B : Type} (f : A -> list B) (k : nat) (l : list A) :
  (forall x, length (f x) <= k) -> length (flat_map f l) <= k * length l.
Proof.
  intros Hf. induction l as [|x l IH]; simpl; [lia|].
  rewrite length_app. specialize (Hf x). lia.
Qed.

Lemma pairAlerts_length (drug : DrugEntry.t) (allergy : string) :
  length (pairAlerts drug allergy) <= 6.
Proof.
  unfold pairAlerts. rewrite length_app.
  assert (H1 : length (if directMatch drug allergy
                       then [directAlert drug allergy] else []) <= 1).
  { destruct (directMatch drug allergy); simpl; lia. }
  assert (H5 : length (flat_map (fun '(allergen, info) =>
                 if classMatch drug allergy allergen info
                 then [classAlert drug allergy allergen info] else [])
                 commonAllergicReactions) <= 1 * length commonAllergicReactions).
  { apply flat_map_length_le. intros [allergen info].
    destruct (classMatch drug allergy allergen info); simpl; lia. }
  change (length commonAllergicReactions) with 5 in H5. lia.
Qed.

(** X2: [checkAllergies] returns at most six alerts for each pair of a
    drug and an allergy term (one direct, one for each of the five
    classes), and none when there is no drug or no allergy term. *)
Theorem X2_checkAllergies_bound (drugs : list DrugEntry.t) (allergies : list string) :
  length (checkAllergies drugs allergies) <= 6 * (length allergies * length drugs)
  /\ checkAllergies [] allergies = []
  /\ checkAllergies drugs [] = [].
Proof.
  rewrite !checkAllergies_flat. split; [|split; [reflexivity|]].
  - transitivity ((6 * length allergies) * length drugs); [|lia].
    apply flat_map_length_le. intros drug.
    apply flat_map_length_le, pairAlerts_length.
  - induction drugs as [|d drugs IH]; [reflexivity | exact IH].
Qed.

(** X3: the allergy field is split on commas, the pieces trimmed and the
    empty ones dropped: every alert of an analysis names a drug of the
    list and, as its allergen, a non-empty trimmed piece of the field. *)
Theorem X3_alert_allergen_from_field
    (drugs : list DrugEntry.t) (patientAllergies : string)
    (activeDataset : option (list DrugInteractionData.t)) (a : AllergyAlert.t) :
  In a (snd (analyzeInteractions drugs patientAllergies activeDataset)) ->
  (exists piece, In piece (split "," patientAllergies)
                 /\ AllergyAlert.allergen a = trim piece)
  /\ AllergyAlert.allergen a <> ""
  /\ (exists drug, In drug drugs /\ AllergyAlert.drug a = DrugEntry.name drug).
Proof.
  unfold analyzeInteractions. cbn [snd].
  destruct (truthy (trim patientAllergies)); [|intros []].
  intros H. apply in_checkAllergies in H as (drug & allergy & Hd & Ha & H).
  apply filter_In in Ha as [Ha Hne]. apply in_map_iff in Ha as (piece & <- & Hp).
  apply truthy_true in Hne.
  assert (Hfields : AllergyAlert.allergen a = trim piece
                    /\ AllergyAlert.drug a = DrugEntry.name drug).
  { apply in_pairAlerts in H as [[_ ->]|(allergen & info & _ & _ & ->)]; now split. }
  destruct Hfields as [Hal Hdr]. rewrite Hal. split; [now exists piece|].
  split; [assumption|]. now exists drug.
Qed.

Lemma X3_alert_allergen_from_field_witness :
  (exists piece, In piece (split "," " Penicillin , ,latex")
                 /\ "Penicillin" = trim piece)
  /\ "Penicillin" <> ""
  /\ (exists drug, In drug [amoxicillinEntry] /\ "Amoxicillin" = DrugEntry.name drug).
Proof.
  apply (X3_alert_allergen_from_field [amoxicillinEntry] " Penicillin , ,latex" None
           (AllergyAlert.mk "Amoxicillin" "Penicillin" "severe"
              "Rash, hives, swelling, difficulty breathing"
              "CONTRAINDICATED - Amoxicillin contains penicillin which patient is allergic to")).
  vm_compute. left. reflexivity.
Defined.

(** ** Interaction findings: how many, from where, and how they change *)

Lemma pairFindings_length (table : list DrugInteractionData.t) (di dj : DrugEntry.t) :
  length (pairFindings table di dj) <= 1.
Proof.
  unfold pairFindings, pairStep. destruct (find _ table); simpl; lia.
Qed.

Lemma interactionsOf_length (table : list DrugInteractionData.t) (drugs : list DrugEntry.t) :
  2 * length (interactionsOf table drugs) <= length drugs * (length drugs - 1).
Proof.
  induction drugs as [|d rest IH]; [simpl; lia|].
  cbn [interactionsOf]. rewrite length_app.
  pose proof (flat_map_length_le (pairFindings table d) 1 rest
                (pairFindings_length table d)) as H.
  cbn [length]. destruct rest as [|d' rest]; [simpl in *; lia|].
  cbn [length] in *. nia.
Qed.

(** X4: the double loop reports at most one finding for each pair of
    entries, n(n-1)/2 in all for n medications, and none for fewer than
    two medications. *)
Theorem X4_interactions_bound
    (drugs : list DrugEntry.t) (table : list DrugInteractionData.t) :
  2 * length (datasetInteractions drugs table) <= length drugs * (length drugs - 1)
  /\ (length drugs < 2 -> datasetInteractions drugs table = []).
Proof.
  rewrite datasetInteractions_walk. split; [apply interactionsOf_length|].
  intros Hlt. pose proof (interactionsOf_length table drugs) as H.
  destruct (interactionsOf table drugs) as [|f l]; [reflexivity|].
  destruct drugs as [|d [|d' rest]]; cbn [length] in *; lia.
Qed.

Lemma X4_interactions_bound_witness :
  datasetInteractions [aspirinEntry] scenarioTable = [].
Proof.
  apply (X4_interactions_bound [aspirinEntry] scenarioTable). simpl. lia.
Defined.

(** X5: the double loop invents nothing. Every finding it reports is
    built from two entries of the list, the first entered before the
    second, and from a record of the table that satisfies the containment
    rule for their names. *)
Theorem X5_finding_provenance
    (drugs : list DrugEntry.t) (table : list DrugInteractionData.t)
    (f : InteractionResult.t) :
  In f (datasetInteractions drugs table) ->
  exists i j A B r,
    i < j /\ drugs !! i = Some A /\ drugs !! j = Some B
    /\ In r table
    /\ containmentRule r (DrugEntry.name A) (DrugEntry.name B)
    /\ f = InteractionResult.mk (DrugInteractionData.severity r)
             [DrugEntry.name A; DrugEntry.name B]
             (DrugInteractionData.description r)
             (DrugInteractionData.recommendation r).
Proof.
  rewrite datasetInteractions_walk. intros H.
  apply in_interactionsOf in H as (i & j & A & B & Hlt & Hi & Hj & H).
  apply in_pairFindings in H as (r & Hm & ->).
  apply find_some in Hm as [Hin Hp]. apply matchesItem_rule in Hp.
  exists i, j, A, B, r. now repeat split.
Qed.

Lemma X5_finding_provenance_witness :
  exists i j A B r,
    i < j /\ [aspirinEntry; warfarinEntry] !! i = Some A
    /\ [aspirinEntry; warfarinEntry] !! j = Some B
    /\ In r rankedTable
    /\ containmentRule r (DrugEntry.name A) (DrugEntry.name B)
    /\ InteractionResult.mk "mild" ["Aspirin"; "Warfarin"] "first match" "monitor"
       = InteractionResult.mk (DrugInteractionData.severity r)
           [DrugEntry.name A; DrugEntry.name B]
           (DrugInteractionData.description r)
           (DrugInteractionData.recommendation r).
Proof.
  apply (X5_finding_provenance [aspirinEntry; warfarinEntry] rankedTable
           (InteractionResult.mk "mild" ["Aspirin"; "Warfarin"] "first match" "monitor")).
  vm_compute. left. reflexivity.
Defined.









(** ** The medication form *)

Lemma filter_all {A : Type} (p : A -> bool) (l : list A) :
  (forall x, In x l -> p x = true) -> List.filter p l = l.
Proof.
  intros H. induction l as [|x l IH]; [reflexivity|]. simpl.
  rewrite (H x) by now left. f_equal. apply IH. intros y Hy. apply H. now right.
Qed.

(** X8: a medication with a blank name is never stored. Typing a name
    and pressing add leaves the list as it was when the name is empty
    after trimming; otherwise one entry is appended, with the name as
    typed (not trimmed), and the form is cleared. Either way every stored
    name stays non-blank. *)
Theorem X8_addDrug_guard (st : Dashboard.t) (value now : string) :
  (forall d, In d (Dashboard.drugs st) -> trim (DrugEntry.name d) <> "") ->
  let st' := addDrug (typeDrugName st value) now in
  (forall d, In d (Dashboard.drugs st') -> trim (DrugEntry.name d) <> "")
  /\ (trim value = "" -> st' = typeDrugName st value)
  /\ (trim value <> "" ->
      Dashboard.drugs st'
      = Dashboard.drugs st
        ++ [DrugEntry.mk now value (DrugForm.dosage (Dashboard.currentDrug st))
              (DrugForm.frequency (Dashboard.currentDrug st))]
      /\ Dashboard.currentDrug st' = DrugForm.mk "" "" "").
Proof.
  intros Hinv st'. subst st'. unfold addDrug.
  cbn [typeDrugName Dashboard.currentDrug DrugForm.name DrugForm.dosage
       DrugForm.frequency Dashboard.drugs].
  destruct (truthy (trim value)) eqn:E.
  - apply truthy_true in E. cbn [Dashboard.drugs Dashboard.currentDrug].
    split; [|split; [congruence | now intros _]].
    intros d Hd. apply in_app_or in Hd as [Hd|[<-|[]]]; [now apply Hinv | exact E].
  - assert (Hblank : trim value = "").
    { destruct (String.eqb_spec (trim value) ""); [assumption|].
      apply truthy_true in n. congruence. }
    cbn [Dashboard.drugs]. split; [exact Hinv|]. split; [reflexivity | congruence].
Qed.

Lemma X8_addDrug_guard_witness :
  let st' := addDrug (typeDrugName (Dashboard.mk [aspirinEntry] "" "" (DrugForm.mk "" "5mg" "Daily")
                                      false [] [] None) "   ") "1700000000009" in
  (forall d, In d (Dashboard.drugs st') -> trim (DrugEntry.name d) <> "")
  /\ (trim "   " = "" ->
      st' = typeDrugName (Dashboard.mk [aspirinEntry] "" "" (DrugForm.mk "" "5mg" "Daily")
                            false [] [] None) "   ")
  /\ (trim "   " <> "" ->
      Dashboard.drugs st'
      = [aspirinEntry] ++ [DrugEntry.mk "1700000000009" "   " "5mg" "Daily"]
      /\ Dashboard.currentDrug st' = DrugForm.mk "" "" "").
Proof.
  apply (X8_addDrug_guard
           (Dashboard.mk [aspirinEntry] "" "" (DrugForm.mk "" "5mg" "Daily") false [] [] None)
           "   " "1700000000009").
  intros d [<-|[]]. vm_compute. discriminate.
Defined.

(** X9: [removeDrug] removes every entry that carries the id and no
    other; adding a medication under an id that no entry carries and
    removing that id again gives back the list. *)
Theorem X9_remove_undoes_add (st : Dashboard.t) (now id : string) :
  (forall d, In d (Dashboard.drugs (removeDrug st id)) <->
             In d (Dashboard.drugs st) /\ DrugEntry.id d <> id)
  /\ ((forall d, In d (Dashboard.drugs st) -> DrugEntry.id d <> now) ->
      Dashboard.drugs (removeDrug (addDrug st now) now) = Dashboard.drugs st).
Proof.
  split.
  - intros d. unfold removeDrug. cbn [Dashboard.drugs].
    rewrite filter_In, negb_true_iff, String.eqb_neq. tauto.
  - intros Hfresh. unfold removeDrug. cbn [Dashboard.drugs].
    assert (Hkeep : List.filter (fun drug => negb (String.eqb (DrugEntry.id drug) now))
                      (Dashboard.drugs st) = Dashboard.drugs st).
    { apply filter_all. intros d Hd. apply negb_true_iff, String.eqb_neq. now apply Hfresh. }
    unfold addDrug. destruct (truthy _); [|exact Hkeep].
    cbn [Dashboard.drugs]. rewrite List.filter_app, Hkeep. cbn [List.filter DrugEntry.id].
    rewrite String.eqb_refl. cbn [negb]. apply app_nil_r.
Qed.

Lemma X9_remove_undoes_add_witness :
  Dashboard.drugs
    (removeDrug
       (addDrug (Dashboard.mk [aspirinEntry] "" "" (DrugForm.mk "Warfarin" "5mg" "Daily")
                   false [] [] None) "1700000000002")
       "1700000000002")
  = [aspirinEntry].
Proof.
  apply (X9_remove_undoes_add
           (Dashboard.mk [aspirinEntry] "" "" (DrugForm.mk "Warfarin" "5mg" "Daily")
              false [] [] None) "1700000000002" "1700000000002").
  intros d [<-|[]]. vm_compute. discriminate.
Defined.

(** ** The CSV parser *)

Lemma lowerChar_idem (c : ascii) : lowerChar (lowerChar c) = lowerChar c.
Proof. destruct c as [[] [] [] [] [] [] [] []]; reflexivity. Qed.

Lemma toLowerCase_idem (s : string) : toLowerCase (toLowerCase s) = toLowerCase s.
Proof. induction s as [|c s IH]; simpl; [reflexivity|]. now rewrite lowerChar_idem, IH. Qed.

Lemma toLowerCase_truthy (s : string) : truthy (toLowerCase s) = truthy s.
Proof. now destruct s. Qed.

Lemma orElse_truthy (a b : string) : truthy b = true -> truthy (orElse a b) = true.
Proof. unfold orElse. now destruct (truthy a) eqn:E. Qed.

Lemma orElseU_truthy (a : option string) (b : string) :
  truthy b = true -> truthy (orElseU a b) = true.
Proof. destruct a; simpl; [apply orElse_truthy | trivial]. Qed.

(** X10: on the CSV path the severity is never missing. Every record
    the CSV parser builds has a non-empty, lowercased severity ("mild"
    when the column is absent or the cell empty) and carries a mechanism
    and an evidence level; so a CSV row is retained by the validity filter
    exactly when its two drug names and its description are non-empty. *)
Theorem X10_csv_severity_default (text : string) (r : DrugInteractionData.t) :
  In r (parseCSV text) ->
  DrugInteractionData.severity r <> ""
  /\ toLowerCase (DrugInteractionData.severity r) = DrugInteractionData.severity r
  /\ DrugInteractionData.mechanism r <> None
  /\ DrugInteractionData.evidence_level r <> None
  /\ (isValid r = true <->
      DrugInteractionData.drug1 r <> "" /\ DrugInteractionData.drug2 r <> ""
      /\ DrugInteractionData.description r <> "").
Proof.
  unfold parseCSV. destruct (split newline text) as [|line0 rest]; [intros []|].
  rewrite in_map_iff. intros (line & <- & _).
  set (obj := rowObject _ _).
  assert (Hsev : truthy (DrugInteractionData.severity (rowRecord obj)) = true).
  { cbn [rowRecord DrugInteractionData.severity].
    rewrite toLowerCase_truthy. now apply orElseU_truthy. }
  split; [now apply truthy_true|].
  split; [cbn [rowRecord DrugInteractionData.severity]; apply toLowerCase_idem|].
  split; [discriminate|]. split; [discriminate|].
  unfold isValid. rewrite Hsev, !andb_true_iff, !truthy_true. tauto.
Qed.

Lemma X10_csv_severity_default_witness :
  "mild" <> ""
  /\ toLowerCase "mild" = "mild"
  /\ Some "" <> (None : option string)
  /\ Some "" <> (None : option string)
  /\ (isValid (DrugInteractionData.mk "Aspirin" "Warfarin" "mild" "" "" (Some "") (Some ""))
      = true <->
      "Aspirin" <> "" /\ "Warfarin" <> "" /\ "" <> "").
Proof.
  apply (X10_csv_severity_default
           ("drug1,drug2" +:+ JsonText.nl +:+ "Aspirin,Warfarin")
           (DrugInteractionData.mk "Aspirin" "Warfarin" "mild" "" "" (Some "") (Some ""))).
  vm_compute. left. reflexivity.
Defined.

Lemma split_no_separator (sep : ascii) (s : string) :
  occurs sep s = false -> split sep s = [s].
Proof.
  induction s as [|c s IH]; [reflexivity|]. simpl.
  destruct (Ascii.eqb c sep); [discriminate|]. simpl. intros H. now rewrite IH.
Qed.

(** X11: uploads that cannot yield a record are rejected and leave the
    dataset list as it was: a file whose name ends neither in .json nor
    in .csv, and a CSV file that has nothing after its first line (a
    header alone, or an empty file). The notification is the one of an
    upload without valid data. *)
Theorem X11_upload_without_rows_rejected
    (JSON_parse : string -> parse_result) (st : Manager.t) (file : File.t)
    (now today : string) :
  endsWith (File.name file) ".json" = false ->
  endsWith (File.name file) ".csv" = false
  \/ occurs newline (File.text file) = false ->
  let st' := handleFileUpload JSON_parse st (Some file) now today in
  Manager.datasets st' = Manager.datasets st
  /\ Manager.activeDataset st' = Manager.activeDataset st
  /\ Manager.dashboardDataset st' = Manager.dashboardDataset st
  /\ Manager.toasts st'
     = Manager.toasts st
       ++ [Toast.mk "Upload failed" "No valid drug interaction data found in file"
             (Some "destructive")].
Proof.
  intros Hjson Hcase st'. subst st'. unfold handleFileUpload, ingest, parseFile.
  rewrite Hjson.
  assert (Hparsed : (if endsWith (File.name file) ".csv"
                     then Parsed (parseCSV (File.text file)) else Parsed [])
                    = Parsed []).
  { destruct (endsWith (File.name file) ".csv"); [|reflexivity].
    destruct Hcase as [Hcsv|Hnl]; [discriminate|].
    unfold parseCSV. now rewrite (split_no_separator _ _ Hnl). }
  rewrite Hparsed. cbn. now repeat split.
Qed.

Lemma X11_upload_without_rows_rejected_witness :
  let st' := handleFileUpload JsonText.parse emptyManager
               (Some (File.mk "header-only.csv" csvHeader 32)) "1700000000000" "2023-11-14" in
  Manager.datasets st' = []
  /\ Manager.activeDataset st' = None
  /\ Manager.dashboardDataset st' = None
  /\ Manager.toasts st'
     = [] ++ [Toast.mk "Upload failed" "No valid drug interaction data found in file"
                (Some "destructive")].
Proof.
  apply (X11_upload_without_rows_rejected JsonText.parse emptyManager
           (File.mk "header-only.csv" csvHeader 32) "1700000000000" "2023-11-14").
  - reflexivity.
  - right. reflexivity.
Defined.

(** *** Line endings *)

Lemma trimEnd_snoc (c : ascii) (s : string) :
  isWhiteSpace c = true -> trimEnd (s +:+ String c "") = trimEnd s.
Proof.
  intros Hc. induction s as [|x s IH].
  - rewrite append_nil_l. simpl. now rewrite Hc.
  - rewrite append_cons. simpl. now rewrite IH.
Qed.

Lemma trim_snoc (c : ascii) (s : string) :
  isWhiteSpace c = true -> trim (s +:+ String c "") = trim s.
Proof.
  intros Hc. unfold trim. induction s as [|x s IH].
  - rewrite append_nil_l. simpl. now rewrite Hc.
  - rewrite append_cons. simpl. destruct (isWhiteSpace x); [exact IH|].
    rewrite <- append_cons. now apply trimEnd_snoc.
Qed.

Lemma split_snoc (sep c : ascii) (s : string) :
  Ascii.eqb c sep = false ->
  exists init last,
    split sep s = init ++ [last]
    /\ split sep (s +:+ String c "") = init ++ [last +:+ String c ""].
Proof.
  intros Hc. induction s as [|x s (init & last & Hs & Hsc)].
  - exists [], "". rewrite append_nil_l. simpl. now rewrite Hc.
  - rewrite append_cons. simpl. rewrite Hs, Hsc. destruct (Ascii.eqb x sep).
    + exists ("" :: init), last. now split.
    + destruct init as [|p init].
      * exists [], (String x last). now split.
      * exists (String x p :: init), last. now split.
Qed.

(** A line and the same line followed by a carriage return are read
    alike, as a header line and as a data line. *)
Lemma line_with_CR (line : string) :
  let lineCR := line +:+ String (ascii_of_nat 13) "" in
  map (fun h => toLowerCase (trim h)) (split "," lineCR)
  = map (fun h => toLowerCase (trim h)) (split "," line)
  /\ rowValues lineCR = rowValues line
  /\ truthy (trim lineCR) = truthy (trim line).
Proof.
  intros lineCR. subst lineCR.
  destruct (split_snoc "," (ascii_of_nat 13) line eq_refl) as (init & last & Hs & Hsc).
  unfold rowValues. rewrite Hs, Hsc, !map_app. cbn [map].
  rewrite !trim_snoc by reflexivity. now repeat split.
Qed.

Lemma split_withCarriageReturns (text : string) :
  Forall2 (fun a b => a = b \/ a = b +:+ String (ascii_of_nat 13) "")
    (split newline (withCarriageReturns text)) (split newline text).
Proof.
  induction text as [|c text IH]; [repeat constructor|].
  cbn [withCarriageReturns]. destruct (Ascii.eqb c newline) eqn:E.
  - cbn [split]. rewrite E.
    change (Ascii.eqb (ascii_of_nat 13) newline) with false. cbv iota.
    constructor; [now right | exact IH].
  - cbn [split]. rewrite E.
    destruct IH as [|a b l l' [->| ->] IH].
    + repeat constructor.
    + constructor; [now left | assumption].
    + constructor; [now right | assumption].
Qed.

(** X12: CSV files with Windows line endings are ingested like their
    Unix form: putting a carriage return before every line feed of the
    text changes no record. *)
Theorem X12_csv_line_endings (text : string) :
  parseCSV (withCarriageReturns text) = parseCSV text.
Proof.
  unfold parseCSV. pose proof (split_withCarriageReturns text) as H.
  destruct H as [|line0' line0 rest' rest H0 Hrest]; [reflexivity|].
  assert (Hh : map (fun h => toLowerCase (trim h)) (split "," line0')
               = map (fun h => toLowerCase (trim h)) (split "," line0)).
  { destruct H0 as [->| ->]; [reflexivity | apply line_with_CR]. }
  rewrite Hh. clear H0 Hh.
  induction Hrest as [|a b l l' Hab _ IH]; [reflexivity|].
  assert (Hline : rowValues a = rowValues b /\ truthy (trim a) = truthy (trim b)).
  { destruct Hab as [->| ->]; [now split | apply line_with_CR]. }
  destruct Hline as [Hv Ht]. cbn [List.filter]. rewrite Ht.
  destruct (truthy (trim b)); [|exact IH]. cbn [map]. now rewrite Hv, IH.
Qed.

(** ** The dataset manager over any sequence of actions *)

Section ManagerInvariants.

Variable JSON_parse : string -> parse_result.

Lemma ingest_wellFormed (file : File.t) (now today : string) (d : Dataset.t) :
  ingest JSON_parse file now today = inl d -> wellFormedDataset d.
Proof.
  intros H. apply ingest_inl in H as (parsedData & _ & Hne & ->).
  unfold wellFormedDataset. cbn [Dataset.rowCount Dataset.data Dataset.status].
  repeat split; try assumption.
  intros item Hin. unfold validData in Hin. now apply filter_In in Hin.
Qed.

Lemma invariant_step (st : Manager.t) (ev : ManagerEvent) :
  managerInvariant st -> managerInvariant (managerStep JSON_parse st ev).
Proof.
  intros (Hd & Ha & Hp). destruct ev as [[file|] now today|datasetId| |datasetId|row];
    cbn [managerStep].
  - unfold handleFileUpload.
    destruct (ingest JSON_parse file now today) as [d|m] eqn:E;
      (split; [|split]); cbn; try assumption.
    + intros d' Hin. apply in_app_or in Hin as [Hin|[<-|[]]]; [now apply Hd|].
      now apply (ingest_wellFormed file now today).
    + unfold activeConsistent in *. cbn.
      destruct (Manager.activeDataset st); [|assumption].
      destruct Ha as (d' & Hin & Hid & Hdash). exists d'.
      repeat split; try assumption. apply in_or_app. now left.
  - split; [|split]; assumption.
  - unfold activateDataset.
    destruct (find _ (Manager.datasets st)) as [d|] eqn:E; [|split; [|split]; assumption].
    apply find_some in E as [Hin Hid]. apply String.eqb_eq in Hid.
    split; [|split]; cbn; try assumption. unfold activeConsistent. cbn. now exists d.
  - split; [|split]; [exact Hd | reflexivity | exact Hp].
  - unfold deleteDataset.
    assert (Hf : forall d,
               In d (List.filter (fun d => negb (String.eqb (Dataset.id d) datasetId))
                       (Manager.datasets st)) -> wellFormedDataset d).
    { intros d Hin. apply filter_In in Hin as [Hin _]. now apply Hd. }
    unfold activeConsistent in Ha.
    destruct (Manager.activeDataset st) as [active|] eqn:Eact.
    + destruct (String.eqb active datasetId) eqn:E;
        (split; [|split]); cbn; try assumption; unfold activeConsistent; cbn.
      * reflexivity.
      * destruct Ha as (d & Hin & Hid & Hdash). exists d.
        repeat split; try assumption. apply filter_In. split; [assumption|].
        rewrite Hid. now rewrite E.
    + split; [|split]; cbn; assumption.
  - destruct (Manager.datasets st !! row) as [d|] eqn:E; [|split; [|split]; assumption].
    split; [|split]; cbn; try assumption. intros rows [= <-].
    split; [rewrite length_take; lia|].
    intros item Hin. apply list_elem_of_In in Hin.
    apply (elem_of_sublist _ (Dataset.data d)) in Hin; [|apply sublist_take].
    apply list_elem_of_In in Hin.
    assert (Hwf : wellFormedDataset d).
    { apply Hd, list_elem_of_In, list_elem_of_lookup. now exists row. }
    destruct Hwf as (_ & _ & Hvalid & _). now apply Hvalid.
Qed.

Lemma invariant_run (events : list ManagerEvent) :
  managerInvariant (managerRun JSON_parse events).
Proof.
  unfold managerRun.
  assert (H0 : managerInvariant emptyManager).
  { split; [intros d []|]. split; [reflexivity | discriminate]. }
  revert H0. generalize emptyManager as st.
  induction events as [|ev events IH]; intros st Hst; [exact Hst|].
  cbn [foldl]. apply IH. now apply invariant_step.
Qed.

Lemma run_datasets_wellFormed (events : list ManagerEvent) (d : Dataset.t) :
  In d (Manager.datasets (managerRun JSON_parse events)) -> wellFormedDataset d.
Proof. apply invariant_run. Qed.

Lemma run_activeConsistent (events : list ManagerEvent) :
  activeConsistent (managerRun JSON_parse events).
Proof. apply invariant_run. Qed.

Lemma run_preview (events : list ManagerEvent) (rows : list DrugInteractionData.t) :
  Manager.previewData (managerRun JSON_parse events) = Some rows ->
  length rows <= 10 /\ forall item, In item rows -> isValid item = true.
Proof. apply invariant_run. Qed.

End ManagerInvariants.



(** X14: whatever the user does on the dataset tab, the table the
    dashboard holds is the record list of a stored dataset that carries
    the active id, and the dashboard holds none when no dataset is
    active: a deleted dataset is never left in use. *)
Theorem X14_dashboard_table_is_stored
    (JSON_parse : string -> parse_result) (events : list ManagerEvent) :
  let st := managerRun JSON_parse events in
  match Manager.activeDataset st with
  | Some datasetId =>
      exists d, In d (Manager.datasets st)
                /\ Dataset.id d = datasetId
                /\ Manager.dashboardDataset st = Some (Dataset.data d)
  | None => Manager.dashboardDataset st = None
  end.
Proof. intros st. subst st. apply (run_activeConsistent JSON_parse events). Qed.

(** X15: across the two components, the analysis returns the built-in
    samples exactly when no dataset is active. After any sequence of
    actions on the dataset tab, with no active dataset the interaction
    findings are the sample list, and with an active id they are the
    findings of the double loop over a stored dataset with that id. *)
Theorem X15_samples_iff_no_active_dataset
    (JSON_parse : string -> parse_result) (events : list ManagerEvent)
    (drugs : list DrugEntry.t) (patientAllergies : string) :
  let st := managerRun JSON_parse events in
  let findings :=
    fst (analyzeInteractions drugs patientAllergies (Manager.dashboardDataset st)) in
  match Manager.activeDataset st with
  | Some datasetId =>
      exists d, In d (Manager.datasets st)
                /\ Dataset.id d = datasetId
                /\ findings = datasetInteractions drugs (Dataset.data d)
  | None => findings = mockInteractions
  end.
Proof.
  intros st findings. subst findings.
  pose proof (run_activeConsistent JSON_parse events) as Ha.
  unfold activeConsistent in Ha. fold st in Ha.
  destruct (Manager.activeDataset st) as [datasetId|].
  - destruct Ha as (d & Hin & Hid & Hdash). exists d. repeat split; try assumption.
    rewrite Hdash. apply (run_datasets_wellFormed JSON_parse events) in Hin.
    destruct Hin as (_ & Hne & _). unfold analyzeInteractions. cbn [fst].
    destruct (Dataset.data d); [congruence | reflexivity].
  - now rewrite Ha.
Qed.

(** X16: the preview never shows more than ten rows, and every row it
    shows passed the validity filter. *)
Theorem X16_preview_at_most_ten
    (JSON_parse : string -> parse_result) (events : list ManagerEvent)
    (rows : list DrugInteractionData.t) :
  Manager.previewData (managerRun JSON_parse events) = Some rows ->
  length rows <= 10 /\ forall item, In item rows -> isValid item = true.
Proof. apply run_preview. Qed.

Lemma X16_preview_at_most_ten_witness :
  length scenarioTable <= 10 /\ forall item, In item scenarioTable -> isValid item = true.
Proof.
  apply (X16_preview_at_most_ten JsonText.parse
           [Upload (Some scenarioCsv) "1700000000000" "2023-11-14"; Preview 0]
           scenarioTable).
  reflexivity.
Defined.

(** ** Names, sizes and colours *)

Lemma occurs_app (c : ascii) (a b : string) :
  occurs c (a +:+ b) = occurs c a || occurs c b.
Proof.
  induction a as [|x a IH]; [reflexivity|].
  rewrite append_cons. simpl. rewrite IH. apply orb_assoc.
Qed.

Lemma stripExtension_no_dot (name : string) :
  occurs "." name = false -> stripExtension name = name.
Proof.
  induction name as [|c rest IH]; [reflexivity|]. simpl.
  destruct (Ascii.eqb c ".") eqn:E; [discriminate|]. simpl. intros H. now rewrite IH.
Qed.

Lemma stripExtension_ext (base ext : string) :
  ext <> "" -> occurs "." ext = false -> occurs "/" ext = false ->
  stripExtension (base +:+ "." +:+ ext) = base.
Proof.
  intros Hne Hdot Hslash. apply truthy_true in Hne.
  induction base as [|c base IH].
  - rewrite append_nil_l. change ("." +:+ ext) with (String "." ext).
    cbn [stripExtension]. now rewrite Hne, Hslash, Hdot.
  - rewrite append_cons. cbn [stripExtension].
    assert (Hocc : occurs "." (base +:+ "." +:+ ext) = true).
    { rewrite occurs_app. change ("." +:+ ext) with (String "." ext).
      simpl. apply orb_true_r. }
    rewrite Hocc, andb_false_r. now rewrite IH.
Qed.

(** X17: the dataset name is the file name without its last extension.
    A file name made of a base, a dot and a non-empty extension without
    dot or slash gives the base; a file name without a dot is kept as it
    is. *)
Theorem X17_dataset_name_drops_extension (base ext : string) :
  ext <> "" -> occurs "." ext = false -> occurs "/" ext = false ->
  stripExtension (base +:+ "." +:+ ext) = base
  /\ (occurs "." base = false -> stripExtension base = base).
Proof.
  intros Hne Hdot Hslash. split; [now apply stripExtension_ext|].
  apply stripExtension_no_dot.
Qed.

Lemma X17_dataset_name_drops_extension_witness :
  stripExtension ("interactions.2023" +:+ "." +:+ "csv") = "interactions.2023"
  /\ (occurs "." "interactions.2023" = false ->
      stripExtension "interactions.2023" = "interactions.2023").
Proof.
  apply (X17_dataset_name_drops_extension "interactions.2023" "csv");
    [discriminate | reflexivity | reflexivity].
Defined.

(** X18: an export that is uploaded again is stored under the name of
    the exported dataset followed by "_export". *)
Theorem X18_reingested_export_name
    (JSON_parse : string -> parse_result)
    (JSON_stringify : list DrugInteractionData.t -> string)
    (d d' : Dataset.t) (size : N) (now today : string) :
  ingest JSON_parse
    (File.mk (Download.download (exportDataset JSON_stringify d))
       (Download.content (exportDataset JSON_stringify d)) size)
    now today = inl d' ->
  Dataset.name d' = Dataset.name d +:+ "_export".
Proof.
  intros H. apply ingest_inl in H as (parsedData & _ & _ & ->).
  cbn [Dataset.name File.name exportDataset Download.download].
  change "_export.json" with ("_export" +:+ "." +:+ "json").
  rewrite <- append_assoc. now apply stripExtension_ext.
Qed.

Lemma X18_reingested_export_name_witness :
  Dataset.name
    (Dataset.mk "1700000360000" "interactions_export" "2023-11-15" 1 "0.2 KB" "active"
       scenarioTable)
  = "interactions" +:+ "_export".
Proof.
  apply (X18_reingested_export_name JsonText.parse JsonText.stringify
           (Dataset.mk "1700000000000" "interactions" "2023-11-14" 1 "0.1 KB" "active"
              scenarioTable)
           (Dataset.mk "1700000360000" "interactions_export" "2023-11-15" 1 "0.2 KB" "active"
              scenarioTable)
           223 "1700000360000" "2023-11-15").
  reflexivity.
Defined.

Lemma digit_string (d : N) :
  (d < 10)%N -> NilEmpty.string_of_uint (N.to_uint d) = digitString d.
Proof.
  intros H.
  assert (Hd : (d = 0 \/ d = 1 \/ d = 2 \/ d = 3 \/ d = 4 \/ d = 5 \/ d = 6
                \/ d = 7 \/ d = 8 \/ d = 9)%N) by lia.
  repeat (destruct Hd as [->|Hd]; [reflexivity|]). now subst.
Qed.

(** X19: the size shown for a dataset is the file size in units of 1024
    bytes, rounded to the nearest tenth (a tie goes up): for a size that
    a number holds exactly (below 2^53) it reads [whole.tenth KB] with a
    single digit after the point, and [whole + tenth/10] is within a
    twentieth of [size / 1024]. *)
Theorem X19_file_size_rounded (size : N) :
  (size < 2 ^ 53)%N ->
  exists whole tenth : N,
    (tenth < 10)%N
    /\ formatSize size
       = NilEmpty.string_of_uint (N.to_uint whole) +:+ "." +:+ digitString tenth +:+ " KB"
    /\ (1024 * (10 * whole + tenth) <= 10 * size + 512
        < 1024 * (10 * whole + tenth) + 1024)%N.
Proof.
  intros _. set (tenths := ((size * 10 + 512) / 1024)%N).
  exists (tenths / 10)%N, (tenths mod 10)%N.
  assert (Hlt : (tenths mod 10 < 10)%N) by (apply N.mod_lt; lia).
  split; [exact Hlt|]. split.
  - unfold formatSize. fold tenths. cbv zeta. now rewrite (digit_string _ Hlt).
  - rewrite <- (N.div_mod tenths 10) by lia.
    pose proof (N.Div0.mul_div_le (size * 10 + 512) 1024) as Hle.
    pose proof (N.mul_succ_div_gt (size * 10 + 512) 1024) as Hgt.
    fold tenths in Hle, Hgt. lia.
Qed.

Lemma X19_file_size_rounded_witness :
  exists whole tenth : N,
    (tenth < 10)%N
    /\ formatSize 123456
       = NilEmpty.string_of_uint (N.to_uint whole) +:+ "." +:+ digitString tenth +:+ " KB"
    /\ (1024 * (10 * whole + tenth) <= 10 * 123456 + 512
        < 1024 * (10 * whole + tenth) + 1024)%N.
Proof. apply (X19_file_size_rounded 123456). reflexivity. Defined.

(** X20: the results panel and the dataset preview colour a severity
    alike exactly when it is one of severe, moderate, mild and safe. Any
    other severity (the CSV path stores what the file holds) gets the
    muted class in the results and the class of safe in the preview. *)
Theorem X20_severity_colours (severity : string) :
  (getSeverityColor severity = previewSeverityClass severity <->
   severity = "severe" \/ severity = "moderate" \/ severity = "mild" \/ severity = "safe")
  /\ (severity <> "severe" -> severity <> "moderate" -> severity <> "mild" ->
      severity <> "safe" ->
      getSeverityColor severity = "bg-muted"
      /\ previewSeverityClass severity = "bg-safe text-white").
Proof.
  unfold getSeverityColor, previewSeverityClass.
  destruct (String.eqb_spec severity "severe") as [->|H1]; [split; [tauto | congruence]|].
  destruct (String.eqb_spec severity "moderate") as [->|H2]; [split; [tauto | congruence]|].
  destruct (String.eqb_spec severity "mild") as [->|H3]; [split; [tauto | congruence]|].
  destruct (String.eqb_spec severity "safe") as [->|H4]; [split; [tauto | congruence]|].
  split; [|now split]. split; [discriminate | tauto].
Qed.

Lemma X20_severity_colours_witness :
  getSeverityColor "high" = "bg-muted" /\ previewSeverityClass "high" = "bg-safe text-white".
Proof.
  apply (X20_severity_colours "high"); discriminate.
Defined.

(** *** Plain CSV text is read back as written *)

Lemma split_app_sep (sep : ascii) (x rest : string) :
  occurs sep x = false -> split sep (x +:+ String sep rest) = x :: split sep rest.
Proof.
  induction x as [|c x IH]; intros H.
  - rewrite append_nil_l. simpl. now rewrite Ascii.eqb_refl.
  - rewrite append_cons. simpl in *. destruct (Ascii.eqb c sep); [discriminate|].
    now rewrite IH.
Qed.

Lemma split_join (sep : ascii) (pieces : list string) :
  pieces <> [] -> (forall x, In x pieces -> occurs sep x = false) ->
  split sep (JsonText.join (String sep "") pieces) = pieces.
Proof.
  induction pieces as [|x l IH]; [congruence|]. intros _ H.
  destruct l as [|y l].
  - apply split_no_separator, H. now left.
  - change (JsonText.join (String sep "") (x :: y :: l))
      with (x +:+ String sep "" +:+ JsonText.join (String sep "") (y :: l)).
    change (String sep "" +:+ ?r) with (String sep r).
    rewrite split_app_sep by (apply H; now left). f_equal.
    apply IH; [discriminate|]. intros z Hz. apply H. now right.
Qed.

Lemma occurs_trimStart (c : ascii) (s : string) :
  isWhiteSpace c = false -> occurs c s = true -> occurs c (trimStart s) = true.
Proof.
  intros Hc. induction s as [|x s IH]; [discriminate|]. simpl.
  destruct (isWhiteSpace x) eqn:Hx; [|trivial].
  destruct (Ascii.eqb_spec x c) as [->|_]; [congruence | exact IH].
Qed.

Lemma occurs_trimEnd (c : ascii) (s : string) :
  isWhiteSpace c = false -> occurs c s = true -> occurs c (trimEnd s) = true.
Proof.
  intros Hc. induction s as [|x s IH]; [discriminate|]. simpl. intros H.
  destruct (trimEnd s) as [|y r] eqn:E.
  - destruct (Ascii.eqb_spec x c) as [->|_].
    + rewrite Hc. simpl. now rewrite Ascii.eqb_refl.
    + simpl in H. specialize (IH H). discriminate.
  - simpl. destruct (Ascii.eqb x c); [reflexivity|]. simpl in H. now apply IH.
Qed.

Lemma trim_truthy (c : ascii) (s : string) :
  isWhiteSpace c = false -> occurs c s = true -> truthy (trim s) = true.
Proof.
  intros Hc H. unfold trim.
  pose proof (occurs_trimEnd c _ Hc (occurs_trimStart c s Hc H)) as Ho.
  now destruct (trimEnd (trimStart s)).
Qed.

Lemma removeAll_absent (c : ascii) (s : string) :
  occurs c s = false -> removeAll c s = s.
Proof.
  induction s as [|x s IH]; [reflexivity|]. simpl.
  destruct (Ascii.eqb x c); [discriminate|]. simpl. intros H. now rewrite IH.
Qed.

Lemma orElse_empty (s : string) : orElse s "" = s.
Proof. now destruct s. Qed.

Lemma join_cells (r : DrugInteractionData.t) :
  exists first rest,
    JsonText.join "," (csvCells r) = first +:+ String "," rest
    /\ In first (csvCells r).
Proof. eexists. eexists. split; [reflexivity | now left]. Qed.

Lemma occurs_join_cells (c : ascii) (r : DrugInteractionData.t) :
  Ascii.eqb "," c = false ->
  (forall x, In x (csvCells r) -> occurs c x = false) ->
  occurs c (JsonText.join "," (csvCells r)) = false.
Proof.
  intros Hc H. unfold csvCells in *.
  change (JsonText.join "," [?a; ?b; ?c'; ?d; ?e; ?f; ?g])
    with (a +:+ String "," (b +:+ String "," (c' +:+ String "," (d +:+ String ","
            (e +:+ String "," (f +:+ String "," g)))))).
  repeat (rewrite occurs_app; cbn [occurs]; rewrite Hc, orb_false_l).
  rewrite !H by (simpl; tauto). reflexivity.
Qed.

Lemma csvCells_clean (r : DrugInteractionData.t) :
  cleanRecord r -> forall x, In x (csvCells r) -> cleanCell x.
Proof.
  intros (H1 & H2 & H3 & H4 & H5 & _ & _ & m & e & Hm & He & Hcm & Hce) x Hx.
  unfold csvCells in Hx. rewrite Hm, He in Hx. simpl in Hx.
  repeat (destruct Hx as [<-|Hx]; [assumption|]). destruct Hx.
Qed.

Lemma rowValues_clean (cells : list string) :
  cells <> [] -> (forall x, In x cells -> cleanCell x) ->
  rowValues (JsonText.join "," cells) = cells.
Proof.
  intros Hne Hclean. unfold rowValues.
  rewrite (split_join "," cells Hne) by (intros x Hx; apply (Hclean x Hx)).
  induction cells as [|x l IH]; [reflexivity|]. cbn [map].
  destruct (Hclean x (or_introl eq_refl)) as (_ & _ & Hq & Ht).
  rewrite Ht, (removeAll_absent _ _ Hq). f_equal.
  destruct l as [|y l]; [reflexivity|]. apply IH; [discriminate|].
  intros z Hz. apply Hclean. now right.
Qed.

Lemma parse_clean_row (r : DrugInteractionData.t) :
  cleanRecord r ->
  rowRecord
    (rowObject
       (map (fun h => toLowerCase (trim h)) (split "," csvFullHeader))
       (rowValues (JsonText.join "," (csvCells r))))
  = r.
Proof.
  intros Hr. rewrite rowValues_clean; [|discriminate | now apply csvCells_clean].
  destruct Hr as (_ & _ & _ & _ & _ & Hsev & Hlow & m & e & Hm & He & _).
  destruct r as [d1 d2 sev desc rec mech ev]. cbn in Hsev, Hlow, Hm, He. subst mech ev.
  unfold csvCells. cbn [DrugInteractionData.drug1 DrugInteractionData.drug2
    DrugInteractionData.severity DrugInteractionData.description
    DrugInteractionData.recommendation DrugInteractionData.mechanism
    DrugInteractionData.evidence_level default].
  change (rowRecord _) with
    (DrugInteractionData.mk
       (orElse (orElse d1 "") "") (orElse (orElse d2 "") "")
       (toLowerCase (orElse (orElse sev "") "mild"))
       (orElse (orElse desc "") "") (orElse (orElse rec "") "")
       (Some (orElse (orElse m "") "")) (Some (orElse (orElse e "") ""))).
  rewrite !orElse_empty.
  assert (Hs : orElse sev "mild" = sev).
  { unfold orElse. apply truthy_true in Hsev. now rewrite Hsev. }
  now rewrite Hs, Hlow.
Qed.

Lemma parseCSV_csvText (data : list DrugInteractionData.t) :
  (forall r, In r data -> cleanRecord r) -> parseCSV (csvText data) = data.
Proof.
  intros Hclean. unfold parseCSV, csvText.
  change JsonText.nl with (String newline "").
  rewrite split_join; [|discriminate|].
  - induction data as [|r data IH]; [reflexivity|].
    cbn [map List.filter].
    assert (Hrow : truthy (trim (JsonText.join "," (csvCells r))) = true).
    { apply (trim_truthy ","); [reflexivity|].
      destruct (join_cells r) as (first & rest & -> & _).
      rewrite occurs_app. cbn [occurs]. rewrite Ascii.eqb_refl. apply orb_true_r. }
    rewrite Hrow. cbn [map]. rewrite parse_clean_row by (apply Hclean; now left).
    f_equal. apply IH. intros x Hx. apply Hclean. now right.
  - intros x [<-|Hx]; [reflexivity|].
    apply in_map_iff in Hx as (r & <- & Hr).
    pose proof (csvCells_clean r (Hclean r Hr)) as Hc.
    apply occurs_join_cells; [reflexivity|].
    intros c Hin. now destruct (Hc c Hin) as (_ & Hnl & _).
Qed.

(** X21: plain CSV text is read back as written. For records whose
    cells need no quoting (no comma, line feed or double quote, no white
    space at the ends), with a lowercase non-empty severity and both
    optional members present, the CSV parser applied to the header line
    followed by one line of comma-separated cells for each record returns
    exactly these records, in order. *)
Theorem X21_plain_csv_read_back (data : list DrugInteractionData.t) :
  (forall r, In r data -> cleanRecord r) -> parseCSV (csvText data) = data.
Proof. apply parseCSV_csvText. Qed.

Lemma X21_plain_csv_read_back_witness :
  parseCSV (csvText scenarioTable) = scenarioTable.
Proof.
  apply (X21_plain_csv_read_back scenarioTable).
  intros r [<-|[]]. unfold cleanRecord, cleanCell. cbn.
  repeat split; try reflexivity; try discriminate.
  exists "", "". now repeat split.
Defined.

(** X22: uploading such a file stores these records. For a file whose
    name ends in .csv (and not in .json) and whose text is the plain CSV
    text of at least one record, all of them clean and with non-empty
    drug names and description, the upload succeeds and the new dataset
    holds exactly these records, with their number as its row count and
    the file name without its extension as its name. *)
Theorem X22_plain_csv_upload
    (JSON_parse : string -> parse_result) (name : string) (size : N)
    (now today : string) (data : list DrugInteractionData.t) :
  endsWith name ".json" = false -> endsWith name ".csv" = true ->
  data <> [] ->
  (forall r, In r data ->
     cleanRecord r /\ DrugInteractionData.drug1 r <> ""
     /\ DrugInteractionData.drug2 r <> "" /\ DrugInteractionData.description r <> "") ->
  ingest JSON_parse (File.mk name (csvText data) size) now today
  = inl (Dataset.mk now (stripExtension name) today (length data) (formatSize size)
           "active" data).
Proof.
  intros Hjson Hcsv Hne Hdata. unfold ingest, parseFile. cbn [File.name File.text File.size].
  rewrite Hjson, Hcsv, parseCSV_csvText by (intros r Hr; apply (Hdata r Hr)).
  assert (Hvalid : validData data = data).
  { apply filter_all. intros r Hr. destruct (Hdata r Hr) as (Hc & H1 & H2 & H4).
    destruct Hc as (_ & _ & _ & _ & _ & H3 & _).
    unfold isValid. rewrite !andb_true_iff, !truthy_true. tauto. }
  rewrite Hvalid. destruct data as [|r data]; [congruence | reflexivity].
Qed.

Lemma X22_plain_csv_upload_witness :
  ingest JsonText.parse (File.mk "interactions.csv" (csvText scenarioTable) 133)
    "1700000000000" "2023-11-14"
  = inl (Dataset.mk "1700000000000" (stripExtension "interactions.csv") "2023-11-14"
           (length scenarioTable) (formatSize 133) "active" scenarioTable).
Proof.
  apply (X22_plain_csv_upload JsonText.parse "interactions.csv" 133
           "1700000000000" "2023-11-14" scenarioTable);
    [reflexivity | reflexivity | discriminate |].
  intros r [<-|[]]. unfold cleanRecord, cleanCell. cbn.
  repeat split; try reflexivity; try discriminate.
  exists "", "". now repeat split.
Defined.
